(** * Unified File Manager: a shallow embedding of the move pipeline

    The development follows [unified_file_managerv3.py]: the pure helpers
    ([is_trigger_file], [extract_job_number], [unique_filename],
    [find_matching_job_folder]), the three watchers (one poll cycle each,
    as a fold of the per-item loop body over the directory listing) and
    the transaction log with [revert_job].

    Strings are [string] over 8-bit characters, so [str.upper], [str.lower]
    and the regular expressions are the ASCII restrictions of Python's.
    Paths follow [ntpath] (the configured roots are Windows paths) and the
    job tree is a finite list of nodes compared by exact path equality. *)

From Stdlib Require Import List Bool Arith Lia ZArith FinFun.
From Stdlib Require Import Strings.Ascii Strings.String.
From Stdlib Require Import Numbers.DecimalString Numbers.DecimalNat.
Import ListNotations.

Open Scope list_scope.
Open Scope string_scope.
Open Scope nat_scope.

(** ** Python string primitives *)

Module PyStr.

Definition code (c : ascii) : nat := nat_of_ascii c.

Definition is_lower (c : ascii) : bool := (97 <=? code c) && (code c <=? 122).
Definition is_upper (c : ascii) : bool := (65 <=? code c) && (code c <=? 90).
Definition is_digit (c : ascii) : bool := (48 <=? code c) && (code c <=? 57).

(** [\s] of [re] on [str] patterns, restricted to ASCII: tab, newline,
    vertical tab, form feed, carriage return, the four separators
    0x1c..0x1f and the space. *)
Definition is_space (c : ascii) : bool :=
  ((9 <=? code c) && (code c <=? 13))
  || ((28 <=? code c) && (code c <=? 31))
  || (code c =? 32).

Definition upper_char (c : ascii) : ascii :=
  if is_lower c then ascii_of_nat (code c - 32) else c.

Definition lower_char (c : ascii) : ascii :=
  if is_upper c then ascii_of_nat (code c + 32) else c.

Fixpoint upper (s : string) : string :=
  match s with
  | EmptyString => EmptyString
  | String c t => String (upper_char c) (upper t)
  end.

Fixpoint lower (s : string) : string :=
  match s with
  | EmptyString => EmptyString
  | String c t => String (lower_char c) (lower t)
  end.

(** [s.startswith(p)] *)
Fixpoint startswith (p s : string) : bool :=
  match p, s with
  | EmptyString, _ => true
  | String _ _, EmptyString => false
  | String a p', String b s' => Ascii.eqb a b && startswith p' s'
  end.

(** [s.endswith(p)]: the last [len(p)] characters of [s] are [p]. *)
Definition endswith (p s : string) : bool :=
  (String.length p <=? String.length s)
  && String.eqb (substring (String.length s - String.length p) (String.length p) s) p.

(** [needle in hay] *)
Fixpoint contains (needle hay : string) : bool :=
  startswith needle hay
  || match hay with
     | EmptyString => false
     | String _ t => contains needle t
     end.

(** [str(n)] for a non-negative integer. *)
Definition str (n : nat) : string := NilEmpty.string_of_uint (Nat.to_uint n).

(** [s.rfind(c)] for a single character: the last index, or -1. *)
Fixpoint rfind_from (c : ascii) (s : string) (i acc : Z) : Z :=
  match s with
  | EmptyString => acc
  | String a t => rfind_from c t (i + 1)%Z (if Ascii.eqb a c then i else acc)
  end.

Definition rfind (c : ascii) (s : string) : Z := rfind_from c s 0%Z (-1)%Z.

(** [s[:i]] and [s[i:]] for [0 <= i]. *)
Definition take (i : nat) (s : string) : string := substring 0 i s.
Definition drop (i : nat) (s : string) : string := substring i (String.length s - i) s.

Fixpoint forallb_str (f : ascii -> bool) (s : string) : bool :=
  match s with
  | EmptyString => true
  | String c t => f c && forallb_str f t
  end.

Fixpoint existsb_str (f : ascii -> bool) (s : string) : bool :=
  match s with
  | EmptyString => false
  | String c t => f c || existsb_str f t
  end.

(** [s.isascii()].  On such text the primitives above are Python's; on
    other text Python's are wider (a dotted capital I is an I for
    [re.IGNORECASE], digits of other scripts are [\d]). *)
Definition is_ascii (s : string) : bool := forallb_str (fun c => code c <? 128) s.

End PyStr.

(** ** Paths ([ntpath]) *)

Module Path.
Import PyStr.

Definition sep : ascii := "\"%char.
Definition altsep : ascii := "/"%char.
Definition extsep : ascii := "."%char.
Definition colon : ascii := ":"%char.

Definition is_sep (c : ascii) : bool := Ascii.eqb c sep || Ascii.eqb c altsep.

(** [genericpath._splitext(p, sep, altsep, extsep)]: split at the last dot
    of the last component, unless that component is dots only up to it.
    The inner [while] returns at the first non-dot character between
    [sepIndex + 1] and [dotIndex]; it is the [existsb_str] below. *)
Definition splitext (p : string) : string * string :=
  let sepIndex := Z.max (rfind sep p) (rfind altsep p) in
  let dotIndex := rfind extsep p in
  if (sepIndex <? dotIndex)%Z then
    let filenameIndex := (sepIndex + 1)%Z in
    let lead := substring (Z.to_nat filenameIndex) (Z.to_nat (dotIndex - filenameIndex)) p in
    if existsb_str (fun c => negb (Ascii.eqb c extsep)) lead
    then (take (Z.to_nat dotIndex) p, drop (Z.to_nat dotIndex) p)
    else (p, EmptyString)
  else (p, EmptyString).

(** [os.path.join(a, b)] for a relative, drive-less [b] (every second
    argument in the program is a directory entry name or a folder name). *)
Definition ends_with_sep (a : string) : bool :=
  match get (String.length a - 1) a with
  | Some c => is_sep c || Ascii.eqb c colon
  | None => false
  end.

Definition join (a b : string) : string :=
  match a with
  | EmptyString => b
  | _ => if ends_with_sep a then a ++ b else a ++ String sep b
  end.

(** [ntpath.splitdrive] for drive-letter paths (UNC shares are not
    modelled): a colon in second position ends the drive. *)
Definition splitdrive (p : string) : string * string :=
  match get 1 p with
  | Some c => if Ascii.eqb c colon then (take 2 p, drop 2 p) else (EmptyString, p)
  | None => (EmptyString, p)
  end.

(** [head.rstrip(seps) or head] *)
Fixpoint rstrip_seps_rev (r : list ascii) : list ascii :=
  match r with
  | c :: t => if is_sep c then rstrip_seps_rev t else r
  | [] => []
  end.

Definition rstrip_seps (s : string) : string :=
  let r := string_of_list_ascii (rev (rstrip_seps_rev (rev (list_ascii_of_string s)))) in
  match r with
  | EmptyString => s
  | _ => r
  end.

(** [ntpath.split]: the tail is what follows the last separator of the
    drive-less part, the head what precedes it, trailing separators
    removed unless it consists of separators only. *)
Definition split (p : string) : string * string :=
  let (d, q) := splitdrive p in
  let i := Z.to_nat (Z.max (rfind sep q) (rfind altsep q) + 1) in
  (d ++ rstrip_seps (take i q), drop i q).

Definition basename (p : string) : string := snd (split p).
Definition dirname (p : string) : string := fst (split p).

End Path.

(** ** Configuration *)

Module Config.

Definition SOURCE_BASE : string := "Y:\E SANCHIT 25-26".
Definition UPLOAD_OOC : string := Path.join SOURCE_BASE "Upload_ooc".
Definition BILLING_BASE : string := "Z:\BILLING 2025-2026".

Definition TRIGGER_KEYWORDS : list string :=
  [ "OUT_OF_CHARGE_IR_";
    "OUT OF CHARGE_IR_" ].

Definition MONITORED_EXTENSIONS : list string :=
  [".pdf"; ".docx"; ".xlsx"; ".jpg"; ".png"; ".zip"].

(** The importer table, in insertion order (the iteration order of a
    Python [dict]). *)
Definition IMPORTER_MAP : list (string * string) :=
  [ ("ABBOTT HEALTHCARE PRIVATE LIMITED", "ABBOTT HEALTHCARE ( IMPORT )");
    ("ANANDA BALAJI FOODS PRIVATE LIMITED", "ANANDA BALAJI FOODS PV LTD");
    ("APOLLO HOSPITALS ENTERPRISE LIMITED", "APPOLLO HOSPITAL");
    ("AVIAT NETWORKS (INDIA) PRIVATE LIMITED", "AVIAT NETWORKS (INDIA) PRIVATE LIMITED");
    ("BALAJI WAFERS PRIVATE LIMITED", "BALAJI WAFERS ( IMPORT )");
    ("BESTEX MM INDIA PRIVATE LIMITED", "BESTEX MM INDIA PVT LTD");
    ("BLUE STAR ENGINEERING & ELECTRONICS LIMITED", "BLUE STAR");
    ("BRISTOL-MYERS SQUIBB INDIA PRIVATE LIMITED", "BRISTOL MYERS");
    ("EDIFICE MEDICAL TECHNOLOGIES", "EDIFICE MEDICAL SYSTEM");
    ("GATEWAY TERMINALS INDIA PRIVATE LIMITED", "GATEWAY TERMINALS INDIA PVT LTD");
    ("GUJARAT PIPAVAV PORT LIMITED", "GUJARAT PIPAVAV");
    ("JAY MA INTERNATIONAL", "JAY MA INTERNATIONAL");
    ("KANTILAL CHHOTALAL", "KANTILAL CHHOTALAL");
    ("MEDLINE HEALTHCARE INDUSTRIES PRIVATE LIMITED", "MEDLINE HEALTHCARE  PVT LTD ( IMPORT )");
    ("MUSASHI AUTO PARTS INDIA PRIVATE LIMITED", "MUSASHI AUTO PARTS");
    ("NILKANTH AGRO TECH", "NILKANTH AGRO TECH");
    ("SAKET TEX-DYE PVT.LTD.", "SAKET TEX DYE PVT LTD");
    ("SANCO BESAN MILL", "Sanco Besan Mill");
    ("SIDDHAYU LIFE SCIENCES PRIVATE LIMITED", "SIDDHAYU LIFE SCIENCES PVT ITD");
    ("SVAAR PROCESS SOLUTIONS PRIVATE LIMITED", "SVAAR PROCESS SOLUTIONS PRIVATE LIMITED");
    ("URSCHEL INDIA TRADING PRIVATE LIMITED", "URSCHEL INDIA");
    ("ADVICS INDIA PRIVATE LIMITED", "ADVICS INDIA ( IMPORT )");
    ("ANSELL INDIA PROTECTIVE PRODUCTS PRIVATE LIMITED", "ANSELL INDIA PVT LTD ( IMPORT )");
    ("ARJOHUNTLEIGH HEALTHCARE INDIA PRIVATE LIMITED", "ARJOHUNTLEIGH HEALTHCARE INDIA PVT LTD");
    ("B.BRAUN MEDICAL (INDIA) PRIVATE LIMITED", "B BRAUN MEDICAL ( IMPORT )");
    ("BMW INDIA PRIVATE LIMITED", "BMW INDIA PVT LTD");
    ("ESSITY INDIA PRIVATE LIMITED", "ESSITY INDIA ( IMPORT )");
    ("MAXHILL TECHNOLOGIES", "MAXHILL TECHNOLOGIES");
    ("SKODA AUTO VOLKSWAGEN INDIA PRIVATE LIMITED", "SKODA AUTO ( IMPORT )");
    ("TESLA INDIA MOTORS AND ENERGY PRIVATE LIMITED", "TESLA INDIA");
    ("BHARTI AIRTEL LIMITED", "BHARTI AIRTEL");
    ("DUCATI INDIA PRIVATE LIMITED", "DUCATI INDIA PVT LTD");
    ("BHARTI HEXACOM LIMITED", "BHARTI HEXACOM LIMITED") ].

(** [skip_folders] of the loose file organizer. *)
Definition skip_folders : list string :=
  [ "BILL RECEVING COPY";
    "BHARTI AIRTEL  AIFTA";
    "Automation Logs";
    "AUTO_SCRIPT";
    "File_Organization_Logs" ].

End Config.

(** ** Regular expressions of the program *)

Module Regex.
Import PyStr.

(** The class [[\s_-]]. *)
Definition is_key_sep (c : ascii) : bool :=
  is_space c || Ascii.eqb c "_"%char || Ascii.eqb c "-"%char.

(** The longest run of at most [n] leading digits. *)
Fixpoint take_digits (n : nat) (s : string) : string :=
  match n, s with
  | S n', String c t => if is_digit c then String c (take_digits n' t) else EmptyString
  | _, _ => EmptyString
  end.

(** Greedy [\d{lo,hi}] at the end of a pattern. *)
Definition digits_range (lo hi : nat) (s : string) : option string :=
  let d := take_digits hi s in
  if lo <=? String.length d then Some d else None.

(** [[\s_-]?(\d{lo,hi})]: the optional separator is tried first, and
    the match without it on failure. *)
Definition sep_digits (lo hi : nat) (s : string) : option string :=
  match (match s with
         | String c t => if is_key_sep c then digits_range lo hi t else None
         | EmptyString => None
         end) with
  | Some d => Some d
  | None => digits_range lo hi s
  end.

(** [JOB_NUMBER_REGEX = (IR|ER)[\s_-]?(\d{4,5})], [re.IGNORECASE],
    anchored at the head of [s]: groups 1 and 2. *)
Definition job_number_at (s : string) : option (string * string) :=
  match s with
  | String a (String b rest) =>
      if (Ascii.eqb (upper_char a) "I"%char || Ascii.eqb (upper_char a) "E"%char)
         && Ascii.eqb (upper_char b) "R"%char
      then match sep_digits 4 5 rest with
           | Some d => Some (String a (String b EmptyString), d)
           | None => None
           end
      else None
  | _ => None
  end.

(** [ir_pattern = IR[_\s-]?(\d{5})], [re.IGNORECASE], anchored: group 1. *)
Definition ir_pattern_at (s : string) : option string :=
  match s with
  | String a (String b rest) =>
      if Ascii.eqb (upper_char a) "I"%char && Ascii.eqb (upper_char b) "R"%char
      then sep_digits 5 5 rest
      else None
  | _ => None
  end.

(** [pattern.search(s)]: the leftmost position at which the anchored
    match succeeds. *)
Fixpoint search {A : Type} (at_head : string -> option A) (s : string) : option A :=
  match at_head s with
  | Some m => Some m
  | None =>
      match s with
      | EmptyString => None
      | String _ t => search at_head t
      end
  end.

End Regex.

(** ** Utility functions *)

Import PyStr.
Import Config.

(** [find_importer(text)] *)
Fixpoint find_importer_in (keys : list (string * string)) (text : string) : option string :=
  match keys with
  | [] => None
  | (key, _) :: rest => if contains key text then Some key else find_importer_in rest text
  end.

Definition find_importer (text : string) : option string :=
  find_importer_in IMPORTER_MAP text.

(** [IMPORTER_MAP.get(importer)] *)
Fixpoint importer_get (m : list (string * string)) (importer : string) : option string :=
  match m with
  | [] => None
  | (k, v) :: rest => if String.eqb k importer then Some v else importer_get rest importer
  end.

(** [is_trigger_file(filename)] *)
Definition is_trigger_file (filename : string) : bool :=
  let name := upper filename in
  existsb (fun k => startswith k name) TRIGGER_KEYWORDS.

(** [extract_job_number(text)] *)
Definition extract_job_number (text : string) : option string :=
  match Regex.search Regex.job_number_at text with
  | Some (g1, g2) =>
      let prefix := upper g1 in
      let number := g2 in
      Some (prefix ++ number)
  | None => None
  end.

(** ** The job tree

    A node is a directory or a file; a file carries the text PyMuPDF
    reads from its first page ([None] when [fitz] raises). [locked]
    lists the paths the operating system denies access to: a move from
    or onto one raises, and so does the listing of such a directory. *)

Inductive Node : Type :=
| Dir
| File (first_page : option string).

Record FS : Type := mkFS {
  nodes : list (string * Node);
  locked : list string
}.

Inductive Exn : Type :=
| PermissionError (msg : string)
| OSError (msg : string).

(** [str(e)] *)
Definition exn_str (e : Exn) : string :=
  match e with
  | PermissionError m => m
  | OSError m => m
  end.

Inductive Result (A : Type) : Type :=
| Ok (a : A)
| Raise (e : Exn).
Arguments Ok {A} a.
Arguments Raise {A} e.

Module Os.

Definition is_dir (n : Node) : bool :=
  match n with Dir => true | File _ => false end.

Definition mem (p : string) (l : list string) : bool := existsb (String.eqb p) l.

(** [os.path.exists(p)] *)
Definition exists_ (fs : FS) (p : string) : bool :=
  mem p (map fst (nodes fs)).

(** [os.path.isdir(p)] *)
Definition isdir (fs : FS) (p : string) : bool :=
  existsb (fun e => String.eqb (fst e) p && is_dir (snd e)) (nodes fs).

(** The rest of [p] after the prefix [pre], when [pre] is one. *)
Fixpoint strip_prefix (pre p : string) : option string :=
  match pre, p with
  | EmptyString, _ => Some p
  | String a pre', String b p' => if Ascii.eqb a b then strip_prefix pre' p' else None
  | String _ _, EmptyString => None
  end.

(** The name of [p] as an entry of directory [d], if it is one. *)
Definition child_name (d p : string) : option string :=
  match strip_prefix (Path.join d EmptyString) p with
  | Some n =>
      if String.eqb n EmptyString || existsb_str Path.is_sep n then None else Some n
  | None => None
  end.

Fixpoint children (d : string) (l : list (string * Node)) : list string :=
  match l with
  | [] => []
  | (p, _) :: rest =>
      match child_name d p with
      | Some n => n :: children d rest
      | None => children d rest
      end
  end.

(** [os.listdir(d)]: raises unless [d] is a directory, and on a
    directory the operating system denies access to. *)
Definition listdir (fs : FS) (d : string) : Result (list string) :=
  if isdir fs d then
    if mem d (locked fs) then Raise (PermissionError "Access is denied")
    else Ok (children d (nodes fs))
  else Raise (OSError "The system cannot find the path specified").

(** A drive root ([Z:\]) has an empty last component.  It has no node in
    the tree: the drives are taken to be there. *)
Definition is_root (p : string) : bool := String.eqb (Path.basename p) EmptyString.

(** [os.mkdir(d)]: raises when something is at [d], when the parent of [d]
    is not a directory, and when access is denied. *)
Definition mkdir (fs : FS) (d : string) : Result FS :=
  if exists_ fs d then Raise (OSError "Cannot create a file when that file already exists")
  else if negb (is_root (Path.dirname d) || isdir fs (Path.dirname d))
  then Raise (OSError "The system cannot find the path specified")
  else if mem d (locked fs) then Raise (PermissionError "Access is denied")
  else Ok (mkFS (nodes fs ++ [(d, Dir)])%list (locked fs)).

(** [os.makedirs(name, exist_ok=True)], for a [name] without a trailing
    separator: the head is made first when nothing is there, then [name]
    itself; an error of that last [mkdir] is swallowed when [name] is a
    directory.  The recursion goes up the path, one component at a time,
    so the length of [name] bounds it (see [makedirs_fuel]). *)
Fixpoint makedirs_from (fuel : nat) (fs : FS) (name : string) : Result FS :=
  match fuel with
  | 0 => Raise (OSError "maximum recursion depth exceeded")
  | S fuel' =>
      let head := Path.dirname name in
      if is_root name then Ok fs
      else
        let above :=
          if is_root head || exists_ fs head then Ok fs
          else makedirs_from fuel' fs head in
        match above with
        | Raise e => Raise e
        | Ok fs1 =>
            match mkdir fs1 name with
            | Ok fs2 => Ok fs2
            | Raise e => if isdir fs1 name then Ok fs1 else Raise e
            end
        end
  end.

Definition makedirs (fs : FS) (name : string) : Result FS :=
  makedirs_from (S (String.length name)) fs name.

(** The path of a node after its ancestor (or itself) [src] became [dst]. *)
Definition relocate (src dst p : string) : string :=
  if String.eqb p src then dst
  else match strip_prefix (src ++ String Path.sep EmptyString) p with
       | Some rest => dst ++ String Path.sep rest
       | None => p
       end.

(** [shutil.move(src, dst)]: into [dst] when [dst] is a directory, onto
    [dst] otherwise; a file at the target is replaced by a moved file,
    any other occupied target raises.  A move that raises is taken to
    have done nothing: what a copy-then-delete across volumes can leave
    behind when it fails half way is not part of the tree here, and the
    statements below about a failed move say no more than that the
    source is still there.  The parent of the target is not looked at:
    the callers move onto paths below a directory they found or made. *)
Definition shutil_move (fs : FS) (src dst : string) : Result FS :=
  if negb (exists_ fs src) then Raise (OSError "No such file or directory")
  else
    let real_dst := if isdir fs dst then Path.join dst (Path.basename src) else dst in
    if isdir fs dst && exists_ fs real_dst
    then Raise (OSError "Destination path already exists")
    else if isdir fs src && exists_ fs real_dst
    then Raise (OSError "Cannot create a file when that file already exists")
    else if mem src (locked fs) || mem real_dst (locked fs)
    then Raise (PermissionError "Access is denied")
    else
      let kept := filter (fun e => negb (String.eqb (fst e) real_dst)) (nodes fs) in
      Ok (mkFS (map (fun e => (relocate src real_dst (fst e), snd e)) kept) (locked fs)).

(** The first-page text of a PDF, as [fitz] gives it. *)
Fixpoint first_page_of (l : list (string * Node)) (p : string) : option string :=
  match l with
  | [] => None
  | (q, n) :: rest =>
      if String.eqb q p
      then match n with File t => t | Dir => None end
      else first_page_of rest p
  end.

End Os.

(** [extract_text_from_pdf(pdf_path)]: the upper-cased first page, the
    empty string when extraction raises. *)
Definition extract_text_from_pdf (fs : FS) (pdf_path : string) : string :=
  match Os.first_page_of (nodes fs) pdf_path with
  | Some text => upper text
  | None => EmptyString
  end.

(** [unique_filename(dest_path)].  The [while True] loop is run with a
    budget of one more round than the tree has nodes; [unique_filename_total]
    shows that the budget is never exhausted. *)
Fixpoint unique_loop (fs : FS) (base ext : string) (fuel counter : nat) : option string :=
  match fuel with
  | 0 => None
  | S fuel' =>
      let new_path := base ++ "_" ++ str counter ++ ext in
      if negb (Os.exists_ fs new_path) then Some new_path
      else unique_loop fs base ext fuel' (counter + 1)
  end.

Definition unique_filename (fs : FS) (dest_path : string) : option string :=
  if negb (Os.exists_ fs dest_path) then Some dest_path
  else
    let (base, ext) := Path.splitext dest_path in
    let counter := 1 in
    unique_loop fs base ext (S (List.length (nodes fs))) counter.

(** The key-in-folder-name test shared by the ingest watcher and
    [find_matching_job_folder]: [job_number.upper() in item.upper()]. *)
Definition key_in_name (job_number item : string) : bool :=
  contains (upper job_number) (upper item).

(** [find_matching_job_folder(company_path, job_number)]; a failing
    listing is caught and gives [None]. *)
Fixpoint first_matching_dir (fs : FS) (parent job_number : string) (items : list string)
  : option string :=
  match items with
  | [] => None
  | item :: rest =>
      let item_path := Path.join parent item in
      if Os.isdir fs item_path && key_in_name job_number item
      then Some item_path
      else first_matching_dir fs parent job_number rest
  end.

Definition find_matching_job_folder (fs : FS) (company_path job_number : string)
  : option string :=
  match Os.listdir fs company_path with
  | Ok items => first_matching_dir fs company_path job_number items
  | Raise _ => None
  end.

(** ** Log files and the world

    A CSV file is its list of parsed rows, [None] while the file does not
    exist.  [can_read] and [can_write] say whether [open] succeeds for
    reading and for writing or appending. *)

Definition Row : Type := list string.

Record LogFile : Type := mkLog {
  rows : option (list Row);
  can_read : bool;
  can_write : bool
}.

Definition rows_of (l : LogFile) : list Row :=
  match rows l with
  | Some rs => rs
  | None => []
  end.

(** [open(path, "a")] followed by [writerow(row)]. *)
Definition csv_append (l : LogFile) (row : Row) : Result LogFile :=
  if can_write l
  then Ok (mkLog (Some (rows_of l ++ [row])%list) (can_read l) (can_write l))
  else Raise (PermissionError "Permission denied").

(** [open(path, "w")] followed by [writerow(row)]. *)
Definition csv_create (l : LogFile) (row : Row) : Result LogFile :=
  if can_write l
  then Ok (mkLog (Some [row]) (can_read l) (can_write l))
  else Raise (PermissionError "Permission denied").

(** [open(path, "r")] followed by [list(csv.reader(f))]. *)
Definition csv_read (l : LogFile) : Result (list Row) :=
  match rows l with
  | None => Raise (OSError "No such file or directory")
  | Some rs => if can_read l then Ok rs else Raise (PermissionError "Permission denied")
  end.

Record Stats : Type := mkStats {
  moved : nat;
  skipped : nat;
  errors : nat
}.

Definition bump_moved (s : Stats) : Stats := mkStats (moved s + 1) (skipped s) (errors s).
Definition bump_skipped (s : Stats) : Stats := mkStats (moved s) (skipped s + 1) (errors s).
Definition bump_errors (s : Stats) : Stats := mkStats (moved s) (skipped s) (errors s + 1).

(** The state the watchers and the undo manager share.  [now_log] is
    [datetime.now()] in the format of the log files, [now_compact] in the
    format of the collision suffix; the clock stands still during one
    loop body. *)
Record World : Type := mkWorld {
  fs : FS;
  move_log : LogFile;
  revert_log : LogFile;
  revert_history_log : LogFile;
  ooc_upload_log : LogFile;
  loose_file_log : LogFile;
  ooc_upload_stats : Stats;
  job_move_stats : Stats;
  loose_file_stats : Stats;
  now_log : string;
  now_compact : string
}.

Definition set_fs (w : World) (x : FS) : World :=
  mkWorld x (move_log w) (revert_log w) (revert_history_log w) (ooc_upload_log w)
    (loose_file_log w) (ooc_upload_stats w) (job_move_stats w) (loose_file_stats w)
    (now_log w) (now_compact w).
Definition set_move_log (w : World) (x : LogFile) : World :=
  mkWorld (fs w) x (revert_log w) (revert_history_log w) (ooc_upload_log w)
    (loose_file_log w) (ooc_upload_stats w) (job_move_stats w) (loose_file_stats w)
    (now_log w) (now_compact w).
Definition set_revert_log (w : World) (x : LogFile) : World :=
  mkWorld (fs w) (move_log w) x (revert_history_log w) (ooc_upload_log w)
    (loose_file_log w) (ooc_upload_stats w) (job_move_stats w) (loose_file_stats w)
    (now_log w) (now_compact w).
Definition set_revert_history_log (w : World) (x : LogFile) : World :=
  mkWorld (fs w) (move_log w) (revert_log w) x (ooc_upload_log w)
    (loose_file_log w) (ooc_upload_stats w) (job_move_stats w) (loose_file_stats w)
    (now_log w) (now_compact w).
Definition set_ooc_upload_log (w : World) (x : LogFile) : World :=
  mkWorld (fs w) (move_log w) (revert_log w) (revert_history_log w) x
    (loose_file_log w) (ooc_upload_stats w) (job_move_stats w) (loose_file_stats w)
    (now_log w) (now_compact w).
Definition set_loose_file_log (w : World) (x : LogFile) : World :=
  mkWorld (fs w) (move_log w) (revert_log w) (revert_history_log w) (ooc_upload_log w)
    x (ooc_upload_stats w) (job_move_stats w) (loose_file_stats w)
    (now_log w) (now_compact w).
Definition set_ooc_upload_stats (w : World) (x : Stats) : World :=
  mkWorld (fs w) (move_log w) (revert_log w) (revert_history_log w) (ooc_upload_log w)
    (loose_file_log w) x (job_move_stats w) (loose_file_stats w)
    (now_log w) (now_compact w).
Definition set_job_move_stats (w : World) (x : Stats) : World :=
  mkWorld (fs w) (move_log w) (revert_log w) (revert_history_log w) (ooc_upload_log w)
    (loose_file_log w) (ooc_upload_stats w) x (loose_file_stats w)
    (now_log w) (now_compact w).
Definition set_loose_file_stats (w : World) (x : Stats) : World :=
  mkWorld (fs w) (move_log w) (revert_log w) (revert_history_log w) (ooc_upload_log w)
    (loose_file_log w) (ooc_upload_stats w) (job_move_stats w) x
    (now_log w) (now_compact w).

(** ** Watcher 1: OOC file uploader *)

(** [log_ooc_upload]: a failing write is reported on the console only. *)
Definition log_ooc_upload (w : World) (filename job_no dest_path status : string) : World :=
  match csv_append (ooc_upload_log w) [now_log w; filename; job_no; dest_path; status] with
  | Ok l => set_ooc_upload_log w l
  | Raise _ => w
  end.

(** What one iteration of a watcher loop leaves behind: the world, and
    the exception when it escapes the loop body. *)
Inductive Step : Type :=
| Next (w : World)
| Escape (e : Exn) (w : World).

(** The body of [for filename in os.listdir(UPLOAD_OOC)]. *)
Definition ooc_upload_body (w : World) (filename : string) : Step :=
  let file_path := Path.join UPLOAD_OOC filename in
  if Os.isdir (fs w) file_path then Next w
  else if negb (endswith ".pdf" (lower filename)) then Next w
  else
    match Regex.search Regex.ir_pattern_at filename with
    | None =>
        Next (set_ooc_upload_stats w (bump_skipped (ooc_upload_stats w)))
    | Some digits =>
        let job_no := "IR" ++ digits in
        let job_folder := Path.join SOURCE_BASE job_no in
        let located : Result (option string) :=
          if negb (Os.exists_ (fs w) job_folder) then
            match Os.listdir (fs w) SOURCE_BASE with
            | Ok folders => Ok (first_matching_dir (fs w) SOURCE_BASE job_no folders)
            | Raise e => Raise e
            end
          else Ok (Some job_folder) in
        match located with
        | Raise e => Escape e w
        | Ok None =>
            let w1 := log_ooc_upload w filename job_no EmptyString "ERROR: Folder not found" in
            Next (set_ooc_upload_stats w1 (bump_errors (ooc_upload_stats w1)))
        | Ok (Some job_folder) =>
            match unique_filename (fs w) (Path.join job_folder filename) with
            | None => Escape (OSError "unreachable") w (* see unique_filename_total *)
            | Some dest_path =>
                match Os.shutil_move (fs w) file_path dest_path with
                | Ok fs' =>
                    let w1 := log_ooc_upload (set_fs w fs') filename job_no dest_path "MOVED" in
                    Next (set_ooc_upload_stats w1 (bump_moved (ooc_upload_stats w1)))
                | Raise e =>
                    let w1 := log_ooc_upload w filename job_no EmptyString
                                ("ERROR: " ++ exn_str e) in
                    Next (set_ooc_upload_stats w1 (bump_errors (ooc_upload_stats w1)))
                end
            end
        end
    end.

(** One pass of the [while ooc_upload_running] loop: the [for] loop, and
    the outer handler that counts an escaping exception as an error. *)
Fixpoint ooc_upload_loop (w : World) (files : list string) : Step :=
  match files with
  | [] => Next w
  | filename :: rest =>
      match ooc_upload_body w filename with
      | Next w' => ooc_upload_loop w' rest
      | Escape e w' => Escape e w'
      end
  end.

Definition ooc_upload_cycle (w : World) : World :=
  match Os.listdir (fs w) UPLOAD_OOC with
  | Raise _ => set_ooc_upload_stats w (bump_errors (ooc_upload_stats w))
  | Ok files =>
      match ooc_upload_loop w files with
      | Next w' => w'
      | Escape _ w' => set_ooc_upload_stats w' (bump_errors (ooc_upload_stats w'))
      end
  end.

(** ** Watcher 2: job folder mover *)

(** [log_job_move] *)
Definition log_job_move (w : World)
    (job_no importer billing_folder trigger_file action comments : string) : World :=
  match csv_append (move_log w)
          [now_log w; job_no; importer; billing_folder; trigger_file; action; comments] with
  | Ok l => set_move_log w l
  | Raise _ => w
  end.

(** [log_revert]: appends a MoveTransaction to the transaction log; a
    failing write is reported on the console only. *)
Definition log_revert (w : World) (job_no original_path moved_path : string) : World :=
  match csv_append (revert_log w) [job_no; original_path; moved_path; now_log w] with
  | Ok l => set_revert_log w l
  | Raise _ => w
  end.

(** What a call that may raise leaves behind: the world in both cases. *)
Inductive Outcome (A : Type) : Type :=
| Returned (a : A) (w : World)
| Raised (e : Exn) (w : World).
Arguments Returned {A} a w.
Arguments Raised {A} e w.

(** [move_folder(src, dest_parent)] *)
Definition move_folder (w : World) (src dest_parent : string) : Outcome string :=
  let job := Path.basename src in
  let dest := Path.join dest_parent job in
  match Os.makedirs (fs w) dest_parent with
  | Raise e => Raised e w
  | Ok fs1 =>
      let w1 := set_fs w fs1 in
      let dest :=
        if Os.exists_ fs1 dest then dest ++ "_" ++ now_compact w1 else dest in
      match Os.shutil_move fs1 src dest with
      | Raise e => Raised e w1
      | Ok fs2 =>
          let w2 := log_revert (set_fs w1 fs2) job src dest in
          Returned dest w2
      end
  end.

(** The body of [for trigger_path in trigger_files]. No call of the body
    outside [move_folder] raises, so the outer handler of the body is
    never entered. *)
Definition job_move_body (w : World) (trigger_path : string) : World :=
  let job_path := Path.dirname trigger_path in
  let job := Path.basename job_path in
  let trigger := Path.basename trigger_path in
  if String.eqb (lower job) "upload_ooc" then w
  else if negb (Os.exists_ (fs w) job_path) then w
  else
    let text := extract_text_from_pdf (fs w) trigger_path in
    if String.eqb text EmptyString then
      let w1 := log_job_move w job EmptyString EmptyString trigger "SKIPPED"
                  "Could not extract text from PDF" in
      set_job_move_stats w1 (bump_skipped (job_move_stats w1))
    else
      match find_importer text with
      | None =>
          let w1 := log_job_move w job EmptyString EmptyString trigger "SKIPPED"
                      "No matching importer found in PDF" in
          set_job_move_stats w1 (bump_skipped (job_move_stats w1))
      | Some importer =>
          match importer_get IMPORTER_MAP importer with
          | None =>
              let w1 := log_job_move w job importer EmptyString trigger "SKIPPED"
                          "No billing folder mapping found" in
              set_job_move_stats w1 (bump_skipped (job_move_stats w1))
          | Some billing_folder =>
              if String.eqb billing_folder EmptyString then
                let w1 := log_job_move w job importer EmptyString trigger "SKIPPED"
                            "No billing folder mapping found" in
                set_job_move_stats w1 (bump_skipped (job_move_stats w1))
              else
                let dest_parent := Path.join BILLING_BASE billing_folder in
                match move_folder w job_path dest_parent with
                | Returned final_path w1 =>
                    let w2 := log_job_move w1 job importer billing_folder trigger "MOVED"
                                ("Moved to " ++ final_path) in
                    set_job_move_stats w2 (bump_moved (job_move_stats w2))
                | Raised (PermissionError m) w1 =>
                    let w2 := log_job_move w1 job importer billing_folder trigger "ERROR"
                                ("Permission denied: " ++ m) in
                    set_job_move_stats w2 (bump_errors (job_move_stats w2))
                | Raised (OSError m) w1 =>
                    let w2 := log_job_move w1 job importer billing_folder trigger "ERROR"
                                ("Move failed: " ++ m) in
                    set_job_move_stats w2 (bump_errors (job_move_stats w2))
                end
          end
      end.

(** One pass over the trigger files [glob] found. *)
Definition job_move_cycle (w : World) (trigger_files : list string) : World :=
  fold_left job_move_body trigger_files w.

(** ** Undo manager *)

(** [log_revert_history]: the header is written first when the file does
    not exist; any failure is reported on the console only. *)
Definition log_revert_history (w : World) (job_no reverted_from reverted_to status : string)
  : World :=
  let created :=
    match rows (revert_history_log w) with
    | None =>
        csv_create (revert_history_log w)
          ["Timestamp"; "Job"; "Reverted From"; "Reverted To"; "Status"]
    | Some _ => Ok (revert_history_log w)
    end in
  match created with
  | Raise _ => w
  | Ok l =>
      match csv_append l [now_log w; job_no; reverted_from; reverted_to; status] with
      | Ok l' => set_revert_history_log w l'
      | Raise _ => w
      end
  end.

(** [r and len(r) >= 3 and r[0] == job_no] *)
Definition row_matches (job_no : string) (r : Row) : bool :=
  match r with
  | [] => false
  | c0 :: _ => (3 <=? List.length r) && String.eqb c0 job_no
  end.

(** [r[i]] where the row is long enough. *)
Definition col (i : nat) (r : Row) : string := nth i r EmptyString.

(** [matches[-1]] *)
Definition last_match (job_no : string) (rs : list Row) : option Row :=
  match rev (filter (row_matches job_no) rs) with
  | [] => None
  | r :: _ => Some r
  end.

(** The handlers of [revert_job]. *)
Definition revert_handler (w : World) (job_no : string) (e : Exn) : World * string :=
  match e with
  | PermissionError m =>
      (log_revert_history w job_no "Unknown" "Unknown" ("FAILED: Permission denied - " ++ m),
       "Permission denied: " ++ m)
  | OSError m =>
      (log_revert_history w job_no "Unknown" "Unknown" ("FAILED: " ++ m),
       "Error reverting: " ++ m)
  end.

(** [revert_job(job_no)]: the world after the call and the message
    returned. *)
Definition revert_job (w : World) (job_no : string) : World * string :=
  match rows (revert_log w) with
  | None => (w, "Revert log file not found.")
  | Some _ =>
      match csv_read (revert_log w) with
      | Raise e => revert_handler w job_no e
      | Ok all_rows =>
          match all_rows with
          | [] => (w, "Revert log is empty.")
          | _ :: rows_ =>
              match last_match job_no rows_ with
              | None => (w, "No revert entry found for " ++ job_no ++ ".")
              | Some last =>
                  let original := col 1 last in
                  let moved_ := col 2 last in
                  if negb (Os.exists_ (fs w) moved_) then
                    (log_revert_history w job_no moved_ original
                       "FAILED: Folder not at moved location",
                     "Folder no longer exists at: " ++ moved_)
                  else
                    let original_parent := Path.dirname original in
                    if negb (Os.exists_ (fs w) original_parent) then
                      (log_revert_history w job_no moved_ original
                         "FAILED: Original directory missing",
                       "Original directory doesn't exist: " ++ original_parent)
                    else
                      let final_destination :=
                        if Os.exists_ (fs w) original
                        then original ++ "_" ++ now_compact w
                        else original in
                      match Os.shutil_move (fs w) moved_ final_destination with
                      | Raise e => revert_handler w job_no e
                      | Ok fs' =>
                          (log_revert_history (set_fs w fs') job_no moved_ final_destination
                             "SUCCESS",
                           "Reverted successfully to " ++ final_destination)
                      end
              end
          end
      end
  end.

(** ** Watcher 3: loose file organizer *)

(** [log_loose_file] *)
Definition log_loose_file (w : World) (company filename source dest status : string) : World :=
  match csv_append (loose_file_log w) [now_log w; company; filename; source; dest; status] with
  | Ok l => set_loose_file_log w l
  | Raise _ => w
  end.

(** The body of [for item in os.listdir(company_path)]. *)
Definition loose_file_body (w : World) (company_folder item : string) : World :=
  let company_path := Path.join BILLING_BASE company_folder in
  let item_path := Path.join company_path item in
  if Os.isdir (fs w) item_path then w
  else
    let ext := snd (Path.splitext item) in
    if negb (Os.mem (lower ext) MONITORED_EXTENSIONS) then w
    else
      match extract_job_number item with
      | None => w
      | Some job_number =>
          match find_matching_job_folder (fs w) company_path job_number with
          | None => w
          | Some job_folder_path =>
              match unique_filename (fs w) (Path.join job_folder_path item) with
              | None => w (* unreachable, see unique_filename_total *)
              | Some dest_path =>
                  match Os.shutil_move (fs w) item_path dest_path with
                  | Ok fs' =>
                      let w1 := log_loose_file (set_fs w fs') company_folder item item_path
                                  dest_path "MOVED" in
                      set_loose_file_stats w1 (bump_moved (loose_file_stats w1))
                  | Raise e =>
                      let w1 := log_loose_file w company_folder item item_path EmptyString
                                  ("ERROR: " ++ exn_str e) in
                      set_loose_file_stats w1 (bump_errors (loose_file_stats w1))
                  end
              end
          end
      end.

(** The body of [for company_folder in os.listdir(BILLING_BASE)]; a
    failing listing of the company folder escapes to the outer handler. *)
Definition loose_company_body (w : World) (company_folder : string) : Step :=
  let company_path := Path.join BILLING_BASE company_folder in
  if negb (Os.isdir (fs w) company_path) then Next w
  else if Os.mem company_folder skip_folders then Next w
  else
    match Os.listdir (fs w) company_path with
    | Raise e => Escape e w
    | Ok items => Next (fold_left (fun w' item => loose_file_body w' company_folder item) items w)
    end.

Fixpoint loose_file_loop (w : World) (companies : list string) : Step :=
  match companies with
  | [] => Next w
  | company_folder :: rest =>
      match loose_company_body w company_folder with
      | Next w' => loose_file_loop w' rest
      | Escape e w' => Escape e w'
      end
  end.

Definition loose_file_cycle (w : World) : World :=
  match Os.listdir (fs w) BILLING_BASE with
  | Raise _ => set_loose_file_stats w (bump_errors (loose_file_stats w))
  | Ok companies =>
      match loose_file_loop w companies with
      | Next w' => w'
      | Escape _ w' => set_loose_file_stats w' (bump_errors (loose_file_stats w'))
      end
  end.

(** ** Specification vocabulary *)

(** The [_N] counter variant of a path: the counter goes before the
    extension. *)
Definition counter_variant (path : string) (n : nat) : string :=
  let (base, ext) := Path.splitext path in
  base ++ "_" ++ str n ++ ext.

(** Two strings that differ in letter case only. *)
Definition same_modulo_case (a b : string) : Prop := upper a = upper b.

(** [s] starts with [p] / ends with [p], as propositions. *)
Definition has_prefix (p s : string) : Prop := exists rest, s = p ++ rest.
Definition has_suffix (p s : string) : Prop := exists stem, s = stem ++ p.

(** ** Worked scenarios

    A small job tree used to run the definitions: the inbox holds three
    documents, job folder IR00451 holds its trigger document, and the
    BMW company folder holds one promoted job and two stray files. *)

Module Scenario.

Definition job_451 : string := Path.join SOURCE_BASE "IR00451".
Definition bmw : string := Path.join BILLING_BASE "BMW INDIA PVT LTD".

Definition tree : FS :=
  mkFS
    [ (SOURCE_BASE, Dir);
      (UPLOAD_OOC, Dir);
      (Path.join UPLOAD_OOC "Invoice_IR_00451.pdf", File None);
      (Path.join UPLOAD_OOC "notes.pdf", File None);
      (Path.join UPLOAD_OOC "IR_00451.txt", File None);
      (job_451, Dir);
      (Path.join job_451 "Out_of_Charge_IR_00451.pdf",
       File (Some "Importer: BMW India Private Limited, Chennai"));
      (BILLING_BASE, Dir);
      (bmw, Dir);
      (Path.join bmw "IR00300 - BMW", Dir);
      (Path.join bmw "Packing_List_IR00300.docx", File None);
      (Path.join bmw "Packing_List_IR00999.docx", File None);
      (Path.join bmw "summary.xlsx", File None) ]
    [].

(** The same tree with the job folder locked against moves. *)
Definition tree_locked : FS := mkFS (nodes tree) [job_451].

Definition log_with (rs : list Row) : LogFile := mkLog (Some rs) true true.
Definition log_read_only (rs : list Row) : LogFile := mkLog (Some rs) true false.

Definition revert_header : Row := ["Job No"; "Original Path"; "Moved Path"; "Timestamp"].

Definition stats0 : Stats := mkStats 0 0 0.

Definition world_with (t : FS) (ledger : LogFile) : World :=
  mkWorld t
    (log_with [["Timestamp"; "Job No"; "Importer"; "Billing Folder";
                "Trigger File"; "Action"; "Comments"]])
    ledger
    (mkLog None true true)
    (log_with [["Timestamp"; "Filename"; "Job No"; "Destination Path"; "Status"]])
    (log_with [["Timestamp"; "Company Folder"; "Filename"; "Source Path";
                "Destination Path"; "Status"]])
    stats0 stats0 stats0
    "2026-01-15 10:30:00" "20260115103000".

Definition world : World := world_with tree (log_with [revert_header]).

(** A ledger after two promotions of IR00300; the later row carries the
    earlier timestamp. *)
Definition ledger_300 : LogFile :=
  log_with
    [ revert_header;
      ["IR00300 - BMW"; Path.join SOURCE_BASE "IR00300 - BMW";
       Path.join bmw "IR00300 - BMW_old"; "2026-01-14 09:00:00"];
      ["IR00777"; Path.join SOURCE_BASE "IR00777";
       Path.join bmw "IR00777"; "2026-01-14 09:30:00"];
      ["IR00300 - BMW"; Path.join SOURCE_BASE "IR00300 - BMW";
       Path.join bmw "IR00300 - BMW"; "2026-01-13 08:00:00"] ].

Definition world_300 : World := world_with tree ledger_300.

(** The trigger document of job IR00451, and worlds in which its
    folder is locked or the transaction log cannot be written. *)
Definition trigger_451 : string := Path.join job_451 "Out_of_Charge_IR_00451.pdf".
Definition world_locked : World := world_with tree_locked (log_with [revert_header]).
Definition world_ledger_read_only : World :=
  world_with tree (log_read_only [revert_header]).

(** A tree in which the company folder of job IR00451 is not there and
    cannot be made: its name is taken by a file. *)
Definition tree_company_file : FS :=
  mkFS
    [ (SOURCE_BASE, Dir);
      (job_451, Dir);
      (Path.join job_451 "Out_of_Charge_IR_00451.pdf",
       File (Some "Importer: BMW India Private Limited, Chennai"));
      (BILLING_BASE, Dir);
      (bmw, File None) ]
    [].

Definition world_company_file : World :=
  world_with tree_company_file (log_with [revert_header]).

(** The tree with the company folder closed to listing. *)
Definition tree_company_closed : FS := mkFS (nodes tree) [bmw].

Definition world_company_closed : World :=
  world_with tree_company_closed (log_with [revert_header]).

End Scenario.

(** ** Start-up, the revert manager and the offline report *)

Definition LOG_DIR : string := "Z:\BILLING 2025-2026\Automation Logs".

(** [JOB_FOLDER_PATTERN = ^(IR|ER)\d+], [re.IGNORECASE], and
    [is_job_folder(folder_name)]: [match] anchors the pattern at the
    head of the name. *)
Definition is_job_folder (folder_name : string) : bool :=
  match folder_name with
  | String a (String b rest) =>
      (Ascii.eqb (upper_char a) "I"%char || Ascii.eqb (upper_char a) "E"%char)
      && Ascii.eqb (upper_char b) "R"%char
      && match rest with
         | String c _ => is_digit c
         | EmptyString => false
         end
  | _ => false
  end.

(** [if not os.path.exists(LOG): open(LOG, "w") ... writerow(header)] *)
Definition init_log (l : LogFile) (header : Row) : Result LogFile :=
  match rows l with
  | None => csv_create l header
  | Some _ => Ok l
  end.

Definition MOVE_LOG_HEADER : Row :=
  ["Timestamp"; "Job No"; "Importer"; "Billing Folder"; "Trigger File"; "Action"; "Comments"].
Definition REVERT_LOG_HEADER : Row :=
  ["Job No"; "Original Path"; "Moved Path"; "Timestamp"].
Definition OOC_UPLOAD_LOG_HEADER : Row :=
  ["Timestamp"; "Filename"; "Job No"; "Destination Path"; "Status"].
Definition LOOSE_FILE_LOG_HEADER : Row :=
  ["Timestamp"; "Company Folder"; "Filename"; "Source Path"; "Destination Path"; "Status"].

(** [ensure_directories_and_logs()]: nothing is caught, the first failure
    ends the call with what was done so far. *)
Definition ensure_directories_and_logs (w : World) : Outcome unit :=
  match Os.makedirs (fs w) LOG_DIR with
  | Raise e => Raised e w
  | Ok fs1 =>
      let w1 := set_fs w fs1 in
      match Os.makedirs (fs w1) UPLOAD_OOC with
      | Raise e => Raised e w1
      | Ok fs2 =>
          let w2 := set_fs w1 fs2 in
          match init_log (move_log w2) MOVE_LOG_HEADER with
          | Raise e => Raised e w2
          | Ok l3 =>
              let w3 := set_move_log w2 l3 in
              match init_log (revert_log w3) REVERT_LOG_HEADER with
              | Raise e => Raised e w3
              | Ok l4 =>
                  let w4 := set_revert_log w3 l4 in
                  match init_log (ooc_upload_log w4) OOC_UPLOAD_LOG_HEADER with
                  | Raise e => Raised e w4
                  | Ok l5 =>
                      let w5 := set_ooc_upload_log w4 l5 in
                      match init_log (loose_file_log w5) LOOSE_FILE_LOG_HEADER with
                      | Raise e => Raised e w5
                      | Ok l6 => Returned tt (set_loose_file_log w5 l6)
                      end
                  end
              end
          end
      end
  end.

(** [check_status(row)] of the revert manager: [Some true] is reverted,
    [Some false] not reverted, [None] unknown. *)
Definition check_status (t : FS) (row : Row) : option bool :=
  if (List.length row <? 3) then None
  else if Os.exists_ t (col 1 row) then Some true
  else if Os.exists_ t (col 2 row) then Some false
  else None.

(** [" ".join(row)] *)
Fixpoint join_spaces (row : Row) : string :=
  match row with
  | [] => EmptyString
  | [c] => c
  | c :: rest => c ++ " " ++ join_spaces rest
  end.

(** The choices of the filter box of the revert manager. *)
Inductive FilterOption : Type :=
| FilterAll
| FilterNotReverted
| FilterAlreadyReverted.

(** The body of the loop of [load_rows]: whether a ledger row is put in
    the table, for the text of the search box and the filter chosen. *)
Definition row_shown (t : FS) (search : string) (filter_option : FilterOption)
    (row : Row) : bool :=
  match row with
  | [] => false
  | _ =>
      let search_term := upper search in
      if negb (String.eqb search_term EmptyString)
         && negb (contains search_term (upper (join_spaces row)))
      then false
      else
        let status := check_status t row in
        match filter_option, status with
        | FilterNotReverted, Some false => true
        | FilterNotReverted, _ => false
        | FilterAlreadyReverted, Some true => true
        | FilterAlreadyReverted, _ => false
        | FilterAll, _ => true
        end
  end.

(** [load_rows()]: the ledger rows the table shows, in ledger order; a
    ledger that cannot be read shows as empty. *)
Definition load_rows (w : World) (search : string) (filter_option : FilterOption)
  : list Row :=
  let all_rows :=
    match csv_read (revert_log w) with
    | Ok rs => tl rs
    | Raise _ => []
    end in
  filter (row_shown (fs w) search filter_option) all_rows.

(** [open(path, "w")] followed by [writerows(rs)]. *)
Definition csv_rewrite (l : LogFile) (rs : list Row) : Result LogFile :=
  if can_write l
  then Ok (mkLog (Some rs) (can_read l) (can_write l))
  else Raise (PermissionError "Permission denied").

(** [len(row) > 0 and row[0] not in jobs_to_delete] *)
Definition row_kept (jobs_to_delete : list string) (row : Row) : bool :=
  (0 <? List.length row) && negb (Os.mem (col 0 row) jobs_to_delete).

(** [delete_logs()], once the deletion is confirmed, for the job names
    of the checked table rows (as strings); a failure is shown in a
    message box and the ledger stays as it is. *)
Definition delete_logs (w : World) (jobs_to_delete : list string) : World :=
  match jobs_to_delete with
  | [] => w
  | _ =>
      match csv_read (revert_log w) with
      | Raise _ => w
      | Ok all_rows =>
          let remaining_rows :=
            match all_rows with
            | [] => []
            | header :: data => header :: filter (row_kept jobs_to_delete) data
            end in
          match csv_rewrite (revert_log w) remaining_rows with
          | Ok l => set_revert_log w l
          | Raise _ => w
          end
      end
  end.

(** [do_revert()], once confirmed, for the job names of the checked
    rows: the world, the number of successes and the failure lines. *)
Fixpoint do_revert_loop (w : World) (checked : list string) (success : nat)
    (failures : list string) : World * nat * list string :=
  match checked with
  | [] => (w, success, failures)
  | job_no :: rest =>
      let (w', result) := revert_job w job_no in
      if contains "successfully" (lower result)
      then do_revert_loop w' rest (success + 1) failures
      else do_revert_loop w' rest success (failures ++ [(job_no ++ ": " ++ result)%string])%list
  end.

Definition do_revert (w : World) (checked : list string) : World * nat * list string :=
  do_revert_loop w checked 0 [].

(** ** The offline report ([error_report.py]) *)

(** [len(r) > 5 and r[5] == action] *)
Definition has_action (action : string) (r : Row) : bool :=
  (5 <? List.length r) && String.eqb (col 5 r) action.

Record Report : Type := mkReport {
  total_entries : Z;
  n_moved : nat;
  n_skipped : nat;
  n_errors : nat;
  error_comments : list string;
  skip_reasons : list string
}.

(** The report over the rows of the move log.  Writing an error or a
    skipped row reads its column 6: a row of six columns raises
    [IndexError], here [None].  [skip_reasons] is the [set] of the
    comments of the skipped rows, listed without repetition (Python
    leaves the order of a set open). *)
Definition error_report (rows_ : list Row) : option Report :=
  let data := tl rows_ in
  let moved_ := filter (has_action "MOVED") data in
  let skipped_ := filter (has_action "SKIPPED") data in
  let errors_ := filter (has_action "ERROR") data in
  if existsb (fun r => List.length r <? 7) errors_
     || existsb (fun r => List.length r <? 7) skipped_
  then None
  else Some (mkReport (Z.of_nat (List.length rows_) - 1)
               (List.length moved_) (List.length skipped_) (List.length errors_)
               (map (col 6) errors_)
               (nodup string_dec (map (col 6) skipped_))).

(** ** Specification vocabulary for the job tree *)

(** [p] is [d] or lies below it. *)
Definition inside (d p : string) : bool :=
  String.eqb p d
  || match Os.strip_prefix (d ++ String Path.sep EmptyString) p with
     | Some _ => true
     | None => false
     end.

(** Nothing of the tree is at [d] or below it. *)
Definition free_subtree (t : FS) (d : string) : Prop :=
  forall p, In p (map fst (nodes t)) -> inside d p = false.

(** What one loop body of the ingest watcher, and so one cycle, may
    change: its own log, by appending, and its own counters, upwards,
    one row for each file counted as moved or as an error. *)
Definition ooc_upload_touches (w w' : World) : Prop :=
  move_log w' = move_log w
  /\ revert_log w' = revert_log w
  /\ revert_history_log w' = revert_history_log w
  /\ loose_file_log w' = loose_file_log w
  /\ job_move_stats w' = job_move_stats w
  /\ loose_file_stats w' = loose_file_stats w
  /\ can_write (ooc_upload_log w') = can_write (ooc_upload_log w)
  /\ moved (ooc_upload_stats w) <= moved (ooc_upload_stats w')
  /\ skipped (ooc_upload_stats w) <= skipped (ooc_upload_stats w')
  /\ errors (ooc_upload_stats w) <= errors (ooc_upload_stats w')
  /\ exists added,
       rows_of (ooc_upload_log w') = (rows_of (ooc_upload_log w) ++ added)%list
       /\ (can_write (ooc_upload_log w) = true ->
           List.length added + moved (ooc_upload_stats w) + errors (ooc_upload_stats w)
           = moved (ooc_upload_stats w') + errors (ooc_upload_stats w')).


(** A tree after renamings that leave alone every node whose path does
    not start with [prefix]: no node is lost or gained, no lock changed. *)
Definition tree_kept_outside (prefix : string) (t t' : FS) : Prop :=
  locked t' = locked t
  /\ List.length (nodes t') = List.length (nodes t)
  /\ forall p n, In (p, n) (nodes t) -> Os.strip_prefix prefix p = None ->
                 In (p, n) (nodes t').

(** The rows of a log with a given action, as the report counts them. *)
Definition count_action (action : string) (rs : list Row) : nat :=
  List.length (filter (has_action action) rs).

(** A row as [log_job_move] writes it. *)
Definition move_log_row (r : Row) : Prop :=
  List.length r = 7
  /\ (col 5 r = "MOVED" \/ col 5 r = "SKIPPED" \/ col 5 r = "ERROR").

(** What one loop body of the promotion watcher, and so one pass over the
    trigger files, may change besides the tree: the move log and the
    transaction log, by appending, and its own counters, upwards, one move
    log row for each trigger counted and one transaction for each move. *)
Definition job_move_touches (w w' : World) : Prop :=
  revert_history_log w' = revert_history_log w
  /\ ooc_upload_log w' = ooc_upload_log w
  /\ loose_file_log w' = loose_file_log w
  /\ ooc_upload_stats w' = ooc_upload_stats w
  /\ loose_file_stats w' = loose_file_stats w
  /\ can_write (move_log w') = can_write (move_log w)
  /\ can_write (revert_log w') = can_write (revert_log w)
  /\ moved (job_move_stats w) <= moved (job_move_stats w')
  /\ skipped (job_move_stats w) <= skipped (job_move_stats w')
  /\ errors (job_move_stats w) <= errors (job_move_stats w')
  /\ (exists added,
        rows_of (move_log w') = (rows_of (move_log w) ++ added)%list
        /\ Forall move_log_row added
        /\ (can_write (move_log w) = true ->
            count_action "MOVED" added + moved (job_move_stats w)
            = moved (job_move_stats w')
            /\ count_action "SKIPPED" added + skipped (job_move_stats w)
               = skipped (job_move_stats w')
            /\ count_action "ERROR" added + errors (job_move_stats w)
               = errors (job_move_stats w')))
  /\ (exists added,
        rows_of (revert_log w') = (rows_of (revert_log w) ++ added)%list
        /\ Forall (fun r => List.length r = 4) added
        /\ List.length added + moved (job_move_stats w) <= moved (job_move_stats w')
        /\ (can_write (revert_log w) = true ->
            List.length added + moved (job_move_stats w) = moved (job_move_stats w'))).

(** The three ways a loop body ends once it has a trigger to report. *)
Inductive Ending : Type := EndMoved | EndSkipped | EndError.

Definition ending_action (k : Ending) : string :=
  match k with EndMoved => "MOVED" | EndSkipped => "SKIPPED" | EndError => "ERROR" end.

Definition ending_bump (k : Ending) : Stats -> Stats :=
  match k with EndMoved => bump_moved | EndSkipped => bump_skipped | EndError => bump_errors end.


(** What one loop body of the loose file organizer, and so one cycle,
    may change besides the tree: its own log, by appending, and its own
    counters, upwards, one row for each file counted. *)
Definition loose_file_touches (w w' : World) : Prop :=
  move_log w' = move_log w
  /\ revert_log w' = revert_log w
  /\ revert_history_log w' = revert_history_log w
  /\ ooc_upload_log w' = ooc_upload_log w
  /\ ooc_upload_stats w' = ooc_upload_stats w
  /\ job_move_stats w' = job_move_stats w
  /\ can_write (loose_file_log w') = can_write (loose_file_log w)
  /\ moved (loose_file_stats w) <= moved (loose_file_stats w')
  /\ skipped (loose_file_stats w') = skipped (loose_file_stats w)
  /\ errors (loose_file_stats w) <= errors (loose_file_stats w')
  /\ exists added,
       rows_of (loose_file_log w') = (rows_of (loose_file_log w) ++ added)%list
       /\ Forall (fun r => List.length r = 6) added
       /\ (can_write (loose_file_log w) = true ->
           List.length added + moved (loose_file_stats w) + errors (loose_file_stats w)
           = moved (loose_file_stats w') + errors (loose_file_stats w')).

(** What the tree has gained when the directory is there after a
    [makedirs]. *)
Definition made_dirs (d : string) (t t' : FS) : Prop :=
  locked t' = locked t
  /\ (forall q, Os.isdir t q = true -> Os.isdir t' q = true)
  /\ (forall q, Os.exists_ t q = true -> Os.exists_ t' q = true)
  /\ (forall p n, In (p, n) (nodes t) -> In (p, n) (nodes t'))
  /\ (Os.is_root d = false ->
      Os.isdir t' d = true
      /\ (Os.is_root (Path.dirname d) || Os.exists_ t' (Path.dirname d)) = true).

(** The folder the ingest watcher settles on for a job number: the one
    named after it when something is at that path, else the first
    directory listed in the source base with the number in its name. *)
Definition ooc_job_folder (t : FS) (job_no : string) (found : option string) : Prop :=
  (Os.exists_ t (Path.join SOURCE_BASE job_no) = true
   /\ found = Some (Path.join SOURCE_BASE job_no))
  \/ (Os.exists_ t (Path.join SOURCE_BASE job_no) = false
      /\ exists folders,
           Os.listdir t SOURCE_BASE = Ok folders
           /\ found = first_matching_dir t SOURCE_BASE job_no folders).

(** * Properties *)

(** ** Strings *)

Section StringFacts.

Lemma startswith_spec (p s : string) :
  startswith p s = true <-> has_prefix p s.
Proof.
  unfold has_prefix. revert s.
  induction p as [|a p IH]; intros s; simpl.
  - split; [intros _; now exists s | reflexivity].
  - destruct s as [|b s]; simpl.
    + split; [discriminate | intros [r Hr]; discriminate].
    + rewrite andb_true_iff, Ascii.eqb_eq, IH. split.
      * intros [-> [r ->]]. now exists r.
      * intros [r Hr]. injection Hr as -> ->. split; [reflexivity | now exists r].
Qed.

Lemma append_length (a b : string) :
  String.length (a ++ b) = String.length a + String.length b.
Proof. induction a; simpl; congruence. Qed.

Lemma append_empty_r (a : string) : a ++ EmptyString = a.
Proof. induction a; simpl; congruence. Qed.

Lemma append_assoc (a b c : string) : (a ++ b) ++ c = a ++ (b ++ c).
Proof. induction a; simpl; congruence. Qed.

Lemma append_cancel_l (a b c : string) : a ++ b = a ++ c -> b = c.
Proof. induction a; simpl; intros H; [assumption | injection H; auto]. Qed.

Lemma append_cancel_r (a b c : string) : a ++ c = b ++ c -> a = b.
Proof.
  revert b. induction a as [|x a IH]; intros [|y b] H; simpl in H.
  - reflexivity.
  - apply (f_equal String.length) in H. simpl in H. rewrite append_length in H. lia.
  - apply (f_equal String.length) in H. simpl in H. rewrite append_length in H. lia.
  - injection H as -> H. f_equal. now apply IH.
Qed.

Lemma substring_drop_append (a b : string) :
  substring (String.length a) (String.length b) (a ++ b) = b.
Proof.
  induction a as [|x a IH]; simpl.
  - induction b as [|y b IHb]; simpl; [reflexivity | now rewrite IHb].
  - exact IH.
Qed.

Lemma substring_split (n : nat) (s : string) :
  n <= String.length s ->
  s = substring 0 n s ++ substring n (String.length s - n) s.
Proof.
  revert s. induction n as [|n IH]; intros s Hn.
  - simpl. rewrite Nat.sub_0_r.
    assert (E : forall t, substring 0 (String.length t) t = t)
      by (induction t as [|y t IHt]; simpl; [reflexivity | now rewrite IHt]).
    destruct s; simpl; [reflexivity | now rewrite E].
  - destruct s as [|x s]; simpl in *; [lia |].
    f_equal. apply IH. lia.
Qed.

Lemma endswith_spec (p s : string) :
  endswith p s = true <-> has_suffix p s.
Proof.
  unfold endswith, has_suffix. rewrite andb_true_iff, Nat.leb_le, String.eqb_eq. split.
  - intros [Hle Hsub].
    exists (substring 0 (String.length s - String.length p) s).
    rewrite (substring_split (String.length s - String.length p) s) at 1 by lia.
    f_equal. rewrite <- Hsub at 3. f_equal. lia.
  - intros [stem ->]. rewrite append_length. split; [lia |].
    replace (String.length stem + String.length p - String.length p)
      with (String.length stem) by lia.
    apply substring_drop_append.
Qed.

Lemma mem_In (p : string) (l : list string) : Os.mem p l = true <-> In p l.
Proof.
  unfold Os.mem. rewrite existsb_exists. split.
  - intros [x [Hx Heq]]. apply String.eqb_eq in Heq. now subst.
  - intros H. exists p. split; [assumption | apply String.eqb_refl].
Qed.

Lemma str_inj (n m : nat) : str n = str m -> n = m.
Proof.
  unfold str. intros H. apply Unsigned.to_uint_inj.
  assert (E : Some (Nat.to_uint n) = Some (Nat.to_uint m)).
  { rewrite <- (NilEmpty.usu (Nat.to_uint n)), <- (NilEmpty.usu (Nat.to_uint m)).
    now rewrite H. }
  now injection E.
Qed.

End StringFacts.

(** ** Trigger documents *)

(** C7. [is_trigger_file] holds exactly when the upper-cased filename has one of the
    literal trigger keywords as a prefix; it holds for
    OUT_OF_CHARGE_IR_12345.pdf and fails for
    INBOUND_OOC_OUT_OF_CHARGE_IR_12345.pdf, which only contains one. *)
Theorem is_trigger_file_prefix :
  (forall filename,
      is_trigger_file filename = true
      <-> exists k, In k TRIGGER_KEYWORDS /\ has_prefix k (upper filename))
  /\ is_trigger_file "OUT_OF_CHARGE_IR_12345.pdf" = true
  /\ is_trigger_file "INBOUND_OOC_OUT_OF_CHARGE_IR_12345.pdf" = false
  /\ contains "OUT_OF_CHARGE_IR_" (upper "INBOUND_OOC_OUT_OF_CHARGE_IR_12345.pdf") = true.
Proof.
  split; [| repeat split; reflexivity].
  intros filename. unfold is_trigger_file. rewrite existsb_exists.
  split; intros [k [Hk Hp]]; exists k; (split; [assumption |]);
    now apply startswith_spec.
Qed.

(** ** Unique destination paths *)

Section UniqueFilename.

Variable tree : FS.
Variables base ext : string.

Let candidate (n : nat) : string := base ++ "_" ++ str n ++ ext.

Lemma candidate_inj (n m : nat) : candidate n = candidate m -> n = m.
Proof.
  unfold candidate. intros H.
  apply append_cancel_l in H. apply append_cancel_l in H.
  apply append_cancel_r in H. now apply str_inj.
Qed.

Lemma exists_In (p : string) :
  Os.exists_ tree p = true <-> In p (map fst (nodes tree)).
Proof. apply mem_In. Qed.

(** Candidates that all exist are no more numerous than the nodes. *)
Lemma candidates_bounded (c k : nat) :
  (forall i, c <= i < c + k -> Os.exists_ tree (candidate i) = true) ->
  k <= List.length (nodes tree).
Proof.
  intros Hall.
  enough (H : List.length (map candidate (seq c k))
              <= List.length (map fst (nodes tree)))
    by (now rewrite !length_map, length_seq in H).
  apply NoDup_incl_length.
  - apply Injective_map_NoDup; [exact candidate_inj | apply seq_NoDup].
  - intros p Hp. apply in_map_iff in Hp as [i [<- Hi]].
    apply in_seq in Hi. apply exists_In, Hall. lia.
Qed.

Lemma unique_loop_S (fuel c : nat) :
  unique_loop tree base ext (S fuel) c
  = if negb (Os.exists_ tree (candidate c)) then Some (candidate c)
    else unique_loop tree base ext fuel (c + 1).
Proof. reflexivity. Qed.

Lemma unique_loop_first_free (k fuel c : nat) :
  (forall i, c <= i < c + k -> Os.exists_ tree (candidate i) = true) ->
  Os.exists_ tree (candidate (c + k)) = false ->
  k < fuel ->
  unique_loop tree base ext fuel c = Some (candidate (c + k)).
Proof.
  revert fuel c. induction k as [|k IH]; intros fuel c Hall Hfree Hfuel.
  - destruct fuel as [|fuel]; [lia |]. rewrite unique_loop_S.
    rewrite Nat.add_0_r in *. now rewrite Hfree.
  - destruct fuel as [|fuel]; [lia |]. rewrite unique_loop_S.
    rewrite (Hall c) by lia. cbn [negb].
    replace (c + S k) with ((c + 1) + k) in * by lia.
    apply IH; [| assumption | lia].
    intros i Hi. apply Hall. lia.
Qed.

Lemma unique_loop_free (fuel c : nat) (r : string) :
  unique_loop tree base ext fuel c = Some r -> Os.exists_ tree r = false.
Proof.
  revert c. induction fuel as [|fuel IH]; intros c; [discriminate |].
  rewrite unique_loop_S.
  destruct (Os.exists_ tree (candidate c)) eqn:E; cbn [negb].
  - apply IH.
  - now intros [= <-].
Qed.

Lemma unique_loop_exhausted (fuel c : nat) :
  unique_loop tree base ext fuel c = None ->
  forall i, c <= i < c + fuel -> Os.exists_ tree (candidate i) = true.
Proof.
  revert c. induction fuel as [|fuel IH]; intros c H i Hi; [lia |].
  rewrite unique_loop_S in H.
  destruct (Os.exists_ tree (candidate c)) eqn:E; cbn [negb] in H; [| discriminate].
  destruct (Nat.eq_dec i c) as [-> | Hne]; [assumption |].
  apply (IH (c + 1)); [assumption | lia].
Qed.

(** The loop of [unique_filename] ends within its budget. *)
Lemma unique_loop_total :
  exists r, unique_loop tree base ext (S (List.length (nodes tree))) 1 = Some r.
Proof.
  destruct (unique_loop tree base ext (S (List.length (nodes tree))) 1) as [r|] eqn:E.
  - now exists r.
  - pose proof (candidates_bounded 1 (S (List.length (nodes tree)))
                  (unique_loop_exhausted _ _ E)). lia.
Qed.

End UniqueFilename.

Lemma unique_filename_total (tree : FS) (p : string) :
  exists r, unique_filename tree p = Some r /\ Os.exists_ tree r = false.
Proof.
  unfold unique_filename.
  destruct (Os.exists_ tree p) eqn:E; simpl.
  - destruct (Path.splitext p) as [base ext].
    destruct (unique_loop_total tree base ext) as [r Hr].
    exists r. split; [assumption |]. eapply unique_loop_free; eassumption.
  - now exists p.
Qed.

(** C8. [unique_filename] returns a free path unchanged; when the path and its
    counter variants _1 .. _(N-1) exist and the _N variant does not, it
    returns the _N variant; and what it returns never exists in the tree. *)
Theorem unique_filename_first_free (tree : FS) (p : string) :
  (Os.exists_ tree p = false -> unique_filename tree p = Some p)
  /\ (forall N, 1 <= N ->
        Os.exists_ tree p = true ->
        (forall i, 1 <= i < N -> Os.exists_ tree (counter_variant p i) = true) ->
        Os.exists_ tree (counter_variant p N) = false ->
        unique_filename tree p = Some (counter_variant p N))
  /\ (exists r, unique_filename tree p = Some r /\ Os.exists_ tree r = false).
Proof.
  split; [| split].
  - intros H. unfold unique_filename. now rewrite H.
  - intros N HN Hp Hall Hfree. unfold unique_filename, counter_variant in *.
    rewrite Hp. cbn [negb]. destruct (Path.splitext p) as [base ext].
    replace N with (1 + (N - 1)) in Hfree |- * by lia.
    assert (Hall' : forall i, 1 <= i < 1 + (N - 1) ->
                      Os.exists_ tree (base ++ "_" ++ str i ++ ext) = true)
      by (intros i Hi; apply Hall; lia).
    apply unique_loop_first_free; [assumption | assumption |].
    pose proof (candidates_bounded tree base ext 1 (N - 1) Hall'). lia.
  - apply unique_filename_total.
Qed.

(** ** Ingest watcher *)

(** Projections of an updated world. *)
Ltac conj_split := repeat match goal with |- _ /\ _ => split end.

Ltac world_simpl :=
  cbn [fs move_log revert_log revert_history_log ooc_upload_log loose_file_log
       ooc_upload_stats job_move_stats loose_file_stats now_log now_compact
       set_fs set_move_log set_revert_log set_revert_history_log
       set_ooc_upload_log set_loose_file_log set_ooc_upload_stats
       set_job_move_stats set_loose_file_stats
       moved skipped errors bump_moved bump_skipped bump_errors
       rows can_read can_write rows_of] in *.

(** C10. An inbox entry whose lower-cased name does not end in .pdf leaves the
    world as it was: nothing is moved, logged or counted for it. *)
Theorem ooc_upload_ignores_non_pdf (w : World) (filename : string) :
  ~ has_suffix ".pdf" (lower filename) ->
  ooc_upload_body w filename = Next w.
Proof.
  intros Hext. unfold ooc_upload_body.
  destruct (Os.isdir (fs w) (Path.join UPLOAD_OOC filename)); [reflexivity |].
  destruct (endswith ".pdf" (lower filename)) eqn:E; [| reflexivity].
  apply endswith_spec in E. contradiction.
Qed.

Lemma ooc_upload_ignores_non_pdf_witness :
  ooc_upload_body Scenario.world "IR_00451.txt" = Next Scenario.world.
Proof.
  apply ooc_upload_ignores_non_pdf.
  intros H. apply endswith_spec in H. vm_compute in H. discriminate.
Defined.

(** C5, as stated, fails: a PDF without an IR key is counted as skipped and
    the ingest log, although writable, receives no row. *)
Lemma ooc_upload_skip_not_logged :
  exists w',
    ooc_upload_body Scenario.world "notes.pdf" = Next w'
    /\ can_write (ooc_upload_log Scenario.world) = true
    /\ skipped (ooc_upload_stats w') = skipped (ooc_upload_stats Scenario.world) + 1
    /\ ooc_upload_log w' = ooc_upload_log Scenario.world.
Proof. eexists. repeat split. Qed.

(** ** Reconciliation watcher *)

(** C9. A stray file with no job key in its name, or whose key matches no
    sibling folder of its company folder, leaves the world as it was: the
    file stays, no row is written, no counter moves. *)
Theorem loose_file_unmatched_left_alone (w : World) (company_folder item : string) :
  (extract_job_number item = None
   \/ exists job_number,
        extract_job_number item = Some job_number
        /\ find_matching_job_folder (fs w) (Path.join BILLING_BASE company_folder)
             job_number = None) ->
  loose_file_body w company_folder item = w.
Proof.
  intros H. unfold loose_file_body.
  destruct (Os.isdir _ _); [reflexivity |].
  destruct (negb _); [reflexivity |].
  destruct H as [-> | [job_number [-> ->]]]; reflexivity.
Qed.

Lemma loose_file_unmatched_left_alone_witness :
  loose_file_body Scenario.world "BMW INDIA PVT LTD" "Packing_List_IR00999.docx"
  = Scenario.world
  /\ loose_file_body Scenario.world "BMW INDIA PVT LTD" "summary.xlsx" = Scenario.world.
Proof.
  split.
  - apply loose_file_unmatched_left_alone. right. exists "IR00999".
    split; reflexivity.
  - apply loose_file_unmatched_left_alone. left. reflexivity.
Defined.

(** ** Undo manager *)

Section RevertHistory.

Variable w : World.
Variables job_no reverted_from reverted_to status : string.

Let w' := log_revert_history w job_no reverted_from reverted_to status.

(** [log_revert_history] touches the history ledger only. *)
Lemma log_revert_history_frame :
  fs w' = fs w
  /\ revert_log w' = revert_log w
  /\ move_log w' = move_log w
  /\ ooc_upload_log w' = ooc_upload_log w
  /\ loose_file_log w' = loose_file_log w
  /\ ooc_upload_stats w' = ooc_upload_stats w
  /\ job_move_stats w' = job_move_stats w
  /\ loose_file_stats w' = loose_file_stats w.
Proof.
  subst w'. unfold log_revert_history, csv_create, csv_append.
  destruct (rows (revert_history_log w)); world_simpl;
    destruct (can_write (revert_history_log w)); world_simpl;
    repeat split; reflexivity.
Qed.

(** What it appends when the history ledger can be written: the header
    first if the file is new, then the record. *)
Lemma log_revert_history_appends :
  can_write (revert_history_log w) = true ->
  rows (revert_history_log w')
  = Some ((match rows (revert_history_log w) with
           | Some rs => rs
           | None => [["Timestamp"; "Job"; "Reverted From"; "Reverted To"; "Status"]]
           end)
          ++ [[now_log w; job_no; reverted_from; reverted_to; status]])%list.
Proof.
  intros Hw. subst w'. unfold log_revert_history, csv_create, csv_append.
  destruct (rows (revert_history_log w)) eqn:E; world_simpl;
    rewrite Hw; world_simpl; unfold rows_of; try rewrite E; reflexivity.
Qed.

End RevertHistory.

Lemma revert_handler_frame (w : World) (job_no : string) (e : Exn) :
  fs (fst (revert_handler w job_no e)) = fs w
  /\ revert_log (fst (revert_handler w job_no e)) = revert_log w.
Proof.
  destruct e as [m|m]; cbn [revert_handler fst];
    split; apply (log_revert_history_frame w).
Qed.

(** C4. [revert_job] leaves the transaction log exactly as it found it, whatever
    the ledger holds and however the revert ends; the watchers' logs and
    counters are untouched as well. *)
Theorem revert_job_preserves_ledger (w : World) (job_no : string) :
  let w' := fst (revert_job w job_no) in
  revert_log w' = revert_log w
  /\ move_log w' = move_log w
  /\ ooc_upload_log w' = ooc_upload_log w
  /\ loose_file_log w' = loose_file_log w
  /\ ooc_upload_stats w' = ooc_upload_stats w
  /\ job_move_stats w' = job_move_stats w
  /\ loose_file_stats w' = loose_file_stats w.
Proof.
  assert (Hh : forall w0 a b c d,
             let w1 := log_revert_history w0 a b c d in
             revert_log w1 = revert_log w0
             /\ move_log w1 = move_log w0
             /\ ooc_upload_log w1 = ooc_upload_log w0
             /\ loose_file_log w1 = loose_file_log w0
             /\ ooc_upload_stats w1 = ooc_upload_stats w0
             /\ job_move_stats w1 = job_move_stats w0
             /\ loose_file_stats w1 = loose_file_stats w0).
  { intros w0 a b c d w1. subst w1.
    pose proof (log_revert_history_frame w0 a b c d) as H. cbv zeta in H. tauto. }
  assert (Hx : forall e,
             let w1 := fst (revert_handler w job_no e) in
             revert_log w1 = revert_log w
             /\ move_log w1 = move_log w
             /\ ooc_upload_log w1 = ooc_upload_log w
             /\ loose_file_log w1 = loose_file_log w
             /\ ooc_upload_stats w1 = ooc_upload_stats w
             /\ job_move_stats w1 = job_move_stats w
             /\ loose_file_stats w1 = loose_file_stats w).
  { intros [m|m]; cbn [revert_handler fst]; apply Hh. }
  cbv zeta. unfold revert_job.
  destruct (rows (revert_log w)) as [rs|]; [| repeat split].
  destruct (csv_read (revert_log w)) as [all_rows|e]; [| apply Hx].
  destruct all_rows as [|header body]; [repeat split |].
  destruct (last_match job_no body) as [last|]; [| repeat split].
  destruct (negb (Os.exists_ (fs w) (col 2 last))); [apply Hh |].
  destruct (negb (Os.exists_ (fs w) (Path.dirname (col 1 last)))); [apply Hh |].
  destruct (Os.shutil_move _ _ _) as [fs'|e]; [| apply Hx].
  cbn [fst]. apply (Hh (set_fs w fs')).
Qed.

Section LastMatch.

Variable job_no : string.

Lemma last_match_cons (r : Row) (rs : list Row) :
  last_match job_no (r :: rs)
  = match last_match job_no rs with
    | Some l => Some l
    | None => if row_matches job_no r then Some r else None
    end.
Proof.
  unfold last_match. cbn [filter].
  destruct (row_matches job_no r); cbn [rev];
    destruct (rev (filter (row_matches job_no) rs)); reflexivity.
Qed.

(** The selected row is the last one of the ledger, in file order, that
    matches. *)
Lemma last_match_decompose (rs : list Row) (last : Row) :
  last_match job_no rs = Some last ->
  exists before after,
    rs = (before ++ last :: after)%list
    /\ row_matches job_no last = true
    /\ (forall r, In r after -> row_matches job_no r = false).
Proof.
  induction rs as [|r rs IH]; [discriminate |].
  rewrite last_match_cons.
  destruct (last_match job_no rs) as [l|] eqn:E.
  - intros [= ->]. destruct (IH eq_refl) as [before [after [-> [Hm Hafter]]]].
    exists (r :: before), after. repeat split; assumption.
  - destruct (row_matches job_no r) eqn:Hr; [| discriminate].
    intros [= ->]. exists [], rs. repeat split; [assumption |].
    clear IH. revert E. induction rs as [|x xs IHxs]; [intros _ y [] |].
    rewrite last_match_cons.
    destruct (last_match job_no xs); [discriminate |].
    destruct (row_matches job_no x) eqn:Hx; [discriminate |].
    intros _ y [<- | Hy]; [assumption | now apply IHxs].
Qed.

Lemma last_match_none (rs : list Row) :
  last_match job_no rs = None <-> (forall r, In r rs -> row_matches job_no r = false).
Proof.
  induction rs as [|r rs IH]; [split; [intros _ x [] | reflexivity] |].
  rewrite last_match_cons. split.
  - destruct (last_match job_no rs); [discriminate |].
    destruct (row_matches job_no r) eqn:Hr; [discriminate |].
    intros _ x [<- | Hx]; [assumption | now apply IH].
  - intros H. rewrite (proj2 IH (fun x Hx => H x (or_intror Hx))).
    now rewrite (H r (or_introl eq_refl)).
Qed.

(** The lookup compares the first column with the requested job by
    exact equality. *)
Lemma row_matches_exact (r : Row) :
  row_matches job_no r = true <-> 3 <= List.length r /\ col 0 r = job_no.
Proof.
  unfold row_matches, col. destruct r as [|c0 r]; cbn [nth List.length].
  - split; [discriminate | intros [H _]; lia].
  - rewrite andb_true_iff, Nat.leb_le, String.eqb_eq. reflexivity.
Qed.

End LastMatch.

Section RevertJob.

Variable w : World.
Variable job_no : string.
Variable header : Row.
Variable body : list Row.

Hypothesis ledger_rows : rows (revert_log w) = Some (header :: body).
Hypothesis ledger_readable : can_read (revert_log w) = true.

(** [revert_job] past the reading of the ledger. *)
Lemma revert_job_after_read :
  revert_job w job_no
  = match last_match job_no body with
    | None => (w, "No revert entry found for " ++ job_no ++ ".")
    | Some last =>
        let original := col 1 last in
        let moved_ := col 2 last in
        if negb (Os.exists_ (fs w) moved_) then
          (log_revert_history w job_no moved_ original
             "FAILED: Folder not at moved location",
           "Folder no longer exists at: " ++ moved_)
        else
          let original_parent := Path.dirname original in
          if negb (Os.exists_ (fs w) original_parent) then
            (log_revert_history w job_no moved_ original
               "FAILED: Original directory missing",
             "Original directory doesn't exist: " ++ original_parent)
          else
            let final_destination :=
              if Os.exists_ (fs w) original
              then original ++ "_" ++ now_compact w
              else original in
            match Os.shutil_move (fs w) moved_ final_destination with
            | Raise e => revert_handler w job_no e
            | Ok fs' =>
                (log_revert_history (set_fs w fs') job_no moved_ final_destination
                   "SUCCESS",
                 "Reverted successfully to " ++ final_destination)
            end
    end.
Proof.
  unfold revert_job, csv_read. rewrite ledger_rows, ledger_readable. reflexivity.
Qed.

(** C2. When the ledger holds a row for the job, [revert_job] works from the
    last such row in file order, whatever the timestamps say: the folder is
    moved from that row's moved path to its original path (to the
    timestamp-suffixed original path when that one is occupied). *)
Theorem revert_job_selects_last_appended :
  (exists r, In r body /\ row_matches job_no r = true) ->
  exists before last after,
    body = (before ++ last :: after)%list
    /\ row_matches job_no last = true
    /\ (forall r, In r after -> row_matches job_no r = false)
    /\ let original := col 1 last in
       let moved_ := col 2 last in
       let final_destination :=
         if Os.exists_ (fs w) original then original ++ "_" ++ now_compact w
         else original in
       fs (fst (revert_job w job_no))
       = if Os.exists_ (fs w) moved_ && Os.exists_ (fs w) (Path.dirname original)
         then match Os.shutil_move (fs w) moved_ final_destination with
              | Ok fs' => fs'
              | Raise _ => fs w
              end
         else fs w.
Proof.
  intros [r [Hin Hr]].
  destruct (last_match job_no body) as [last|] eqn:E.
  2:{ rewrite (proj1 (last_match_none job_no body) E r Hin) in Hr. discriminate. }
  destruct (last_match_decompose job_no body last E) as [before [after [Hb [Hm Ha]]]].
  exists before, last, after. repeat split; try assumption.
  cbv zeta. rewrite revert_job_after_read, E. cbv zeta.
  destruct (Os.exists_ (fs w) (col 2 last)); cbn [negb andb fst].
  - destruct (Os.exists_ (fs w) (Path.dirname (col 1 last))); cbn [negb fst].
    + destruct (Os.shutil_move _ _ _) as [fs'|e]; cbn [fst].
      * apply (log_revert_history_frame (set_fs w fs')).
      * apply revert_handler_frame.
    + apply (log_revert_history_frame w).
  - apply (log_revert_history_frame w).
Qed.

(** C3 (amended). A job without a row in the ledger is refused with the world
    untouched: nothing is moved and no RevertRecord is written. A job
    whose last row names a moved path that no longer exists is refused
    with the tree untouched and, the history ledger being writable, one
    FAILED RevertRecord appended. *)
Theorem revert_job_nothing_to_revert :
  ((forall r, In r body -> row_matches job_no r = false) ->
     revert_job w job_no = (w, "No revert entry found for " ++ job_no ++ "."))
  /\ (forall last,
        last_match job_no body = Some last ->
        Os.exists_ (fs w) (col 2 last) = false ->
        let w' := fst (revert_job w job_no) in
        fs w' = fs w
        /\ (can_write (revert_history_log w) = true ->
            rows (revert_history_log w')
            = Some ((match rows (revert_history_log w) with
                     | Some rs => rs
                     | None =>
                         [["Timestamp"; "Job"; "Reverted From"; "Reverted To"; "Status"]]
                     end)
                    ++ [[now_log w; job_no; col 2 last; col 1 last;
                         "FAILED: Folder not at moved location"]])%list)).
Proof.
  split.
  - intros Hnone. rewrite revert_job_after_read.
    now rewrite (proj2 (last_match_none job_no body) Hnone).
  - intros last Hlast Hgone. cbv zeta.
    rewrite revert_job_after_read, Hlast. cbv zeta. rewrite Hgone.
    cbn [negb fst]. split.
    + apply (log_revert_history_frame w).
    + apply log_revert_history_appends.
Qed.

End RevertJob.

Lemma revert_job_selects_last_appended_witness :
  exists before last after,
    [ ["IR00300 - BMW"; Path.join SOURCE_BASE "IR00300 - BMW";
       Path.join Scenario.bmw "IR00300 - BMW_old"; "2026-01-14 09:00:00"];
      ["IR00777"; Path.join SOURCE_BASE "IR00777";
       Path.join Scenario.bmw "IR00777"; "2026-01-14 09:30:00"];
      ["IR00300 - BMW"; Path.join SOURCE_BASE "IR00300 - BMW";
       Path.join Scenario.bmw "IR00300 - BMW"; "2026-01-13 08:00:00"] ]
    = (before ++ last :: after)%list
    /\ row_matches "IR00300 - BMW" last = true
    /\ (forall r, In r after -> row_matches "IR00300 - BMW" r = false)
    /\ let original := col 1 last in
       let moved_ := col 2 last in
       let final_destination :=
         if Os.exists_ (fs Scenario.world_300) original
         then original ++ "_" ++ now_compact Scenario.world_300
         else original in
       fs (fst (revert_job Scenario.world_300 "IR00300 - BMW"))
       = if Os.exists_ (fs Scenario.world_300) moved_
            && Os.exists_ (fs Scenario.world_300) (Path.dirname original)
         then match Os.shutil_move (fs Scenario.world_300) moved_ final_destination with
              | Ok fs' => fs'
              | Raise _ => fs Scenario.world_300
              end
         else fs Scenario.world_300.
Proof.
  apply (revert_job_selects_last_appended Scenario.world_300 "IR00300 - BMW"
           Scenario.revert_header).
  - reflexivity.
  - reflexivity.
  - eexists. split; [left; reflexivity | reflexivity].
Defined.

(** C3, as stated, fails: reverting a job the ledger has no row for returns
    the refusal and leaves the writable history ledger without any record. *)
Lemma revert_job_no_entry_unrecorded :
  revert_job Scenario.world "IR00451"
  = (Scenario.world, "No revert entry found for IR00451.")
  /\ can_write (revert_history_log Scenario.world) = true
  /\ rows (revert_history_log (fst (revert_job Scenario.world "IR00451"))) = None.
Proof. repeat split. Qed.

Lemma revert_job_nothing_to_revert_witness :
  revert_job Scenario.world_300 "IR00999"
  = (Scenario.world_300, "No revert entry found for IR00999.")
  /\ (let w' := fst (revert_job Scenario.world_300 "IR00777") in
      fs w' = fs Scenario.world_300
      /\ rows (revert_history_log w')
         = Some [ ["Timestamp"; "Job"; "Reverted From"; "Reverted To"; "Status"];
                  ["2026-01-15 10:30:00"; "IR00777"; Path.join Scenario.bmw "IR00777";
                   Path.join SOURCE_BASE "IR00777";
                   "FAILED: Folder not at moved location"] ]).
Proof.
  split.
  - apply (revert_job_nothing_to_revert Scenario.world_300 "IR00999"
             Scenario.revert_header _ eq_refl eq_refl).
    intros r [<- | [<- | [<- | []]]]; reflexivity.
  - destruct (proj2 (revert_job_nothing_to_revert Scenario.world_300 "IR00777"
                       Scenario.revert_header _ eq_refl eq_refl)
                _ eq_refl eq_refl) as [Hfs Hrows].
    split; [exact Hfs | exact (Hrows eq_refl)].
Defined.

(** ** Promotion watcher *)

(** Every key [find_importer] can return has a non-empty billing folder,
    and the empty text has no importer. *)
Lemma importer_map_total (text importer : string) :
  find_importer text = Some importer ->
  text <> EmptyString
  /\ exists billing_folder,
       importer_get IMPORTER_MAP importer = Some billing_folder
       /\ billing_folder <> EmptyString.
Proof.
  intros H. split.
  - intros ->. vm_compute in H. discriminate.
  - revert H. unfold find_importer, IMPORTER_MAP. cbn [find_importer_in].
    repeat match goal with
           | |- context [if contains ?k text then _ else _] =>
               destruct (contains k text);
               [intros [= <-]; eexists; split; [vm_compute; reflexivity | discriminate] |]
           end.
    discriminate.
Qed.

Section MakeDirs.

Lemma isdir_app (ns : list (string * Node)) (ls : list string) (d p : string) :
  Os.isdir (mkFS ns ls) p = true -> Os.isdir (mkFS (ns ++ [(d, Dir)]) ls) p = true.
Proof. unfold Os.isdir. cbn [nodes]. rewrite existsb_app. now intros ->. Qed.

Lemma exists_app (ns : list (string * Node)) (ls : list string) (d p : string) :
  Os.exists_ (mkFS ns ls) p = true -> Os.exists_ (mkFS (ns ++ [(d, Dir)]) ls) p = true.
Proof.
  unfold Os.exists_. cbn [nodes]. rewrite !mem_In, map_app, in_app_iff. auto.
Qed.

Lemma exists_nodes (t : FS) (p : string) :
  Os.exists_ t p = true <-> In p (map fst (nodes t)).
Proof. apply mem_In. Qed.

Lemma isdir_exists (t : FS) (p : string) : Os.isdir t p = true -> Os.exists_ t p = true.
Proof.
  unfold Os.isdir. rewrite existsb_exists. intros [[q n] [Hin Hq]].
  apply andb_true_iff in Hq as [Hq _]. apply String.eqb_eq in Hq. cbn in Hq. subst q.
  apply exists_nodes. apply in_map_iff. now exists (p, n).
Qed.

(** What a [mkdir] that returns has done. *)
Lemma mkdir_spec (t t' : FS) (d : string) :
  Os.mkdir t d = Ok t' ->
  t' = mkFS (nodes t ++ [(d, Dir)]) (locked t)
  /\ Os.exists_ t d = false
  /\ (Os.is_root (Path.dirname d) || Os.isdir t (Path.dirname d)) = true.
Proof.
  unfold Os.mkdir.
  destruct (Os.exists_ t d); [discriminate |].
  destruct (Os.is_root (Path.dirname d) || Os.isdir t (Path.dirname d));
    [| discriminate].
  cbn [negb]. destruct (Os.mem d (locked t)); [discriminate |].
  intros [= <-]. auto.
Qed.

Lemma makedirs_from_spec (fuel : nat) (t t' : FS) (d : string) :
  Os.makedirs_from fuel t d = Ok t' -> made_dirs d t t'.
Proof.
  revert t t' d. induction fuel as [|fuel IH]; intros t t' d; cbn [Os.makedirs_from].
  - discriminate.
  - destruct (Os.is_root d) eqn:Er.
    + intros [= <-]. unfold made_dirs. conj_split; auto. congruence.
    + assert (Habove :
        forall t1,
          locked t1 = locked t ->
          (forall q, Os.isdir t q = true -> Os.isdir t1 q = true) ->
          (forall q, Os.exists_ t q = true -> Os.exists_ t1 q = true) ->
          (forall p n, In (p, n) (nodes t) -> In (p, n) (nodes t1)) ->
          (Os.is_root (Path.dirname d) || Os.exists_ t1 (Path.dirname d)) = true ->
          match Os.mkdir t1 d with
          | Ok fs2 => Ok fs2
          | Raise e => if Os.isdir t1 d then Ok t1 else Raise e
          end = Ok t' ->
          made_dirs d t t').
      { intros t1 L D X N P.
        destruct (Os.mkdir t1 d) as [fs2|e] eqn:Em.
        - intros [= <-]. apply mkdir_spec in Em as (-> & _ & _).
          destruct t1 as [ns ls]. cbn [nodes locked] in *.
          unfold made_dirs. cbn [locked nodes]. conj_split.
          + exact L.
          + intros q Hq. apply isdir_app. now apply D.
          + intros q Hq. apply exists_app. now apply X.
          + intros p n Hin. apply in_or_app. left. now apply N.
          + intros _. split.
            * unfold Os.isdir. cbn [nodes]. rewrite existsb_app. cbn.
              rewrite String.eqb_refl. apply orb_true_r.
            * apply orb_true_iff in P as [P | P]; [now rewrite P |].
              apply orb_true_iff. right. now apply exists_app.
        - destruct (Os.isdir t1 d) eqn:Ed; [| discriminate].
          intros [= <-]. unfold made_dirs. conj_split; auto. }
      destruct (Os.is_root (Path.dirname d) || Os.exists_ t (Path.dirname d)) eqn:Eh.
      * apply Habove; auto.
      * destruct (Os.makedirs_from fuel t (Path.dirname d)) as [fs1|e] eqn:Ea;
          [| discriminate].
        apply IH in Ea as (L & D & X & N & P).
        apply orb_false_iff in Eh as [Eh _].
        destruct (P Eh) as [P1 _].
        apply Habove; auto.
        apply orb_true_iff. right. now apply isdir_exists.
Qed.

Lemma makedirs_made (t t' : FS) (d : string) :
  Os.makedirs t d = Ok t' -> made_dirs d t t'.
Proof. apply makedirs_from_spec. Qed.

Lemma makedirs_keeps (t t1 : FS) (d p : string) :
  Os.makedirs t d = Ok t1 ->
  Os.exists_ t p = true -> Os.exists_ t1 p = true.
Proof. intros H. apply (makedirs_made _ _ _ H). Qed.

(** A directory that is there, below something that is there, is left
    as it is. *)
Lemma makedirs_again (t : FS) (d : string) :
  Os.isdir t d = true ->
  (Os.is_root (Path.dirname d) || Os.exists_ t (Path.dirname d)) = true ->
  Os.makedirs t d = Ok t.
Proof.
  intros Hd Hp. unfold Os.makedirs. cbn [Os.makedirs_from]. rewrite Hp.
  destruct (Os.is_root d); [reflexivity |].
  unfold Os.mkdir. rewrite (isdir_exists _ _ Hd), Hd. reflexivity.
Qed.

End MakeDirs.

Section Promotion.

Variable w : World.
Variable trigger_path : string.
Variables importer billing_folder : string.

Let job_path := Path.dirname trigger_path.
Let job := Path.basename job_path.
Let dest_parent := Path.join BILLING_BASE billing_folder.

(** The trigger document is one the loop body processes up to the move. *)
Hypothesis not_inbox : String.eqb (lower job) "upload_ooc" = false.
Hypothesis folder_present : Os.exists_ (fs w) job_path = true.
Hypothesis importer_found :
  find_importer (extract_text_from_pdf (fs w) trigger_path) = Some importer.
Hypothesis mapping_found : importer_get IMPORTER_MAP importer = Some billing_folder.

Lemma job_move_body_processed :
  job_move_body w trigger_path
  = match move_folder w job_path dest_parent with
    | Returned final_path w1 =>
        let w2 := log_job_move w1 job importer billing_folder
                    (Path.basename trigger_path) "MOVED" ("Moved to " ++ final_path) in
        set_job_move_stats w2 (bump_moved (job_move_stats w2))
    | Raised (PermissionError m) w1 =>
        let w2 := log_job_move w1 job importer billing_folder
                    (Path.basename trigger_path) "ERROR" ("Permission denied: " ++ m) in
        set_job_move_stats w2 (bump_errors (job_move_stats w2))
    | Raised (OSError m) w1 =>
        let w2 := log_job_move w1 job importer billing_folder
                    (Path.basename trigger_path) "ERROR" ("Move failed: " ++ m) in
        set_job_move_stats w2 (bump_errors (job_move_stats w2))
    end.
Proof.
  destruct (importer_map_total _ _ importer_found) as [Htext [b [Hb Hne]]].
  assert (b = billing_folder) by congruence. subst b.
  unfold job_move_body. fold job_path. fold job.
  rewrite not_inbox, folder_present. cbn [negb].
  destruct (String.eqb_spec (extract_text_from_pdf (fs w) trigger_path) EmptyString)
    as [E | _]; [contradiction |].
  rewrite importer_found, mapping_found.
  destruct (String.eqb_spec billing_folder EmptyString) as [E | _]; [contradiction |].
  reflexivity.
Qed.

Lemma log_job_move_frame (w0 : World) (a b c d e f : string) :
  fs (log_job_move w0 a b c d e f) = fs w0
  /\ revert_log (log_job_move w0 a b c d e f) = revert_log w0.
Proof.
  unfold log_job_move. destruct (csv_append _ _); split; reflexivity.
Qed.

(** C1 (amended). For a processed trigger document: when the destination
    parent is there or can be made and the folder move succeeds, the tree
    is the one the move gives and, the transaction log being writable,
    exactly one row (job, original path, final path, timestamp) is appended
    to it; when making the destination parent raises, or the move does,
    the job folder is still at its original path and the transaction log
    is as before. *)
Theorem promotion_paired_with_ledger :
  let w' := job_move_body w trigger_path in
  match Os.makedirs (fs w) dest_parent with
  | Raise _ =>
      revert_log w' = revert_log w /\ Os.exists_ (fs w') job_path = true
  | Ok fs1 =>
      let dest :=
        if Os.exists_ fs1 (Path.join dest_parent job)
        then Path.join dest_parent job ++ "_" ++ now_compact w
        else Path.join dest_parent job in
      match Os.shutil_move fs1 job_path dest with
      | Ok fs2 =>
          fs w' = fs2
          /\ (can_write (revert_log w) = true ->
              rows (revert_log w')
              = Some (rows_of (revert_log w) ++ [[job; job_path; dest; now_log w]])%list)
      | Raise _ =>
          revert_log w' = revert_log w /\ Os.exists_ (fs w') job_path = true
      end
  end.
Proof.
  cbv zeta. rewrite job_move_body_processed.
  unfold move_folder. fold job.
  destruct (Os.makedirs (fs w) dest_parent) as [fs1|e] eqn:Hmk.
  - world_simpl.
    assert (Hkeep : Os.exists_ fs1 job_path = true)
      by (eapply makedirs_keeps; eassumption).
    destruct (Os.shutil_move fs1 job_path _) as [fs2|e] eqn:Hmv.
    + world_simpl.
      match goal with
      | |- context [log_job_move ?x ?a ?b ?c ?d ?e ?f] =>
          destruct (log_job_move_frame x a b c d e f) as [Hf Hr]
      end.
      rewrite Hf, Hr. unfold log_revert, csv_append. world_simpl.
      split.
      * destruct (can_write (revert_log w)); reflexivity.
      * intros ->. reflexivity.
    + destruct e as [m|m]; world_simpl;
        match goal with
        | |- context [log_job_move ?x ?a ?b ?c ?d ?e ?f] =>
            destruct (log_job_move_frame x a b c d e f) as [Hf Hr]
        end;
        rewrite Hf, Hr; world_simpl; auto.
  - destruct e as [m|m]; world_simpl;
      match goal with
      | |- context [log_job_move ?x ?a ?b ?c ?d ?e ?f] =>
          destruct (log_job_move_frame x a b c d e f) as [Hf Hr]
      end;
      rewrite Hf, Hr; auto.
Qed.

End Promotion.

Lemma promotion_paired_with_ledger_witness :
  rows (revert_log (job_move_body Scenario.world Scenario.trigger_451))
  = Some [ Scenario.revert_header;
           ["IR00451"; Scenario.job_451; Path.join Scenario.bmw "IR00451";
            "2026-01-15 10:30:00"] ]
  /\ (revert_log (job_move_body Scenario.world_locked Scenario.trigger_451)
      = revert_log Scenario.world_locked
      /\ Os.exists_ (fs (job_move_body Scenario.world_locked Scenario.trigger_451))
           Scenario.job_451 = true)
  /\ (revert_log (job_move_body Scenario.world_company_file Scenario.trigger_451)
      = revert_log Scenario.world_company_file
      /\ Os.exists_ (fs (job_move_body Scenario.world_company_file Scenario.trigger_451))
           Scenario.job_451 = true).
Proof.
  pose proof (promotion_paired_with_ledger Scenario.world Scenario.trigger_451
                "BMW INDIA PRIVATE LIMITED" "BMW INDIA PVT LTD"
                eq_refl eq_refl eq_refl eq_refl) as Hmoved.
  pose proof (promotion_paired_with_ledger Scenario.world_locked Scenario.trigger_451
                "BMW INDIA PRIVATE LIMITED" "BMW INDIA PVT LTD"
                eq_refl eq_refl eq_refl eq_refl) as Hdenied.
  pose proof (promotion_paired_with_ledger Scenario.world_company_file
                Scenario.trigger_451
                "BMW INDIA PRIVATE LIMITED" "BMW INDIA PVT LTD"
                eq_refl eq_refl eq_refl eq_refl) as Hparent.
  vm_compute in Hmoved, Hdenied, Hparent. vm_compute.
  split; [exact (proj2 Hmoved eq_refl) | split; [exact Hdenied | exact Hparent]].
Defined.

(** C1, as stated, fails: with a transaction log that cannot be written the
    folder move succeeds and is counted, and no MoveTransaction is appended. *)
Lemma promotion_without_ledger_row :
  let w := Scenario.world_ledger_read_only in
  let w' := job_move_body w Scenario.trigger_451 in
  Os.shutil_move (fs w) Scenario.job_451 (Path.join Scenario.bmw "IR00451") = Ok (fs w')
  /\ Os.exists_ (fs w') (Path.join Scenario.bmw "IR00451") = true
  /\ Os.exists_ (fs w') Scenario.job_451 = false
  /\ moved (job_move_stats w') = moved (job_move_stats w) + 1
  /\ revert_log w' = revert_log w.
Proof. repeat split. Qed.

(** ** Job keys and letter case *)

Section KeyCase.

Lemma upper_char_idem (c : ascii) : upper_char (upper_char c) = upper_char c.
Proof. destruct c as [[] [] [] [] [] [] [] []]; reflexivity. Qed.

Lemma is_digit_upper (c : ascii) : is_digit (upper_char c) = is_digit c.
Proof. destruct c as [[] [] [] [] [] [] [] []]; reflexivity. Qed.

Lemma digit_upper (c : ascii) : is_digit c = true -> upper_char c = c.
Proof. destruct c as [[] [] [] [] [] [] [] []]; (reflexivity || discriminate). Qed.

Lemma is_key_sep_upper (c : ascii) : Regex.is_key_sep (upper_char c) = Regex.is_key_sep c.
Proof. destruct c as [[] [] [] [] [] [] [] []]; reflexivity. Qed.

Lemma take_digits_upper (n : nat) (s : string) :
  Regex.take_digits n (upper s) = Regex.take_digits n s.
Proof.
  revert s. induction n as [|n IH]; intros [|c s]; cbn [Regex.take_digits upper];
    try reflexivity.
  rewrite is_digit_upper. destruct (is_digit c) eqn:E; [| reflexivity].
  now rewrite IH, digit_upper.
Qed.

Lemma sep_digits_upper (lo hi : nat) (s : string) :
  Regex.sep_digits lo hi (upper s) = Regex.sep_digits lo hi s.
Proof.
  unfold Regex.sep_digits, Regex.digits_range. rewrite take_digits_upper.
  destruct s as [|c s]; cbn [upper]; [reflexivity |].
  now rewrite is_key_sep_upper, take_digits_upper.
Qed.

Lemma ir_pattern_at_upper (s : string) :
  Regex.ir_pattern_at (upper s) = Regex.ir_pattern_at s.
Proof.
  destruct s as [|a [|b rest]]; cbn [Regex.ir_pattern_at upper]; try reflexivity.
  now rewrite !upper_char_idem, sep_digits_upper.
Qed.

Lemma search_ir_pattern_upper (s : string) :
  Regex.search Regex.ir_pattern_at (upper s) = Regex.search Regex.ir_pattern_at s.
Proof.
  induction s as [|c s IH].
  - reflexivity.
  - change (upper (String c s)) with (String (upper_char c) (upper s)).
    cbn [Regex.search].
    change (String (upper_char c) (upper s)) with (upper (String c s)).
    now rewrite ir_pattern_at_upper, IH.
Qed.

Lemma upper_idem (s : string) : upper (upper s) = upper s.
Proof. induction s as [|c s IH]; cbn [upper]; [reflexivity |].
       now rewrite upper_char_idem, IH. Qed.

(** On the upper-cased text the key pattern matches at the same place,
    with group 1 upper-cased and the same digits. *)
Lemma job_number_at_upper (s : string) :
  Regex.job_number_at (upper s)
  = option_map (fun g => (upper (fst g), snd g)) (Regex.job_number_at s).
Proof.
  destruct s as [|a [|b rest]]; cbn [Regex.job_number_at upper]; try reflexivity.
  rewrite !upper_char_idem, sep_digits_upper.
  destruct ((Ascii.eqb (upper_char a) "I" || Ascii.eqb (upper_char a) "E")
            && Ascii.eqb (upper_char b) "R")%bool; [| reflexivity].
  destruct (Regex.sep_digits 4 5 rest); reflexivity.
Qed.

Lemma extract_job_number_upper (s : string) :
  extract_job_number (upper s) = extract_job_number s.
Proof.
  unfold extract_job_number.
  induction s as [|c s IH].
  - reflexivity.
  - change (upper (String c s)) with (String (upper_char c) (upper s)).
    cbn [Regex.search].
    change (String (upper_char c) (upper s)) with (upper (String c s)).
    rewrite job_number_at_upper.
    destruct (Regex.job_number_at (String c s)) as [[g1 g2]|]; cbn [option_map fst snd].
    + now rewrite upper_idem.
    + exact IH.
Qed.

Lemma first_matching_dir_case (tree : FS) (parent k1 k2 : string) (items : list string) :
  same_modulo_case k1 k2 ->
  first_matching_dir tree parent k1 items = first_matching_dir tree parent k2 items.
Proof.
  unfold same_modulo_case. intros H.
  induction items as [|item rest IH]; cbn [first_matching_dir]; [reflexivity |].
  unfold key_in_name. now rewrite H, IH.
Qed.

End KeyCase.

(** C6, as stated, fails for the undo manager: the ledger row of
    IR00300 - BMW is found under that spelling and not under its
    lower-case spelling, for which the revert is refused. *)
Lemma revert_lookup_case_sensitive :
  same_modulo_case "ir00300 - bmw" "IR00300 - BMW"
  /\ revert_job Scenario.world_300 "ir00300 - bmw"
     = (Scenario.world_300, "No revert entry found for ir00300 - bmw.")
  /\ snd (revert_job Scenario.world_300 "IR00300 - BMW")
     = "Reverted successfully to Y:\E SANCHIT 25-26\IR00300 - BMW".
Proof. repeat split. Qed.

(** C6 (amended). For job keys that differ in letter case only, the folder search
    of the ingest watcher and the sibling-folder search of reconciliation
    give the same answer, folder names being compared upper-cased too, and
    the key either watcher reads from a filename does not depend on the
    case of the filename; the ledger lookup of [revert_job] compares by
    exact equality, so no row answers to two different spellings. *)
Theorem job_key_matching_case (k1 k2 : string) :
  same_modulo_case k1 k2 ->
  (forall f1 f2, same_modulo_case f1 f2 -> key_in_name k1 f1 = key_in_name k2 f2)
  /\ (forall tree folders,
        first_matching_dir tree SOURCE_BASE k1 folders
        = first_matching_dir tree SOURCE_BASE k2 folders)
  /\ (forall tree company_path,
        find_matching_job_folder tree company_path k1
        = find_matching_job_folder tree company_path k2)
  /\ Regex.search Regex.ir_pattern_at k1 = Regex.search Regex.ir_pattern_at k2
  /\ extract_job_number k1 = extract_job_number k2
  /\ (forall r, row_matches k1 r = true -> row_matches k2 r = true -> k1 = k2).
Proof.
  intros H. repeat split.
  - intros f1 f2 Hf. unfold key_in_name, same_modulo_case in *. now rewrite H, Hf.
  - intros tree folders. now apply first_matching_dir_case.
  - intros tree company_path. unfold find_matching_job_folder.
    destruct (Os.listdir tree company_path); [now apply first_matching_dir_case | reflexivity].
  - rewrite <- (search_ir_pattern_upper k1), <- (search_ir_pattern_upper k2).
    unfold same_modulo_case in H. now rewrite H.
  - rewrite <- (extract_job_number_upper k1), <- (extract_job_number_upper k2).
    unfold same_modulo_case in H. now rewrite H.
  - intros r H1 H2. apply row_matches_exact in H1, H2.
    destruct H1 as [_ <-], H2 as [_ <-]. reflexivity.
Qed.

Lemma job_key_matching_case_witness :
  find_matching_job_folder Scenario.tree Scenario.bmw "ir00300"
  = find_matching_job_folder Scenario.tree Scenario.bmw "IR00300"
  /\ Regex.search Regex.ir_pattern_at "invoice_ir_00451.pdf"
     = Regex.search Regex.ir_pattern_at "INVOICE_IR_00451.PDF".
Proof.
  split.
  - apply (job_key_matching_case "ir00300" "IR00300"). reflexivity.
  - apply (job_key_matching_case "invoice_ir_00451.pdf" "INVOICE_IR_00451.PDF").
    reflexivity.
Defined.

Lemma unique_filename_first_free_witness :
  unique_filename
    (mkFS [("Y:\in\a.pdf", File None); ("Y:\in\a_1.pdf", File None);
           ("Y:\in\a_2.pdf", File None)] [])
    "Y:\in\a.pdf"
  = Some "Y:\in\a_3.pdf".
Proof.
  change "Y:\in\a_3.pdf" with (counter_variant "Y:\in\a.pdf" 3).
  apply (proj1 (proj2 (unique_filename_first_free _ _)) 3).
  - lia.
  - reflexivity.
  - intros i Hi. assert (E : i = 1 \/ i = 2) by lia. destruct E as [-> | ->]; reflexivity.
  - reflexivity.
Defined.

(** * Further properties of the program *)

(** ** Job keys *)

Section KeyFormat.

Lemma take_digits_spec (n : nat) (s : string) :
  String.length (Regex.take_digits n s) <= n
  /\ forallb_str is_digit (Regex.take_digits n s) = true
  /\ has_prefix (Regex.take_digits n s) s.
Proof.
  revert s. induction n as [|n IH]; intros s.
  - destruct s; cbn; repeat split; try lia; now eexists.
  - destruct s as [|c s]; cbn [Regex.take_digits].
    + cbn. repeat split; try lia. now exists EmptyString.
    + destruct (is_digit c) eqn:E.
      * destruct (IH s) as [Hl [Hd [rest Hp]]]. cbn [String.length forallb_str].
        rewrite E, Hd. repeat split; try lia.
        exists rest. cbn. now rewrite <- Hp.
      * cbn. repeat split; try lia. now eexists.
Qed.

Lemma take_digits_all (n : nat) (d : string) :
  forallb_str is_digit d = true -> String.length d <= n ->
  Regex.take_digits n d = d.
Proof.
  revert d. induction n as [|n IH]; intros [|c d] Hd Hl; cbn in *;
    try reflexivity; try lia.
  apply andb_true_iff in Hd as [Hc Hd]. rewrite Hc. f_equal. apply IH; [assumption | lia].
Qed.

Lemma digits_range_spec (lo hi : nat) (s d : string) :
  Regex.digits_range lo hi s = Some d ->
  lo <= String.length d <= hi /\ forallb_str is_digit d = true.
Proof.
  unfold Regex.digits_range.
  destruct (lo <=? String.length (Regex.take_digits hi s)) eqn:E; [| discriminate].
  intros [= <-]. apply Nat.leb_le in E.
  destruct (take_digits_spec hi s) as [Hl [Hd _]]. repeat split; assumption.
Qed.

Lemma sep_digits_spec (lo hi : nat) (s d : string) :
  Regex.sep_digits lo hi s = Some d ->
  lo <= String.length d <= hi /\ forallb_str is_digit d = true.
Proof.
  unfold Regex.sep_digits.
  destruct s as [|c t].
  - apply digits_range_spec.
  - destruct (Regex.is_key_sep c).
    + destruct (Regex.digits_range lo hi t) as [d'|] eqn:E.
      * intros [= <-]. eapply digits_range_spec; eassumption.
      * apply digits_range_spec.
    + apply digits_range_spec.
Qed.

Lemma digit_not_key_sep (c : ascii) : is_digit c = true -> Regex.is_key_sep c = false.
Proof. destruct c as [[] [] [] [] [] [] [] []]; (reflexivity || discriminate). Qed.

(** Digits alone are matched as they stand. *)
Lemma sep_digits_of_digits (lo hi : nat) (d : string) :
  forallb_str is_digit d = true -> lo <= String.length d <= hi ->
  Regex.sep_digits lo hi d = Some d.
Proof.
  intros Hd Hl. unfold Regex.sep_digits, Regex.digits_range.
  rewrite (take_digits_all hi d Hd) by lia.
  destruct d as [|c t].
  - destruct (Nat.leb_spec lo (String.length EmptyString)); [reflexivity | lia].
  - cbn [forallb_str] in Hd. apply andb_true_iff in Hd as [Hc _].
    rewrite (digit_not_key_sep c Hc).
    destruct (Nat.leb_spec lo (String.length (String c t))); [reflexivity | lia].
Qed.

Lemma digits_range_weaken (s d : string) :
  Regex.digits_range 5 5 s = Some d -> Regex.digits_range 4 5 s = Some d.
Proof.
  unfold Regex.digits_range.
  destruct (Nat.leb_spec 5 (String.length (Regex.take_digits 5 s))); [| discriminate].
  destruct (Nat.leb_spec 4 (String.length (Regex.take_digits 5 s))); [trivial | lia].
Qed.

(** What the five-digit pattern matches, the four-to-five-digit one
    matches too. *)
Lemma sep_digits_weaken (s d : string) :
  Regex.sep_digits 5 5 s = Some d -> exists d', Regex.sep_digits 4 5 s = Some d'.
Proof.
  unfold Regex.sep_digits. destruct s as [|c t].
  - intros H. rewrite (digits_range_weaken _ _ H). now eexists.
  - destruct (Regex.is_key_sep c).
    + destruct (Regex.digits_range 5 5 t) as [d5|] eqn:E5.
      * intros _. rewrite (digits_range_weaken _ _ E5). now eexists.
      * intros H. rewrite (digits_range_weaken _ _ H).
        destruct (Regex.digits_range 4 5 t); now eexists.
    + intros H. rewrite (digits_range_weaken _ _ H). now eexists.
Qed.

Lemma search_sound {A : Type} (at_head : string -> option A) (s : string) (m : A) :
  Regex.search at_head s = Some m ->
  exists pre t, s = pre ++ t /\ at_head t = Some m.
Proof.
  induction s as [|c s IH]; cbn [Regex.search].
  - destruct (at_head EmptyString) eqn:E; [| discriminate].
    intros [= <-]. now exists EmptyString, EmptyString.
  - destruct (at_head (String c s)) eqn:E.
    + intros [= <-]. now exists EmptyString, (String c s).
    + intros H. destruct (IH H) as [pre [t [-> Ht]]].
      now exists (String c pre), t.
Qed.

Lemma search_complete {A : Type} (at_head : string -> option A) (pre t : string) (m : A) :
  at_head t = Some m ->
  exists m', Regex.search at_head (pre ++ t) = Some m'.
Proof.
  intros Ht. induction pre as [|c pre IH].
  - cbn [append]. destruct t; cbn [Regex.search]; rewrite Ht; now exists m.
  - cbn [append Regex.search].
    destruct (at_head (String c (pre ++ t))) as [m0|]; [now exists m0 | exact IH].
Qed.

Lemma job_number_at_spec (s g1 d : string) :
  Regex.job_number_at s = Some (g1, d) ->
  (upper g1 = "IR" \/ upper g1 = "ER")
  /\ 4 <= String.length d <= 5 /\ forallb_str is_digit d = true.
Proof.
  destruct s as [|a [|b rest]]; cbn [Regex.job_number_at]; try discriminate.
  destruct (Ascii.eqb (upper_char a) "I") eqn:Ea;
    destruct (Ascii.eqb (upper_char a) "E") eqn:Ee;
    destruct (Ascii.eqb (upper_char b) "R") eqn:Eb; cbn [orb andb]; try discriminate;
    destruct (Regex.sep_digits 4 5 rest) as [d'|] eqn:Ed; try discriminate;
    intros [= <- <-]; cbn [upper];
    apply Ascii.eqb_eq in Eb; rewrite Eb;
    (split; [| eapply sep_digits_spec; eassumption]).
  - apply Ascii.eqb_eq in Ea. rewrite Ea. now left.
  - apply Ascii.eqb_eq in Ea. rewrite Ea. now left.
  - apply Ascii.eqb_eq in Ee. rewrite Ee. now right.
Qed.

End KeyFormat.

Lemma extract_job_number_shape (text k : string) :
  extract_job_number text = Some k ->
  exists prefix number,
    k = prefix ++ number
    /\ (prefix = "IR" \/ prefix = "ER")
    /\ 4 <= String.length number <= 5
    /\ forallb_str is_digit number = true.
Proof.
  unfold extract_job_number.
  destruct (Regex.search Regex.job_number_at text) as [[g1 g2]|] eqn:E; [| discriminate].
  intros [= <-]. apply search_sound in E as [pre [t [_ Ht]]].
  apply job_number_at_spec in Ht as [Hp [Hl Hd]].
  exists (upper g1), g2. repeat split; try assumption; lia.
Qed.

(** X1. For ASCII text, on which the character classes and the case
    mapping of this development are Python's, a key [extract_job_number]
    returns is IR or ER in upper case followed by four or five decimal
    digits. *)
Theorem extract_job_number_format (text k : string) :
  is_ascii text = true ->
  extract_job_number text = Some k ->
  exists prefix number,
    k = prefix ++ number
    /\ (prefix = "IR" \/ prefix = "ER")
    /\ 4 <= String.length number <= 5
    /\ forallb_str is_digit number = true
    /\ is_ascii k = true.
Proof.
  intros _ H.
  destruct (extract_job_number_shape text k H) as (prefix & number & -> & Hp & Hl & Hd).
  exists prefix, number. conj_split; try reflexivity; try assumption; try lia.
  assert (Hn : is_ascii number = true).
  { clear H Hl. induction number as [|c t IH]; [reflexivity |].
    cbn [forallb_str] in Hd. apply andb_true_iff in Hd as [Hc Ht].
    unfold is_ascii. cbn [forallb_str]. fold (is_ascii t). rewrite (IH Ht).
    unfold is_digit in Hc. apply andb_true_iff in Hc as [_ Hc].
    apply Nat.leb_le in Hc.
    rewrite andb_true_r. apply Nat.ltb_lt. lia. }
  destruct Hp as [-> | ->]; exact Hn.
Qed.

Lemma extract_job_number_format_witness :
  exists prefix number,
    "ER1234" = prefix ++ number
    /\ (prefix = "IR" \/ prefix = "ER")
    /\ 4 <= String.length number <= 5
    /\ forallb_str is_digit number = true
    /\ is_ascii "ER1234" = true.
Proof.
  apply (extract_job_number_format "scan er-1234 final.PDF"); reflexivity.
Defined.

(** X2. A key is its own key: extracting from an extracted key gives it
    back, and the key is accepted by [is_job_folder] as a folder name. *)
Theorem extract_job_number_idempotent (text k : string) :
  extract_job_number text = Some k ->
  extract_job_number k = Some k /\ is_job_folder k = true.
Proof.
  intros H. destruct (extract_job_number_shape text k H)
    as [prefix [number [-> [Hp [Hl Hd]]]]].
  assert (Hs : Regex.sep_digits 4 5 number = Some number)
    by (apply sep_digits_of_digits; assumption).
  assert (Hhead : exists c t, number = String c t /\ is_digit c = true).
  { destruct number as [|c t]; [cbn in Hl; lia |].
    cbn [forallb_str] in Hd. apply andb_true_iff in Hd as [Hc _]. now exists c, t. }
  destruct Hhead as [c [t [Hn Hc]]].
  destruct Hp as [-> | ->]; unfold extract_job_number; cbn [append];
    (split;
     [ cbn [Regex.search Regex.job_number_at]; rewrite Hs; reflexivity
     | rewrite Hn; cbn; exact Hc ]).
Qed.

Lemma extract_job_number_idempotent_witness :
  extract_job_number "IR00451" = Some "IR00451" /\ is_job_folder "IR00451" = true.
Proof.
  apply (extract_job_number_idempotent "Packing_List_ir 00451.docx"). reflexivity.
Defined.

(** X3. The key the ingest watcher reads from a filename has exactly five
    digits, and a filename it accepts also carries a key for
    [extract_job_number]; the job number the watcher builds is a key in
    that sense too. *)
Theorem ingest_key_is_job_key (filename digits : string) :
  Regex.search Regex.ir_pattern_at filename = Some digits ->
  String.length digits = 5
  /\ forallb_str is_digit digits = true
  /\ (exists k, extract_job_number filename = Some k)
  /\ extract_job_number ("IR" ++ digits) = Some ("IR" ++ digits).
Proof.
  intros H. apply search_sound in H as [pre [t [-> Ht]]].
  destruct t as [|a [|b rest]]; cbn [Regex.ir_pattern_at] in Ht; try discriminate.
  destruct (Ascii.eqb (upper_char a) "I") eqn:Ea; [| discriminate].
  destruct (Ascii.eqb (upper_char b) "R") eqn:Eb; [| discriminate].
  cbn [andb] in Ht.
  destruct (sep_digits_spec 5 5 rest digits Ht) as [Hl Hd].
  repeat split; [lia | assumption | |].
  - assert (Hg : exists d', Regex.sep_digits 4 5 rest = Some d')
      by (eapply sep_digits_weaken; eassumption).
    destruct Hg as [d' Hd'].
    assert (Hat : Regex.job_number_at (String a (String b rest))
                  = Some (String a (String b EmptyString), d')).
    { cbn [Regex.job_number_at]. rewrite Ea, Eb, Hd'. reflexivity. }
    destruct (search_complete Regex.job_number_at pre _ _ Hat) as [[g1 g2] Hm].
    unfold extract_job_number. rewrite Hm. now eexists.
  - unfold extract_job_number. cbn [append Regex.search Regex.job_number_at].
    rewrite (sep_digits_of_digits 4 5 digits Hd) by lia. reflexivity.
Qed.

Lemma ingest_key_is_job_key_witness :
  String.length "00451" = 5
  /\ forallb_str is_digit "00451" = true
  /\ (exists k, extract_job_number "Invoice_IR_00451.pdf" = Some k)
  /\ extract_job_number ("IR" ++ "00451") = Some ("IR" ++ "00451").
Proof.
  apply (ingest_key_is_job_key "Invoice_IR_00451.pdf"). reflexivity.
Defined.

(** ** Importers and folder matching *)

Section Containment.

Lemma contains_cons (n : string) (c : ascii) (t : string) :
  contains n (String c t) = startswith n (String c t) || contains n t.
Proof. reflexivity. Qed.

Lemma contains_spec (n h : string) :
  contains n h = true <-> exists pre post, h = pre ++ n ++ post.
Proof.
  split.
  - induction h as [|c t IH].
    + cbn [contains]. rewrite orb_false_r. intros H.
      apply startswith_spec in H as [rest Hr]. now exists EmptyString, rest.
    + rewrite contains_cons. intros H. apply orb_true_iff in H as [H | H].
      * apply startswith_spec in H as [rest Hr]. now exists EmptyString, rest.
      * destruct (IH H) as [pre [post ->]]. now exists (String c pre), post.
  - intros [pre [post ->]]. induction pre as [|c pre IH].
    + cbn [append]. assert (S : startswith n (n ++ post) = true)
        by (apply startswith_spec; now exists post).
      destruct (n ++ post); cbn [contains]; now rewrite S.
    + cbn [append]. rewrite contains_cons, IH. apply orb_true_r.
Qed.

Lemma contains_trans (a b c : string) :
  contains a b = true -> contains b c = true -> contains a c = true.
Proof.
  rewrite !contains_spec. intros [p1 [q1 ->]] [p2 [q2 ->]].
  exists (p2 ++ p1), (q1 ++ q2). now rewrite !append_assoc.
Qed.

Lemma find_importer_in_spec (m : list (string * string)) (text : string) :
  match find_importer_in m text with
  | Some k =>
      contains k text = true
      /\ exists before after,
           map fst m = (before ++ k :: after)%list
           /\ forall k', In k' before -> contains k' text = false
  | None => forall k, In k (map fst m) -> contains k text = false
  end.
Proof.
  induction m as [|[k v] m IH]; cbn [find_importer_in map fst].
  - intros k [].
  - destruct (contains k text) eqn:E.
    + split; [assumption |]. exists [], (map fst m). split; [reflexivity | intros k' []].
    + destruct (find_importer_in m text) as [k0|].
      * destruct IH as [Hc [before [after [Hm Hb]]]]. split; [assumption |].
        exists (k :: before), after. split; [cbn; now rewrite Hm |].
        intros k' [<- | Hk]; [assumption | now apply Hb].
      * intros k' [<- | Hk]; [assumption | now apply IH].
Qed.

Lemma importer_get_In (m : list (string * string)) (k v : string) :
  importer_get m k = Some v -> In (k, v) m.
Proof.
  induction m as [|[k0 v0] m IH]; cbn [importer_get]; [discriminate |].
  destruct (String.eqb_spec k0 k) as [-> | _].
  - intros [= ->]. now left.
  - intros H. right. now apply IH.
Qed.

End Containment.

(** X4. [find_importer] answers with the first key of the importer table, in
    table order, that occurs in the text, and with nothing exactly when no
    key occurs; a key it answers with always has a billing folder, and
    never the empty one, so a found importer is never skipped for want of
    a mapping. *)
Theorem find_importer_first_in_table (text : string) :
  match find_importer text with
  | Some importer =>
      contains importer text = true
      /\ (exists before after,
            map fst IMPORTER_MAP = (before ++ importer :: after)%list
            /\ forall k, In k before -> contains k text = false)
      /\ exists billing_folder,
           importer_get IMPORTER_MAP importer = Some billing_folder
           /\ In (importer, billing_folder) IMPORTER_MAP
           /\ billing_folder <> EmptyString
  | None => forall k, In k (map fst IMPORTER_MAP) -> contains k text = false
  end.
Proof.
  pose proof (find_importer_in_spec IMPORTER_MAP text) as H.
  fold (find_importer text) in H.
  destruct (find_importer text) as [importer|] eqn:E; [| exact H].
  destruct H as [Hc Hfirst]. repeat split; try assumption.
  destruct (importer_map_total text importer E) as [_ [b [Hb Hne]]].
  exists b. repeat split; try assumption. now apply importer_get_In.
Qed.

(** X5. A key that occurs in another key, letter case aside, matches every
    folder name the other matches: where [find_matching_job_folder] finds
    a folder for the longer key it finds one for the shorter key (so the
    four-digit IR1234 is also at home in the folder of IR12345). *)
Theorem shorter_key_matches_too (t : FS) (company_path k_long k_short : string) :
  key_in_name k_short k_long = true ->
  (forall item, key_in_name k_long item = true -> key_in_name k_short item = true)
  /\ (forall p,
        find_matching_job_folder t company_path k_long = Some p ->
        exists p', find_matching_job_folder t company_path k_short = Some p').
Proof.
  intros Hk.
  assert (Hitem : forall item, key_in_name k_long item = true ->
                               key_in_name k_short item = true).
  { intros item Hi. unfold key_in_name in *. eapply contains_trans; eassumption. }
  split; [exact Hitem |].
  intros p. unfold find_matching_job_folder.
  destruct (Os.listdir t company_path) as [items|e]; [| discriminate].
  induction items as [|item rest IH]; cbn [first_matching_dir]; [discriminate |].
  destruct (Os.isdir t (Path.join company_path item)); cbn [andb].
  - destruct (key_in_name k_long item) eqn:El.
    + rewrite (Hitem item El). intros _. now eexists.
    + destruct (key_in_name k_short item); [intros _; now eexists | exact IH].
  - exact IH.
Qed.

Lemma shorter_key_matches_too_witness :
  exists p',
    find_matching_job_folder
      (mkFS [("Z:\B", Dir); ("Z:\B\IR12345 - ACME", Dir)] []) "Z:\B" "IR1234" = Some p'.
Proof.
  apply (proj2 (shorter_key_matches_too _ "Z:\B" "IR12345" "IR1234" eq_refl)
           "Z:\B\IR12345 - ACME").
  reflexivity.
Defined.

Section FolderSearch.

Variable t : FS.
Variables parent job_number : string.

Let hit (item : string) : bool :=
  Os.isdir t (Path.join parent item) && key_in_name job_number item.

Lemma first_matching_dir_spec (items : list string) :
  match first_matching_dir t parent job_number items with
  | Some p =>
      exists before item after,
        items = (before ++ item :: after)%list
        /\ p = Path.join parent item
        /\ hit item = true
        /\ forall x, In x before -> hit x = false
  | None => forall x, In x items -> hit x = false
  end.
Proof.
  induction items as [|item rest IH]; cbn [first_matching_dir].
  - intros x [].
  - fold (hit item). destruct (hit item) eqn:E.
    + exists [], item, rest. repeat split; [assumption | intros x []].
    + destruct (first_matching_dir t parent job_number rest) as [p|].
      * destruct IH as [before [it [after [-> [Hp [Hh Hb]]]]]].
        exists (item :: before), it, after. repeat split; try assumption.
        intros x [<- | Hx]; [assumption | now apply Hb].
      * intros x [<- | Hx]; [assumption | now apply IH].
Qed.

End FolderSearch.

(** X6. [find_matching_job_folder] answers with the first entry of the company
    folder, in listing order, that is a directory and whose name contains
    the key ignoring case; it answers with nothing exactly when the
    listing fails or no entry is such a directory. *)
Theorem find_matching_job_folder_first_match (t : FS) (company_path job_number : string) :
  match find_matching_job_folder t company_path job_number with
  | Some p =>
      exists before item after,
        Os.listdir t company_path = Ok (before ++ item :: after)%list
        /\ p = Path.join company_path item
        /\ Os.isdir t p = true
        /\ key_in_name job_number item = true
        /\ forall x, In x before ->
             Os.isdir t (Path.join company_path x) && key_in_name job_number x = false
  | None =>
      (exists e, Os.listdir t company_path = Raise e)
      \/ exists items,
           Os.listdir t company_path = Ok items
           /\ forall x, In x items ->
                Os.isdir t (Path.join company_path x) && key_in_name job_number x = false
  end.
Proof.
  unfold find_matching_job_folder.
  destruct (Os.listdir t company_path) as [items|e]; [| left; now exists e].
  pose proof (first_matching_dir_spec t company_path job_number items) as H.
  cbv zeta in H.
  destruct (first_matching_dir t company_path job_number items) as [p|].
  - destruct H as [before [item [after [-> [-> [Hh Hb]]]]]].
    apply andb_true_iff in Hh as [Hd Hk].
    exists before, item, after. repeat split; assumption.
  - right. exists items. split; [reflexivity | exact H].
Qed.

(** ** The job tree under moves *)

Section TreeFacts.

Lemma strip_prefix_spec (pre p r : string) :
  Os.strip_prefix pre p = Some r <-> p = pre ++ r.
Proof.
  revert p. induction pre as [|a pre IH]; intros p; cbn [Os.strip_prefix append].
  - split; [now intros [= ->] | now intros ->].
  - destruct p as [|b p]; [split; discriminate |].
    destruct (Ascii.eqb_spec a b) as [<- | Hne].
    + rewrite IH. split; [now intros -> | now intros [= ->]].
    + split; [discriminate | intros [= E _]; congruence].
Qed.

Lemma strip_prefix_app_none (a b p : string) :
  Os.strip_prefix a p = None -> Os.strip_prefix (a ++ b) p = None.
Proof.
  intros H. destruct (Os.strip_prefix (a ++ b) p) as [r|] eqn:E; [| reflexivity].
  apply strip_prefix_spec in E. rewrite append_assoc in E.
  apply strip_prefix_spec in E. congruence.
Qed.

(** A node outside the prefix of the moved path is not renamed. *)
Lemma relocate_outside (pre f dst p : string) :
  Os.strip_prefix pre p = None -> Os.relocate (pre ++ f) dst p = p.
Proof.
  intros H. unfold Os.relocate.
  destruct (String.eqb_spec p (pre ++ f)) as [-> | _].
  - assert (E : Os.strip_prefix pre (pre ++ f) = Some f) by now apply strip_prefix_spec.
    congruence.
  - rewrite append_assoc. now rewrite (strip_prefix_app_none pre _ p H).
Qed.

Lemma filter_absent (t : FS) (dst : string) :
  Os.exists_ t dst = false ->
  filter (fun e : string * Node => negb (String.eqb (fst e) dst)) (nodes t) = nodes t.
Proof.
  intros H. apply forallb_filter_id. apply forallb_forall. intros [q n] Hin. cbn [fst].
  destruct (String.eqb_spec q dst) as [-> | _]; [| reflexivity].
  assert (E : Os.exists_ t dst = true)
    by (apply exists_nodes, in_map_iff; now exists (dst, n)).
  congruence.
Qed.

(** A move onto a free path renames nodes and does nothing else. *)
Lemma shutil_move_free (t t' : FS) (src dst : string) :
  Os.exists_ t dst = false ->
  Os.shutil_move t src dst = Ok t' ->
  nodes t' = map (fun e => (Os.relocate src dst (fst e), snd e)) (nodes t)
  /\ locked t' = locked t
  /\ Os.exists_ t src = true
  /\ Os.mem src (locked t) = false /\ Os.mem dst (locked t) = false.
Proof.
  intros Hfree. unfold Os.shutil_move.
  destruct (Os.exists_ t src) eqn:Hs; cbn [negb]; [| discriminate].
  assert (Hd : Os.isdir t dst = false).
  { destruct (Os.isdir t dst) eqn:E; [| reflexivity].
    apply isdir_exists in E. congruence. }
  rewrite Hd, Hfree. cbn [andb]. rewrite andb_false_r.
  destruct (Os.mem src (locked t)) eqn:L1; cbn [orb]; [discriminate |].
  destruct (Os.mem dst (locked t)) eqn:L2; [discriminate |].
  intros [= <-]. cbn [nodes locked]. rewrite (filter_absent t dst Hfree). auto.
Qed.

Lemma join_prefix (a b : string) :
  a <> EmptyString -> Path.join a b = Path.join a EmptyString ++ b.
Proof.
  intros Ha. unfold Path.join. destruct a as [|c a]; [contradiction |].
  destruct (Path.ends_with_sep (String c a)).
  - now rewrite append_empty_r.
  - rewrite append_assoc. reflexivity.
Qed.

End TreeFacts.

(** ** Ingest watcher: one poll cycle *)

Section IngestCycle.

Lemma ooc_upload_touches_refl (w : World) : ooc_upload_touches w w.
Proof.
  unfold ooc_upload_touches. repeat split; try lia.
  exists []. rewrite app_nil_r. split; [reflexivity | intros _; cbn; lia].
Qed.

Lemma ooc_upload_touches_trans (w1 w2 w3 : World) :
  ooc_upload_touches w1 w2 -> ooc_upload_touches w2 w3 -> ooc_upload_touches w1 w3.
Proof.
  unfold ooc_upload_touches.
  intros (A1 & A2 & A3 & A4 & A5 & A6 & A7 & A8 & A9 & A10 & add1 & A11 & A12)
         (B1 & B2 & B3 & B4 & B5 & B6 & B7 & B8 & B9 & B10 & add2 & B11 & B12).
  repeat split; try congruence; try lia.
  exists (add1 ++ add2)%list. split.
  - now rewrite B11, A11, app_assoc.
  - intros Hw. rewrite length_app. specialize (A12 Hw).
    rewrite <- A7 in Hw. specialize (B12 Hw). lia.
Qed.

Lemma log_ooc_upload_touches (w : World) (a b c d : string) :
  let w1 := log_ooc_upload w a b c d in
  fs w1 = fs w
  /\ move_log w1 = move_log w
  /\ revert_log w1 = revert_log w
  /\ revert_history_log w1 = revert_history_log w
  /\ loose_file_log w1 = loose_file_log w
  /\ job_move_stats w1 = job_move_stats w
  /\ loose_file_stats w1 = loose_file_stats w
  /\ ooc_upload_stats w1 = ooc_upload_stats w
  /\ can_write (ooc_upload_log w1) = can_write (ooc_upload_log w)
  /\ exists added,
       rows_of (ooc_upload_log w1) = (rows_of (ooc_upload_log w) ++ added)%list
       /\ (can_write (ooc_upload_log w) = true -> List.length added = 1).
Proof.
  intros w1. subst w1. unfold log_ooc_upload, csv_append.
  destruct (can_write (ooc_upload_log w)) eqn:E; world_simpl.
  - conj_split; try reflexivity. eexists. split; reflexivity.
  - conj_split; try reflexivity; try assumption. exists []. rewrite app_nil_r.
    split; [reflexivity | discriminate].
Qed.

Lemma tree_kept_outside_refl (prefix : string) (t : FS) : tree_kept_outside prefix t t.
Proof. unfold tree_kept_outside. auto. Qed.

Lemma tree_kept_outside_trans (prefix : string) (t1 t2 t3 : FS) :
  tree_kept_outside prefix t1 t2 -> tree_kept_outside prefix t2 t3 ->
  tree_kept_outside prefix t1 t3.
Proof.
  unfold tree_kept_outside. intros (A1 & A2 & A3) (B1 & B2 & B3).
  repeat split; try congruence. intros p n Hin Hp. apply B3; [apply A3 |]; assumption.
Qed.

(** A move from below [prefix] onto a free path keeps the tree outside. *)
Lemma shutil_move_kept_outside (prefix f dst : string) (t t' : FS) :
  Os.exists_ t dst = false ->
  Os.shutil_move t (prefix ++ f) dst = Ok t' ->
  tree_kept_outside prefix t t'.
Proof.
  intros Hfree Hmv.
  destruct (shutil_move_free t t' _ _ Hfree Hmv) as (Hn & Hl & _).
  unfold tree_kept_outside. rewrite Hn, Hl, length_map. repeat split.
  intros p n Hin Hp. apply in_map_iff. exists (p, n). cbn [fst snd].
  now rewrite (relocate_outside prefix f dst p Hp).
Qed.

Lemma ooc_upload_body_inv (w : World) (filename : string) :
  match ooc_upload_body w filename with
  | Next w' | Escape _ w' =>
      ooc_upload_touches w w'
      /\ tree_kept_outside (Path.join UPLOAD_OOC EmptyString) (fs w) (fs w')
  end.
Proof.
  assert (Hrefl : ooc_upload_touches w w
                  /\ tree_kept_outside (Path.join UPLOAD_OOC EmptyString) (fs w) (fs w))
    by (split; [apply ooc_upload_touches_refl | apply tree_kept_outside_refl]).
  unfold ooc_upload_body.
  destruct (Os.isdir _ _); [exact Hrefl |].
  destruct (negb _); [exact Hrefl |].
  destruct (Regex.search _ _) as [digits|].
  2:{ split; [| apply tree_kept_outside_refl].
      unfold ooc_upload_touches. world_simpl. conj_split; try reflexivity; try lia.
      exists []. rewrite app_nil_r. split; [reflexivity | intros _; cbn; lia]. }
  match goal with
  | |- context [match ?l with Ok _ => _ | Raise _ => _ end] =>
      destruct l as [[job_folder|]|e] eqn:Hloc
  end; [| | exact Hrefl].
  - destruct (unique_filename _ _) as [dest_path|] eqn:Hu; [| exact Hrefl].
    assert (Hfree : Os.exists_ (fs w) dest_path = false).
    { destruct (unique_filename_total (fs w) (Path.join job_folder filename))
        as [r [Hr Hf]]. congruence. }
    destruct (Os.shutil_move _ _ _) as [fs'|e] eqn:Hm.
    + match goal with
      | |- context [log_ooc_upload ?x ?a ?b ?c ?d] =>
          destruct (log_ooc_upload_touches x a b c d)
            as (L0 & L1 & L2 & L3 & L4 & L5 & L6 & L7 & L8 & added & L9 & L10)
      end.
      world_simpl. split.
      * unfold ooc_upload_touches. world_simpl. rewrite L7.
        conj_split; try assumption; try lia.
        exists added. split; [assumption |]. intros Hw. rewrite (L10 Hw). lia.
      * rewrite L0. rewrite join_prefix in Hm by discriminate.
        eapply shutil_move_kept_outside; eassumption.
    + match goal with
      | |- context [log_ooc_upload ?x ?a ?b ?c ?d] =>
          destruct (log_ooc_upload_touches x a b c d)
            as (L0 & L1 & L2 & L3 & L4 & L5 & L6 & L7 & L8 & added & L9 & L10)
      end.
      world_simpl. split.
      * unfold ooc_upload_touches. world_simpl. rewrite L7.
        conj_split; try assumption; try lia.
        exists added. split; [assumption |]. intros Hw. rewrite (L10 Hw). lia.
      * rewrite L0. apply tree_kept_outside_refl.
  - match goal with
    | |- context [log_ooc_upload ?x ?a ?b ?c ?d] =>
        destruct (log_ooc_upload_touches x a b c d)
          as (L0 & L1 & L2 & L3 & L4 & L5 & L6 & L7 & L8 & added & L9 & L10)
    end.
    world_simpl. split.
    + unfold ooc_upload_touches. world_simpl. rewrite L7.
      conj_split; try assumption; try lia.
      exists added. split; [assumption |]. intros Hw. rewrite (L10 Hw). lia.
    + rewrite L0. apply tree_kept_outside_refl.
Qed.

Lemma ooc_upload_loop_inv (files : list string) (w : World) :
  match ooc_upload_loop w files with
  | Next w' | Escape _ w' =>
      ooc_upload_touches w w'
      /\ tree_kept_outside (Path.join UPLOAD_OOC EmptyString) (fs w) (fs w')
  end.
Proof.
  revert w. induction files as [|f rest IH]; intros w; cbn [ooc_upload_loop].
  - split; [apply ooc_upload_touches_refl | apply tree_kept_outside_refl].
  - pose proof (ooc_upload_body_inv w f) as Hb.
    destruct (ooc_upload_body w f) as [w1|e w1]; [| exact Hb].
    specialize (IH w1). destruct Hb as [Hb1 Hb2].
    destruct (ooc_upload_loop w1 rest) as [w2|e w2]; destruct IH as [H1 H2];
      (split; [eapply ooc_upload_touches_trans | eapply tree_kept_outside_trans];
       eassumption).
Qed.

End IngestCycle.

(** X7. One poll cycle of the ingest watcher changes nothing but the job tree,
    its own log and its own counters: the other logs and counters are as
    before, the ingest log keeps every earlier row in place and only
    grows, and no counter goes down. *)
Theorem ooc_upload_cycle_frame (w : World) :
  let w' := ooc_upload_cycle w in
  move_log w' = move_log w
  /\ revert_log w' = revert_log w
  /\ revert_history_log w' = revert_history_log w
  /\ loose_file_log w' = loose_file_log w
  /\ job_move_stats w' = job_move_stats w
  /\ loose_file_stats w' = loose_file_stats w
  /\ (exists added,
        rows_of (ooc_upload_log w') = (rows_of (ooc_upload_log w) ++ added)%list)
  /\ moved (ooc_upload_stats w) <= moved (ooc_upload_stats w')
  /\ skipped (ooc_upload_stats w) <= skipped (ooc_upload_stats w')
  /\ errors (ooc_upload_stats w) <= errors (ooc_upload_stats w').
Proof.
  cbv zeta. unfold ooc_upload_cycle.
  destruct (Os.listdir (fs w) UPLOAD_OOC) as [files|e].
  - pose proof (ooc_upload_loop_inv files w) as H.
    destruct (ooc_upload_loop w files) as [w1|e w1];
      destruct H as [(A1 & A2 & A3 & A4 & A5 & A6 & A7 & A8 & A9 & A10 & added & A11 & A12) _];
      world_simpl; conj_split; try assumption; try lia; now exists added.
  - world_simpl. conj_split; try reflexivity; try lia. exists []. now rewrite app_nil_r.
Qed.

(** X8. With a writable ingest log, the rows one cycle appends are as many as
    the files it counts as moved or as errors, but for at most one error:
    the one counted when an exception ends the cycle, which has no row. *)
Theorem ooc_upload_cycle_rows_counted (w : World) :
  can_write (ooc_upload_log w) = true ->
  let w' := ooc_upload_cycle w in
  let counted :=
    (moved (ooc_upload_stats w') + errors (ooc_upload_stats w'))
    - (moved (ooc_upload_stats w) + errors (ooc_upload_stats w)) in
  exists added,
    rows_of (ooc_upload_log w') = (rows_of (ooc_upload_log w) ++ added)%list
    /\ List.length added <= counted <= List.length added + 1.
Proof.
  intros Hw. cbv zeta. unfold ooc_upload_cycle.
  destruct (Os.listdir (fs w) UPLOAD_OOC) as [files|e].
  - pose proof (ooc_upload_loop_inv files w) as H.
    destruct (ooc_upload_loop w files) as [w1|e w1];
      destruct H as [(A1 & A2 & A3 & A4 & A5 & A6 & A7 & A8 & A9 & A10 & added & A11 & A12) _];
      specialize (A12 Hw); world_simpl; exists added; (split; [assumption | lia]).
  - world_simpl. exists []. rewrite app_nil_r. split; [reflexivity | cbn; lia].
Qed.

Lemma ooc_upload_cycle_rows_counted_witness :
  exists added,
    rows_of (ooc_upload_log (ooc_upload_cycle Scenario.world))
    = (rows_of (ooc_upload_log Scenario.world) ++ added)%list
    /\ List.length added
       <= (moved (ooc_upload_stats (ooc_upload_cycle Scenario.world))
           + errors (ooc_upload_stats (ooc_upload_cycle Scenario.world)))
          - (moved (ooc_upload_stats Scenario.world)
             + errors (ooc_upload_stats Scenario.world))
       <= List.length added + 1.
Proof. apply (ooc_upload_cycle_rows_counted Scenario.world). reflexivity. Defined.

(** X9. One poll cycle of the ingest watcher moves inbox entries only, and
    onto free paths: every node whose path is not below the inbox is
    where it was, the tree has no fewer nodes than before, and no lock
    changes. *)
Theorem ooc_upload_cycle_keeps_tree (w : World) :
  let t := fs w in
  let t' := fs (ooc_upload_cycle w) in
  locked t' = locked t
  /\ List.length (nodes t) <= List.length (nodes t')
  /\ forall p n,
       In (p, n) (nodes t) ->
       Os.strip_prefix (Path.join UPLOAD_OOC EmptyString) p = None ->
       In (p, n) (nodes t').
Proof.
  cbv zeta. unfold ooc_upload_cycle.
  assert (Hweak : forall t t',
             tree_kept_outside (Path.join UPLOAD_OOC EmptyString) t t' ->
             locked t' = locked t
             /\ List.length (nodes t) <= List.length (nodes t')
             /\ forall p n,
                  In (p, n) (nodes t) ->
                  Os.strip_prefix (Path.join UPLOAD_OOC EmptyString) p = None ->
                  In (p, n) (nodes t')).
  { intros t t' (L & N & K). conj_split; [exact L | lia | exact K]. }
  destruct (Os.listdir (fs w) UPLOAD_OOC) as [files|e].
  - pose proof (ooc_upload_loop_inv files w) as H.
    destruct (ooc_upload_loop w files) as [w1|e w1]; destruct H as [_ H];
      world_simpl; apply Hweak; exact H.
  - world_simpl. apply Hweak. apply tree_kept_outside_refl.
Qed.

(** C5 (amended). With a writable ingest log: a file the loop body counts as
    moved or as an error gets exactly one row, made of the time, the
    filename, the key IR and the five digits read from the filename, the
    destination (the free path chosen in the job folder for a moved
    file, empty for an error) and the status; a file counted as skipped
    gets none; and an exception that leaves the loop body is counted by
    the cycle as one more error, without a row. *)
Theorem ooc_upload_logs_moved_and_errors (w : World) (filename : string) :
  can_write (ooc_upload_log w) = true ->
  let file_path := Path.join UPLOAD_OOC filename in
  let key := Regex.search Regex.ir_pattern_at filename in
  let logged := rows_of (ooc_upload_log w) in
  match ooc_upload_body w filename with
  | Escape _ w' => w' = w
  | Next w' =>
      (moved (ooc_upload_stats w') = moved (ooc_upload_stats w) + 1 ->
         exists digits job_folder dest_path,
           key = Some digits
           /\ ooc_job_folder (fs w) ("IR" ++ digits) (Some job_folder)
           /\ unique_filename (fs w) (Path.join job_folder filename) = Some dest_path
           /\ Os.shutil_move (fs w) file_path dest_path = Ok (fs w')
           /\ rows_of (ooc_upload_log w')
              = (logged
                 ++ [[now_log w; filename; ("IR" ++ digits)%string; dest_path; "MOVED"]])%list)
      /\ (errors (ooc_upload_stats w') = errors (ooc_upload_stats w) + 1 ->
          exists digits status,
            key = Some digits
            /\ rows_of (ooc_upload_log w')
               = (logged
                  ++ [[now_log w; filename; ("IR" ++ digits)%string; EmptyString; status]])%list
            /\ (ooc_job_folder (fs w) ("IR" ++ digits) None
                /\ status = "ERROR: Folder not found"
                \/ exists job_folder dest_path e,
                     ooc_job_folder (fs w) ("IR" ++ digits) (Some job_folder)
                     /\ unique_filename (fs w) (Path.join job_folder filename)
                        = Some dest_path
                     /\ Os.shutil_move (fs w) file_path dest_path = Raise e
                     /\ status = "ERROR: " ++ exn_str e))
      /\ (skipped (ooc_upload_stats w') = skipped (ooc_upload_stats w) + 1 ->
          key = None /\ ooc_upload_log w' = ooc_upload_log w)
      /\ (w' = w
          \/ ooc_upload_stats w' = bump_moved (ooc_upload_stats w)
          \/ ooc_upload_stats w' = bump_errors (ooc_upload_stats w)
          \/ ooc_upload_stats w' = bump_skipped (ooc_upload_stats w))
  end
  /\ let w' := ooc_upload_cycle w in
     let counted :=
       (moved (ooc_upload_stats w') + errors (ooc_upload_stats w'))
       - (moved (ooc_upload_stats w) + errors (ooc_upload_stats w)) in
     exists added,
       rows_of (ooc_upload_log w') = (logged ++ added)%list
       /\ match Os.listdir (fs w) UPLOAD_OOC with
          | Raise _ => added = [] /\ counted = 1
          | Ok files =>
              match ooc_upload_loop w files with
              | Next _ => counted = List.length added
              | Escape _ _ => counted = List.length added + 1
              end
          end.
Proof.
  intros Hw. cbv zeta. split.
  - unfold ooc_upload_body.
    destruct (Os.isdir _ _); [conj_split; intros; try lia; now left |].
    destruct (negb _); [conj_split; intros; try lia; now left |].
    destruct (Regex.search _ _) as [digits|] eqn:Ek.
    2:{ world_simpl. conj_split; intros; try lia; [split; reflexivity | auto]. }
    match goal with
    | |- context [match ?l with Ok _ => _ | Raise _ => _ end] =>
        assert (Hloc : match l with
                       | Ok found => ooc_job_folder (fs w) ("IR" ++ digits) found
                       | Raise _ => True
                       end);
          [| destruct l as [[job_folder|]|e]; [| | reflexivity]]
    end.
    { unfold ooc_job_folder.
      destruct (Os.exists_ (fs w) (Path.join SOURCE_BASE ("IR" ++ digits)));
        cbn [negb]; [left; split; reflexivity |].
      destruct (Os.listdir (fs w) SOURCE_BASE) as [folders|e]; [| exact I].
      right. split; [reflexivity |]. exists folders. split; reflexivity. }
    + destruct (unique_filename _ _) as [dest_path|] eqn:Hu; [| reflexivity].
      destruct (Os.shutil_move _ _ _) as [fs'|e] eqn:Hm;
        unfold log_ooc_upload, csv_append; world_simpl; rewrite Hw; world_simpl;
        conj_split; intros; try lia; auto.
      * exists digits, job_folder, dest_path. conj_split; auto.
      * exists digits, ("ERROR: " ++ exn_str e). conj_split; auto.
        right. exists job_folder, dest_path, e. conj_split; auto.
    + unfold log_ooc_upload, csv_append; world_simpl; rewrite Hw; world_simpl.
      conj_split; intros; try lia; auto.
      exists digits, "ERROR: Folder not found". conj_split; auto.
  - unfold ooc_upload_cycle.
    destruct (Os.listdir (fs w) UPLOAD_OOC) as [files|e].
    + pose proof (ooc_upload_loop_inv files w) as H.
      destruct (ooc_upload_loop w files) as [w1|e w1];
        destruct H
          as [(A1 & A2 & A3 & A4 & A5 & A6 & A7 & A8 & A9 & A10 & added & A11 & A12) _];
        specialize (A12 Hw); world_simpl; exists added; (split; [assumption | lia]).
    + world_simpl. exists []. rewrite app_nil_r.
      split; [reflexivity | split; [reflexivity | cbn; lia]].
Qed.

Lemma ooc_upload_logs_moved_and_errors_witness :
  exists w',
    ooc_upload_body Scenario.world "Invoice_IR_00451.pdf" = Next w'
    /\ rows_of (ooc_upload_log w')
       = (rows_of (ooc_upload_log Scenario.world)
          ++ [[now_log Scenario.world; "Invoice_IR_00451.pdf"; "IR00451";
               Path.join Scenario.job_451 "Invoice_IR_00451.pdf"; "MOVED"]])%list.
Proof.
  destruct (ooc_upload_logs_moved_and_errors Scenario.world "Invoice_IR_00451.pdf"
              eq_refl) as [H _].
  destruct (ooc_upload_body Scenario.world "Invoice_IR_00451.pdf") as [w'|e w'] eqn:E;
    [| vm_compute in E; discriminate E].
  exists w'. split; [reflexivity |].
  assert (Hm : moved (ooc_upload_stats w') = moved (ooc_upload_stats Scenario.world) + 1)
    by (vm_compute in E; injection E as <-; reflexivity).
  destruct H as [H _].
  destruct (H Hm) as (digits & job_folder & dest_path & Hk & Hj & Hu & _ & Hrows).
  vm_compute in Hk. injection Hk as <-.
  destruct Hj as [[_ Hj] | [Hj _]]; [| vm_compute in Hj; discriminate Hj].
  injection Hj as ->.
  vm_compute in Hu. injection Hu as <-.
  rewrite Hrows. reflexivity.
Defined.

(** ** Promotion watcher: one pass over the trigger files *)

Section PromotionCycle.

Lemma count_action_app (a : string) (l1 l2 : list Row) :
  count_action a (l1 ++ l2) = count_action a l1 + count_action a l2.
Proof. unfold count_action. now rewrite filter_app, length_app. Qed.

Lemma job_move_touches_refl (w : World) : job_move_touches w w.
Proof.
  unfold job_move_touches. conj_split; try reflexivity; try lia.
  - exists []. rewrite app_nil_r. conj_split; [reflexivity | constructor |].
    intros _. cbn. lia.
  - exists []. rewrite app_nil_r. conj_split; [reflexivity | constructor | cbn; lia |].
    intros _. cbn. lia.
Qed.

Lemma job_move_touches_trans (w1 w2 w3 : World) :
  job_move_touches w1 w2 -> job_move_touches w2 w3 -> job_move_touches w1 w3.
Proof.
  unfold job_move_touches.
  intros (A1 & A2 & A3 & A4 & A5 & A6 & A7 & A8 & A9 & A10
          & (am & Am1 & Am2 & Am3) & (ar & Ar1 & Ar2 & Ar3 & Ar4))
         (B1 & B2 & B3 & B4 & B5 & B6 & B7 & B8 & B9 & B10
          & (bm & Bm1 & Bm2 & Bm3) & (br & Br1 & Br2 & Br3 & Br4)).
  conj_split; try congruence; try lia.
  - exists (am ++ bm)%list. conj_split.
    + now rewrite Bm1, Am1, app_assoc.
    + apply Forall_app. now split.
    + intros Hw. rewrite !count_action_app. specialize (Am3 Hw).
      rewrite <- A6 in Hw. specialize (Bm3 Hw). lia.
  - exists (ar ++ br)%list. conj_split.
    + now rewrite Br1, Ar1, app_assoc.
    + apply Forall_app. now split.
    + rewrite length_app. lia.
    + intros Hw. rewrite length_app. specialize (Ar4 Hw).
      rewrite <- A7 in Hw. specialize (Br4 Hw). lia.
Qed.

(** Logging a skip or an error and counting it. *)
Lemma job_move_report_touches (w : World) (k : Ending) (a b c d f : string) :
  k <> EndMoved ->
  let w1 := log_job_move w a b c d (ending_action k) f in
  job_move_touches w (set_job_move_stats w1 (ending_bump k (job_move_stats w1))).
Proof.
  intros Hk w1. subst w1. unfold job_move_touches, log_job_move, csv_append.
  destruct (can_write (move_log w)) eqn:E; destruct k; try contradiction;
    cbn [ending_action ending_bump]; world_simpl;
    (conj_split; try reflexivity; try assumption; try lia;
     [ first [ exists []; rewrite app_nil_r;
               conj_split; [reflexivity | constructor | discriminate]
             | eexists; conj_split;
               [ reflexivity
               | constructor; [split; [reflexivity | cbn; auto] | constructor]
               | intros _; cbn; lia ] ]
     | exists []; rewrite app_nil_r;
       conj_split; [reflexivity | constructor | cbn; lia | intros _; cbn; lia] ]).
Qed.

Lemma job_move_touches_set_fs (w : World) (x : FS) : job_move_touches w (set_fs w x).
Proof.
  unfold job_move_touches. world_simpl. conj_split; try reflexivity; try lia.
  - exists []. rewrite app_nil_r. conj_split; [reflexivity | constructor |].
    intros _. cbn. lia.
  - exists []. rewrite app_nil_r. conj_split; [reflexivity | constructor | cbn; lia |].
    intros _. cbn. lia.
Qed.

(** Recording a move in both logs and counting it. *)
Lemma job_move_moved_touches (w : World) (x : FS) (job src dest a b c d f : string) :
  let w1 := log_revert (set_fs w x) job src dest in
  let w2 := log_job_move w1 a b c d "MOVED" f in
  job_move_touches w (set_job_move_stats w2 (bump_moved (job_move_stats w2))).
Proof.
  cbv zeta. unfold job_move_touches, log_job_move, log_revert, csv_append. world_simpl.
  destruct (can_write (revert_log w)) eqn:Er; world_simpl;
    destruct (can_write (move_log w)) eqn:Em; world_simpl;
    (conj_split; try reflexivity; try assumption; try lia;
     [ first [ exists []; rewrite app_nil_r;
               conj_split; [reflexivity | constructor | discriminate]
             | eexists; conj_split;
               [ reflexivity
               | constructor; [split; [reflexivity | cbn; auto] | constructor]
               | intros _; cbn; lia ] ]
     | first [ exists []; rewrite app_nil_r;
               conj_split; [reflexivity | constructor | cbn; lia | discriminate]
             | eexists; conj_split;
               [ reflexivity
               | constructor; [reflexivity | constructor]
               | cbn; lia
               | intros _; cbn; lia ] ] ]).
Qed.

Lemma job_move_body_touches (w : World) (trigger_path : string) :
  job_move_touches w (job_move_body w trigger_path).
Proof.
  unfold job_move_body.
  destruct (String.eqb _ "upload_ooc"); [apply job_move_touches_refl |].
  destruct (negb _); [apply job_move_touches_refl |].
  destruct (String.eqb _ EmptyString);
    [apply (job_move_report_touches w EndSkipped); discriminate |].
  destruct (find_importer _) as [importer|];
    [| apply (job_move_report_touches w EndSkipped); discriminate].
  destruct (importer_get _ _) as [billing_folder|];
    [| apply (job_move_report_touches w EndSkipped); discriminate].
  destruct (String.eqb billing_folder EmptyString);
    [apply (job_move_report_touches w EndSkipped); discriminate |].
  unfold move_folder.
  destruct (Os.makedirs _ _) as [fs1|e].
  - world_simpl. destruct (Os.shutil_move _ _ _) as [fs2|e].
    + replace (set_fs (set_fs w fs1) fs2) with (set_fs w fs2) by reflexivity.
      apply job_move_moved_touches.
    + eapply job_move_touches_trans; [apply (job_move_touches_set_fs w fs1) |].
      destruct e as [m|m]; apply (job_move_report_touches _ EndError); discriminate.
  - destruct e as [m|m]; apply (job_move_report_touches w EndError); discriminate.
Qed.

Lemma job_move_cycle_touches (trigger_files : list string) (w : World) :
  job_move_touches w (job_move_cycle w trigger_files).
Proof.
  unfold job_move_cycle. revert w.
  induction trigger_files as [|tp rest IH]; intros w; cbn [fold_left].
  - apply job_move_touches_refl.
  - eapply job_move_touches_trans; [apply job_move_body_touches | apply IH].
Qed.

End PromotionCycle.

(** X10. One pass of the promotion watcher over any trigger files keeps every
    earlier row of the transaction log in place and appends rows of four
    columns, never more of them than moves it counts, and exactly as many
    when the transaction log can be written. *)
Theorem job_move_cycle_ledger_rows (w : World) (trigger_files : list string) :
  let w' := job_move_cycle w trigger_files in
  exists added,
    rows_of (revert_log w') = (rows_of (revert_log w) ++ added)%list
    /\ Forall (fun r => List.length r = 4) added
    /\ List.length added + moved (job_move_stats w) <= moved (job_move_stats w')
    /\ (can_write (revert_log w) = true ->
        List.length added + moved (job_move_stats w) = moved (job_move_stats w')).
Proof.
  cbv zeta. pose proof (job_move_cycle_touches trigger_files w) as H.
  unfold job_move_touches in H. tauto.
Qed.

Lemma tl_app_nonempty {A : Type} (l1 l2 : list A) :
  l1 <> [] -> tl (l1 ++ l2) = (tl l1 ++ l2)%list.
Proof. destruct l1; [contradiction | reflexivity]. Qed.

(** X11. On a writable move log that has its header row, the offline report
    and the counters of the promotion watcher stay in step: if the report
    can be made before a pass over the trigger files it can be made after
    it, and its MOVED, SKIPPED and ERROR counts have grown by what the
    counters have grown by, its total by their sum. *)
Theorem job_move_cycle_report_agrees (w : World) (trigger_files : list string)
    (before : Report) :
  can_write (move_log w) = true ->
  rows_of (move_log w) <> [] ->
  error_report (rows_of (move_log w)) = Some before ->
  let w' := job_move_cycle w trigger_files in
  exists after,
    error_report (rows_of (move_log w')) = Some after
    /\ n_moved after + moved (job_move_stats w)
       = n_moved before + moved (job_move_stats w')
    /\ n_skipped after + skipped (job_move_stats w)
       = n_skipped before + skipped (job_move_stats w')
    /\ n_errors after + errors (job_move_stats w)
       = n_errors before + errors (job_move_stats w')
    /\ (total_entries after
        = total_entries before
          + Z.of_nat (n_moved after - n_moved before)
          + Z.of_nat (n_skipped after - n_skipped before)
          + Z.of_nat (n_errors after - n_errors before))%Z.
Proof.
  intros Hw Hne Hrep. cbv zeta.
  destruct (job_move_cycle_touches trigger_files w)
    as (_ & _ & _ & _ & _ & _ & _ & _ & _ & _ & (added & Hrows & Hall & Hcount) & _).
  destruct (Hcount Hw) as (Hm & Hs & He). clear Hcount.
  assert (Hlen7 : forall a, existsb (fun r : Row => List.length r <? 7)
                              (filter (has_action a) added) = false).
  { intros a. clear -Hall. induction Hall as [|r l [Hr _] _ IH]; [reflexivity |].
    cbn [filter]. destruct (has_action a r); [| exact IH].
    cbn [existsb]. rewrite Hr, IH. reflexivity. }
  assert (Hpart : List.length added
                  = count_action "MOVED" added + count_action "SKIPPED" added
                    + count_action "ERROR" added).
  { clear -Hall. unfold count_action.
    induction Hall as [|r l [Hr Ha] _ IH]; [reflexivity |].
    assert (Hact : forall a, has_action a r = String.eqb (col 5 r) a)
      by (intros a; unfold has_action; now rewrite Hr).
    cbn [filter]. rewrite !Hact.
    destruct Ha as [-> | [-> | ->]]; cbn [String.eqb Ascii.eqb Bool.eqb andb List.length];
      lia. }
  revert Hrep. unfold error_report. rewrite Hrows, (tl_app_nonempty _ _ Hne).
  rewrite !filter_app, !existsb_app, !Hlen7, !orb_false_r, !length_app.
  unfold Row in *.
  match goal with
  | |- (if ?c then _ else _) = _ -> _ => destruct c
  end; [intros Hx; discriminate Hx |].
  intros Hb. injection Hb as Hb. subst before. eexists. split; [reflexivity |].
  cbn [n_moved n_skipped n_errors total_entries].
  unfold count_action in *. unfold Row in *. conj_split; lia.
Qed.

Lemma job_move_cycle_report_agrees_witness :
  exists after,
    error_report
      (rows_of (move_log (job_move_cycle Scenario.world [Scenario.trigger_451])))
    = Some after
    /\ n_moved after = 1 /\ n_skipped after = 0 /\ n_errors after = 0
    /\ total_entries after = 1%Z.
Proof.
  destruct (job_move_cycle_report_agrees Scenario.world [Scenario.trigger_451]
              (mkReport 0 0 0 0 [] []) eq_refl)
    as (after & H & Hm & Hs & He & Ht).
  - discriminate.
  - reflexivity.
  - exists after. split; [exact H |].
    change (moved (job_move_stats (job_move_cycle Scenario.world [Scenario.trigger_451])))
      with 1 in Hm.
    change (skipped (job_move_stats (job_move_cycle Scenario.world [Scenario.trigger_451])))
      with 0 in Hs.
    change (errors (job_move_stats (job_move_cycle Scenario.world [Scenario.trigger_451])))
      with 0 in He.
    cbn in Hm, Hs, He. cbn [total_entries n_moved n_skipped n_errors] in Ht.
    conj_split; lia.
Defined.

(** ** Promotion and revert, end to end *)

Section PathLengths.

Lemma substring_length_le (n m : nat) (s : string) :
  String.length (substring n m s) <= String.length s.
Proof.
  revert n m. induction s as [|c s IH]; intros n m.
  - destruct n, m; cbn; lia.
  - destruct n as [|n].
    + destruct m as [|m]; cbn [substring String.length]; [lia |].
      specialize (IH 0 m). lia.
    + cbn [substring String.length]. specialize (IH n m). lia.
Qed.

Lemma string_of_list_length (l : list ascii) :
  String.length (string_of_list_ascii l) = List.length l.
Proof. induction l; cbn; congruence. Qed.

Lemma list_of_string_length (s : string) :
  List.length (list_ascii_of_string s) = String.length s.
Proof. induction s; cbn; congruence. Qed.

Lemma rstrip_seps_rev_length (l : list ascii) :
  List.length (Path.rstrip_seps_rev l) <= List.length l.
Proof.
  induction l as [|c l IH]; cbn [Path.rstrip_seps_rev List.length]; [lia |].
  destruct (Path.is_sep c); cbn [List.length]; lia.
Qed.

Lemma rstrip_seps_length (s : string) :
  String.length (Path.rstrip_seps s) <= String.length s.
Proof.
  unfold Path.rstrip_seps.
  pose proof (string_of_list_length
                (rev (Path.rstrip_seps_rev (rev (list_ascii_of_string s))))) as H.
  rewrite length_rev in H.
  pose proof (rstrip_seps_rev_length (rev (list_ascii_of_string s))) as H'.
  rewrite length_rev, list_of_string_length in H'.
  destruct (string_of_list_ascii _); [lia | lia].
Qed.

Lemma splitdrive_length (p d q : string) :
  Path.splitdrive p = (d, q) -> String.length d + String.length q = String.length p.
Proof.
  unfold Path.splitdrive.
  destruct (get 1 p) as [c|] eqn:G.
  - destruct (Ascii.eqb c Path.colon).
    + intros [= <- <-]. unfold take, drop.
      assert (H2 : 2 <= String.length p)
        by (destruct p as [|a [|b p]]; cbn in G |- *; try discriminate; lia).
      pose proof (f_equal String.length (substring_split 2 p H2)) as E.
      rewrite append_length in E. lia.
    + intros [= <- <-]. reflexivity.
  - intros [= <- <-]. reflexivity.
Qed.

(** The parent of a path is never longer than the path. *)
Lemma dirname_length (p : string) :
  String.length (Path.dirname p) <= String.length p.
Proof.
  unfold Path.dirname, Path.split.
  destruct (Path.splitdrive p) as [d q] eqn:E. cbn [fst].
  apply splitdrive_length in E. rewrite append_length.
  pose proof (rstrip_seps_length
                (take (Z.to_nat (Z.max (rfind Path.sep q) (rfind Path.altsep q) + 1)) q)).
  pose proof (substring_length_le 0
                (Z.to_nat (Z.max (rfind Path.sep q) (rfind Path.altsep q) + 1)) q).
  unfold take in *. lia.
Qed.

Lemma inside_longer (d p : string) :
  inside d p = true -> p = d \/ String.length d < String.length p.
Proof.
  unfold inside. destruct (String.eqb_spec p d) as [-> | _]; [now left |].
  cbn [orb]. destruct (Os.strip_prefix _ p) as [r|] eqn:E; [| discriminate].
  intros _. right. apply strip_prefix_spec in E. subst p.
  rewrite !append_length. cbn. lia.
Qed.

End PathLengths.

Section MakeDirsFuel.

Lemma substring_none (n : nat) (s : string) : substring n 0 s = EmptyString.
Proof.
  revert n. induction s as [|c s IH]; intros [|n]; cbn [substring]; auto.
Qed.

Lemma take_length (n : nat) (s : string) : String.length (take n s) <= n.
Proof.
  unfold take. revert n. induction s as [|c s IH]; intros [|n];
    cbn [substring String.length]; try lia.
  specialize (IH n). lia.
Qed.

(** The parent of a path with a last component is shorter than the path. *)
Lemma dirname_shorter (p : string) :
  Os.is_root p = false -> String.length (Path.dirname p) < String.length p.
Proof.
  unfold Os.is_root, Path.basename, Path.dirname, Path.split.
  destruct (Path.splitdrive p) as [d q] eqn:E. cbn [fst snd].
  apply splitdrive_length in E. rewrite append_length.
  set (i := Z.to_nat (Z.max (rfind Path.sep q) (rfind Path.altsep q) + 1)).
  intros Hr.
  assert (Hi : i < String.length q).
  { destruct (Nat.lt_ge_cases i (String.length q)) as [H | H]; [exact H |].
    unfold drop in Hr. replace (String.length q - i) with 0 in Hr by lia.
    rewrite substring_none in Hr. discriminate Hr. }
  pose proof (rstrip_seps_length (take i q)).
  pose proof (take_length i q). lia.
Qed.

(** The recursion of [makedirs] ends within the fuel it is given: more
    changes nothing. *)
Lemma makedirs_fuel (fuel : nat) (t : FS) (name : string) :
  String.length name < fuel ->
  Os.makedirs_from fuel t name = Os.makedirs t name.
Proof.
  unfold Os.makedirs.
  enough (H : forall n m d, String.length d < n -> String.length d < m ->
                            Os.makedirs_from n t d = Os.makedirs_from m t d)
    by (intros Hf; apply H; lia).
  induction n as [|n IH]; intros [|m] d Hn Hm; try lia.
  cbn [Os.makedirs_from].
  destruct (Os.is_root d) eqn:Er; [reflexivity |].
  destruct (Os.is_root (Path.dirname d) || Os.exists_ t (Path.dirname d));
    [reflexivity |].
  pose proof (dirname_shorter d Er).
  rewrite (IH m (Path.dirname d)) by lia. reflexivity.
Qed.

End MakeDirsFuel.

Section RelocateBack.

Variables src dst : string.

Lemma relocate_eq (p : string) :
  Os.relocate src dst p
  = if String.eqb p src then dst
    else match Os.strip_prefix (src ++ String Path.sep EmptyString) p with
         | Some rest => dst ++ String Path.sep rest
         | None => p
         end.
Proof. reflexivity. Qed.

(** Renaming back undoes the renaming of every node not at or below the
    target. *)
Lemma relocate_round_trip (p : string) :
  inside dst p = false ->
  Os.relocate dst src (Os.relocate src dst p) = p.
Proof.
  intros Hout. unfold inside in Hout. apply orb_false_iff in Hout as [Hne Hpre].
  rewrite relocate_eq.
  destruct (String.eqb_spec p src) as [-> | Hps].
  - unfold Os.relocate. now rewrite String.eqb_refl.
  - destruct (Os.strip_prefix (src ++ String Path.sep EmptyString) p) as [rest|] eqn:E.
    + apply strip_prefix_spec in E. subst p. unfold Os.relocate.
      destruct (String.eqb_spec (dst ++ String Path.sep rest) dst) as [Heq | _].
      * apply (f_equal String.length) in Heq. rewrite append_length in Heq.
        cbn in Heq. lia.
      * assert (S : Os.strip_prefix (dst ++ String Path.sep EmptyString)
                      (dst ++ String Path.sep rest) = Some rest)
          by (apply strip_prefix_spec; now rewrite append_assoc).
        rewrite S. now rewrite append_assoc.
    + unfold Os.relocate. rewrite Hne.
      destruct (Os.strip_prefix (dst ++ String Path.sep EmptyString) p);
        [discriminate | reflexivity].
Qed.

(** No node is renamed to the source, when the source is outside the
    target. *)
Lemma relocate_leaves_source (p : string) :
  inside dst src = false -> Os.relocate src dst p <> src.
Proof.
  intros Hs. unfold inside in Hs. apply orb_false_iff in Hs as [Hne Hpre].
  rewrite relocate_eq.
  destruct (String.eqb_spec p src) as [-> | Hps].
  - intros ->. now rewrite String.eqb_refl in Hne.
  - destruct (Os.strip_prefix (src ++ String Path.sep EmptyString) p) as [rest|];
      [| assumption].
    intros Heq.
    assert (S : Os.strip_prefix (dst ++ String Path.sep EmptyString) src = Some rest)
      by (apply strip_prefix_spec; rewrite <- Heq; now rewrite append_assoc).
    rewrite S in Hpre. discriminate.
Qed.

End RelocateBack.

(** A move of an unlocked node onto a free, unlocked path succeeds. *)
Lemma shutil_move_onto_free (t : FS) (src dst : string) :
  Os.exists_ t src = true ->
  Os.exists_ t dst = false ->
  Os.mem src (locked t) = false ->
  Os.mem dst (locked t) = false ->
  Os.shutil_move t src dst
  = Ok (mkFS (map (fun e => (Os.relocate src dst (fst e), snd e)) (nodes t)) (locked t)).
Proof.
  intros Hs Hd L1 L2. unfold Os.shutil_move. rewrite Hs. cbn [negb].
  assert (Hdir : Os.isdir t dst = false).
  { destruct (Os.isdir t dst) eqn:E; [| reflexivity].
    apply isdir_exists in E. congruence. }
  rewrite Hdir, Hd, L1, L2. cbn [andb orb]. rewrite andb_false_r.
  now rewrite (filter_absent t dst Hd).
Qed.

Lemma last_match_snoc (job_no : string) (rs : list Row) (r : Row) :
  row_matches job_no r = true -> last_match job_no (rs ++ [r]) = Some r.
Proof.
  intros H. unfold last_match. rewrite filter_app. cbn [filter]. rewrite H.
  now rewrite rev_app_distr.
Qed.

Section PromoteRevert.

Variable w : World.
Variables src dest_parent : string.
Variable header : Row.
Variable body : list Row.
Variables fs1 fs2 : FS.

Let job := Path.basename src.
Let dest := Path.join dest_parent job.
Let row : Row := [job; src; dest; now_log w].

(** The transaction log is in use, the destination parent could be made,
    nothing is at or below the destination, the folder has a parent of
    its own in the tree, and the move went through. *)
Hypothesis ledger_rows : rows (revert_log w) = Some (header :: body).
Hypothesis ledger_readable : can_read (revert_log w) = true.
Hypothesis ledger_writable : can_write (revert_log w) = true.
Hypothesis parent_made : Os.makedirs (fs w) dest_parent = Ok fs1.
Hypothesis destination_free : free_subtree fs1 dest.
Hypothesis source_parent : Os.exists_ fs1 (Path.dirname src) = true.
Hypothesis source_not_root : Path.dirname src <> src.
Hypothesis move_done : Os.shutil_move fs1 src dest = Ok fs2.

Let w2 : World := log_revert (set_fs w fs2) job src dest.

Lemma promote_dest_free : Os.exists_ fs1 dest = false.
Proof.
  destruct (Os.exists_ fs1 dest) eqn:E; [| reflexivity].
  apply exists_nodes in E. specialize (destination_free dest E).
  unfold inside in destination_free. now rewrite String.eqb_refl in destination_free.
Qed.

Lemma promote_facts :
  nodes fs2 = map (fun e => (Os.relocate src dest (fst e), snd e)) (nodes fs1)
  /\ locked fs2 = locked fs1
  /\ Os.exists_ fs1 src = true
  /\ Os.mem src (locked fs1) = false /\ Os.mem dest (locked fs1) = false.
Proof. exact (shutil_move_free fs1 fs2 src dest promote_dest_free move_done). Qed.

Lemma promote_source_outside : inside dest src = false.
Proof.
  apply destination_free. apply exists_nodes. apply promote_facts.
Qed.

Lemma promote_move_folder : move_folder w src dest_parent = Returned dest w2.
Proof.
  unfold move_folder. fold job. rewrite parent_made. world_simpl. fold dest.
  rewrite promote_dest_free, move_done. reflexivity.
Qed.

Lemma promote_w2 :
  fs w2 = fs2
  /\ rows (revert_log w2) = Some (header :: (body ++ [row]))%list
  /\ can_read (revert_log w2) = true
  /\ revert_history_log w2 = revert_history_log w
  /\ now_log w2 = now_log w /\ now_compact w2 = now_compact w.
Proof.
  subst w2. unfold log_revert, csv_append. world_simpl. rewrite ledger_writable.
  world_simpl. unfold rows_of. rewrite ledger_rows, ledger_readable.
  repeat split; reflexivity.
Qed.

Lemma promoted_source_gone : Os.exists_ fs2 src = false.
Proof.
  destruct (Os.exists_ fs2 src) eqn:E; [| reflexivity].
  apply exists_nodes in E. destruct promote_facts as (Hn & _).
  rewrite Hn, map_map in E. cbn [fst] in E.
  apply in_map_iff in E as [[p n] [Hp _]]. cbn [fst] in Hp.
  now apply (relocate_leaves_source src dest p promote_source_outside) in Hp.
Qed.

Lemma promoted_dest_there : Os.exists_ fs2 dest = true.
Proof.
  destruct promote_facts as (Hn & _ & Hs & _).
  apply exists_nodes. rewrite Hn, map_map. cbn [fst].
  apply exists_nodes, in_map_iff in Hs as [[p n] [Hp Hin]]. cbn [fst] in Hp. subst p.
  apply in_map_iff. exists (src, n). split; [| assumption].
  cbn [fst]. unfold Os.relocate. now rewrite String.eqb_refl.
Qed.

Lemma promoted_parent_there : Os.exists_ fs2 (Path.dirname src) = true.
Proof.
  destruct promote_facts as (Hn & _).
  apply exists_nodes. rewrite Hn, map_map. cbn [fst].
  apply exists_nodes, in_map_iff in source_parent as [[p n] [Hp Hin]].
  cbn [fst] in Hp. apply in_map_iff. exists (p, n). split; [| assumption].
  cbn [fst]. rewrite Hp. rewrite relocate_eq.
  destruct (String.eqb_spec (Path.dirname src) src) as [E | _]; [contradiction |].
  destruct (Os.strip_prefix _ (Path.dirname src)) as [rest|] eqn:E; [| reflexivity].
  apply strip_prefix_spec in E. apply (f_equal String.length) in E.
  rewrite !append_length in E. pose proof (dirname_length src). cbn in E. lia.
Qed.

Lemma revert_move_back : Os.shutil_move fs2 dest src = Ok fs1.
Proof.
  destruct promote_facts as (Hn & Hl & Hs & L1 & L2).
  rewrite shutil_move_onto_free;
    [| exact promoted_dest_there | exact promoted_source_gone
     | now rewrite Hl | now rewrite Hl].
  f_equal. rewrite Hn, Hl, map_map. cbn [fst snd].
  destruct fs1 as [ns ls]. cbn [nodes locked] in *. f_equal.
  rewrite <- (map_id ns) at 2. apply map_ext_in. intros [p n] Hin. cbn [fst snd].
  f_equal. apply relocate_round_trip. apply destination_free.
  cbn [nodes]. apply in_map_iff. now exists (p, n).
Qed.

Lemma row_matches_row : row_matches job row = true.
Proof. subst row. unfold row_matches. cbn. now rewrite String.eqb_refl. Qed.

Lemma promote_revert_outcome :
  move_folder w src dest_parent = Returned dest w2
  /\ fs w2 = fs2
  /\ rows_of (revert_log w2) = (rows_of (revert_log w) ++ [row])%list
  /\ revert_job w2 job
     = (log_revert_history (set_fs w2 fs1) job dest src "SUCCESS",
        "Reverted successfully to " ++ src)
  /\ fs (fst (revert_job w2 job)) = fs1
  /\ revert_log (fst (revert_job w2 job)) = revert_log w2.
Proof.
  destruct promote_w2 as (Hfs & Hrows & Hread & _).
  assert (Hrev : revert_job w2 job
                 = (log_revert_history (set_fs w2 fs1) job dest src "SUCCESS",
                    "Reverted successfully to " ++ src)).
  { rewrite (revert_job_after_read w2 job header (body ++ [row]) Hrows Hread).
    rewrite (last_match_snoc job body row row_matches_row).
    cbv zeta. change (col 1 row) with src. change (col 2 row) with dest.
    rewrite Hfs, promoted_dest_there, promoted_parent_there, promoted_source_gone.
    cbn [negb]. now rewrite revert_move_back. }
  conj_split.
  - exact promote_move_folder.
  - exact Hfs.
  - unfold rows_of. now rewrite Hrows, ledger_rows.
  - exact Hrev.
  - rewrite Hrev. cbn [fst]. apply (log_revert_history_frame (set_fs w2 fs1)).
  - rewrite Hrev. cbn [fst]. apply (log_revert_history_frame (set_fs w2 fs1)).
Qed.

(** X12. Promotion can be undone: after [move_folder] has moved a job folder
    onto a destination with nothing at or below it and has written its
    transaction, [revert_job] for that folder answers with success and
    the job tree is again the tree the folder was moved from; the
    transaction log is as the promotion left it. *)
Theorem promote_then_revert_restores :
  move_folder w src dest_parent = Returned dest w2
  /\ fs w2 = fs2
  /\ rows_of (revert_log w2) = (rows_of (revert_log w) ++ [row])%list
  /\ revert_job w2 job
     = (log_revert_history (set_fs w2 fs1) job dest src "SUCCESS",
        "Reverted successfully to " ++ src)
  /\ fs (fst (revert_job w2 job)) = fs1
  /\ revert_log (fst (revert_job w2 job)) = revert_log w2.
Proof. exact promote_revert_outcome. Qed.

(** X13. A revert cannot be repeated: once a promotion has been reverted, a
    second [revert_job] for the folder finds nothing at the moved path,
    answers that the folder no longer exists there, moves nothing and
    records the failure in the history. *)
Theorem revert_twice_refused :
  let w3 := fst (revert_job w2 job) in
  revert_job w3 job
  = (log_revert_history w3 job dest src "FAILED: Folder not at moved location",
     "Folder no longer exists at: " ++ dest)
  /\ fs (fst (revert_job w3 job)) = fs w3
  /\ fs w3 = fs1.
Proof.
  destruct promote_revert_outcome as (_ & _ & _ & Hrev & Hfs3 & Hlog3).
  destruct promote_w2 as (_ & Hrows & Hread & _).
  cbv zeta. set (w3 := fst (revert_job w2 job)) in *.
  assert (Hrows3 : rows (revert_log w3) = Some (header :: (body ++ [row]))%list)
    by now rewrite Hlog3.
  assert (Hread3 : can_read (revert_log w3) = true) by now rewrite Hlog3.
  assert (Hrev3 : revert_job w3 job
                  = (log_revert_history w3 job dest src
                       "FAILED: Folder not at moved location",
                     "Folder no longer exists at: " ++ dest)).
  { rewrite (revert_job_after_read w3 job header (body ++ [row]) Hrows3 Hread3).
    rewrite (last_match_snoc job body row row_matches_row).
    cbv zeta. change (col 1 row) with src. change (col 2 row) with dest.
    rewrite Hfs3, promote_dest_free. reflexivity. }
  conj_split.
  - exact Hrev3.
  - rewrite Hrev3. cbn [fst]. apply (log_revert_history_frame w3).
  - exact Hfs3.
Qed.

(** X14. The revert manager tells the two states apart: for the transaction a
    promotion has written, [check_status] answers not reverted on the
    tree the promotion leaves and reverted on the tree the revert
    leaves. *)
Theorem check_status_follows_revert :
  check_status (fs w2) row = Some false
  /\ check_status (fs (fst (revert_job w2 job))) row = Some true.
Proof.
  destruct promote_revert_outcome as (_ & Hfs & _ & _ & Hfs3 & _).
  rewrite Hfs, Hfs3. unfold check_status.
  change (col 1 row) with src. change (col 2 row) with dest. cbn [List.length row Nat.ltb Nat.leb].
  split.
  - now rewrite promoted_source_gone, promoted_dest_there.
  - destruct promote_facts as (_ & _ & Hs & _). now rewrite Hs.
Qed.

End PromoteRevert.

Ltac solve_free_subtree :=
  let p := fresh "p" in
  let Hp := fresh "Hp" in
  intros p Hp; cbn [map fst nodes Scenario.tree] in Hp;
  repeat (destruct Hp as [<- | Hp]; [reflexivity |]); contradiction.

Lemma promote_then_revert_restores_witness :
  exists w2,
    move_folder Scenario.world Scenario.job_451 Scenario.bmw
    = Returned (Path.join Scenario.bmw "IR00451") w2
    /\ fs (fst (revert_job w2 "IR00451")) = Scenario.tree
    /\ revert_log (fst (revert_job w2 "IR00451")) = revert_log w2.
Proof.
  destruct (promote_then_revert_restores Scenario.world Scenario.job_451 Scenario.bmw
              Scenario.revert_header [] Scenario.tree _
              eq_refl eq_refl eq_refl eq_refl ltac:(solve_free_subtree) eq_refl
              ltac:(discriminate) eq_refl)
    as (Hmove & _ & _ & _ & Hfs & Hlog).
  eexists. split; [exact Hmove | split; [exact Hfs | exact Hlog]].
Defined.

Lemma revert_twice_refused_witness :
  exists w3,
    snd (revert_job w3 "IR00451")
    = "Folder no longer exists at: Z:\BILLING 2025-2026\BMW INDIA PVT LTD\IR00451"
    /\ fs (fst (revert_job w3 "IR00451")) = fs w3
    /\ fs w3 = Scenario.tree.
Proof.
  destruct (revert_twice_refused Scenario.world Scenario.job_451 Scenario.bmw
              Scenario.revert_header [] Scenario.tree _
              eq_refl eq_refl eq_refl eq_refl ltac:(solve_free_subtree) eq_refl
              ltac:(discriminate) eq_refl)
    as (Hrev & Hfs & Hfs3).
  refine (ex_intro _ _ (conj _ (conj Hfs Hfs3))).
  exact (f_equal snd Hrev).
Defined.

Lemma check_status_follows_revert_witness :
  exists t_promoted t_reverted,
    check_status t_promoted
      ["IR00451"; Scenario.job_451; Path.join Scenario.bmw "IR00451"; "2026-01-15 10:30:00"]
    = Some false
    /\ check_status t_reverted
         ["IR00451"; Scenario.job_451; Path.join Scenario.bmw "IR00451";
          "2026-01-15 10:30:00"]
       = Some true.
Proof.
  destruct (check_status_follows_revert Scenario.world Scenario.job_451 Scenario.bmw
              Scenario.revert_header [] Scenario.tree _
              eq_refl eq_refl eq_refl eq_refl ltac:(solve_free_subtree) eq_refl
              ltac:(discriminate) eq_refl)
    as (H1 & H2).
  eexists _, _. split; [exact H1 | exact H2].
Defined.

(** ** Deleting ledger rows *)

Lemma filter_matches_kept (jobs_to_delete : list string) (body : list Row) (job_no : string) :
  Os.mem job_no jobs_to_delete = false ->
  filter (row_matches job_no) (filter (row_kept jobs_to_delete) body)
  = filter (row_matches job_no) body.
Proof.
  intros Hk. induction body as [|r rs IH]; [reflexivity |].
  cbn [filter]. destruct (row_kept jobs_to_delete r) eqn:Ek.
  - cbn [filter]. now rewrite IH.
  - rewrite IH. destruct (row_matches job_no r) eqn:Em; [| reflexivity].
    apply row_matches_exact in Em as [Hlen Hc]. unfold row_kept in Ek.
    rewrite Hc, Hk in Ek. destruct (Nat.ltb_spec 0 (List.length r)); [discriminate | lia].
Qed.

Lemma filter_matches_deleted (jobs_to_delete : list string) (body : list Row) (job_no : string) :
  Os.mem job_no jobs_to_delete = true ->
  filter (row_matches job_no) (filter (row_kept jobs_to_delete) body) = [].
Proof.
  intros Hk. induction body as [|r rs IH]; [reflexivity |].
  cbn [filter]. destruct (row_kept jobs_to_delete r) eqn:Ek; [| exact IH].
  cbn [filter]. rewrite IH. destruct (row_matches job_no r) eqn:Em; [| reflexivity].
  apply row_matches_exact in Em as [Hlen Hc]. unfold row_kept in Ek.
  rewrite Hc, Hk in Ek. now rewrite andb_false_r in Ek.
Qed.

Section DeleteLogs.

Variable w : World.
Variable jobs_to_delete : list string.
Variable header : Row.
Variable body : list Row.

Hypothesis some_checked : jobs_to_delete <> [].
Hypothesis ledger_rows : rows (revert_log w) = Some (header :: body).
Hypothesis ledger_readable : can_read (revert_log w) = true.
Hypothesis ledger_writable : can_write (revert_log w) = true.

Let w' := delete_logs w jobs_to_delete.

Lemma delete_logs_result :
  w' = set_revert_log w
         (mkLog (Some (header :: filter (row_kept jobs_to_delete) body)) true true).
Proof.
  subst w'. unfold delete_logs, csv_read, csv_rewrite.
  destruct jobs_to_delete; [contradiction |].
  rewrite ledger_rows, ledger_readable, ledger_writable. reflexivity.
Qed.

(** X15. Deleting the ledger rows of the checked jobs moves no folder and
    removes every row of those jobs, not only the checked one: a later
    [revert_job] for any of them is refused for want of an entry and
    changes nothing. *)
Theorem delete_logs_forgets_jobs (job_no : string) :
  In job_no jobs_to_delete ->
  fs w' = fs w
  /\ (forall r, In r (tl (rows_of (revert_log w'))) -> row_matches job_no r = false)
  /\ revert_job w' job_no = (w', "No revert entry found for " ++ job_no ++ ".").
Proof.
  intros Hin. apply mem_In in Hin. rewrite delete_logs_result. world_simpl. cbn [tl].
  assert (Hnone : forall r, In r (filter (row_kept jobs_to_delete) body) ->
                            row_matches job_no r = false).
  { intros r Hr. destruct (row_matches job_no r) eqn:Em; [| reflexivity].
    assert (Hf : In r (filter (row_matches job_no)
                         (filter (row_kept jobs_to_delete) body)))
      by (apply filter_In; split; assumption).
    rewrite (filter_matches_deleted _ _ job_no Hin) in Hf. destruct Hf. }
  conj_split; [reflexivity | exact Hnone |].
  rewrite (revert_job_after_read
             (set_revert_log w
                (mkLog (Some (header :: filter (row_kept jobs_to_delete) body)) true true))
             job_no header (filter (row_kept jobs_to_delete) body) eq_refl eq_refl).
  now rewrite (proj2 (last_match_none job_no _) Hnone).
Qed.

(** X16. Deleting ledger rows leaves the other jobs revertible as before: for
    a job that is not among the deleted ones the ledger still selects the
    same row, and [revert_job] gives the same answer and the same tree
    as it would have without the deletion. *)
Theorem delete_logs_spares_other_jobs (job_no : string) :
  ~ In job_no jobs_to_delete ->
  last_match job_no (tl (rows_of (revert_log w'))) = last_match job_no body
  /\ snd (revert_job w' job_no) = snd (revert_job w job_no)
  /\ fs (fst (revert_job w' job_no)) = fs (fst (revert_job w job_no)).
Proof.
  intros Hnot.
  assert (Hk : Os.mem job_no jobs_to_delete = false).
  { destruct (Os.mem job_no jobs_to_delete) eqn:E; [| reflexivity].
    apply mem_In in E. contradiction. }
  assert (Hsel : last_match job_no (filter (row_kept jobs_to_delete) body)
                 = last_match job_no body)
    by (unfold last_match; now rewrite (filter_matches_kept _ _ job_no Hk)).
  rewrite delete_logs_result. world_simpl. cbn [tl]. split; [exact Hsel |].
  rewrite (revert_job_after_read
             (set_revert_log w
                (mkLog (Some (header :: filter (row_kept jobs_to_delete) body)) true true))
             job_no header (filter (row_kept jobs_to_delete) body) eq_refl eq_refl).
  rewrite (revert_job_after_read w job_no header body ledger_rows ledger_readable).
  rewrite Hsel. world_simpl.
  destruct (last_match job_no body) as [last|]; [| split; reflexivity].
  cbv zeta.
  destruct (Os.exists_ (fs w) (col 2 last)); cbn [negb].
  2:{ split; [reflexivity |]. cbn [fst].
      etransitivity; [apply log_revert_history_frame |].
      symmetry. apply (log_revert_history_frame w). }
  destruct (Os.exists_ (fs w) (Path.dirname (col 1 last))); cbn [negb].
  2:{ split; [reflexivity |]. cbn [fst].
      etransitivity; [apply log_revert_history_frame |].
      symmetry. apply (log_revert_history_frame w). }
  destruct (Os.shutil_move _ _ _) as [t|e].
  - split; [reflexivity |]. cbn [fst].
    etransitivity; [apply log_revert_history_frame |].
    symmetry. apply (log_revert_history_frame (set_fs w t)).
  - destruct e as [m|m]; cbn [revert_handler fst snd];
      (split; [reflexivity |]);
      (etransitivity; [apply log_revert_history_frame |]);
      symmetry; apply (log_revert_history_frame w).
Qed.

End DeleteLogs.

Lemma delete_logs_forgets_jobs_witness :
  revert_job (delete_logs Scenario.world_300 ["IR00300 - BMW"]) "IR00300 - BMW"
  = (delete_logs Scenario.world_300 ["IR00300 - BMW"],
     "No revert entry found for IR00300 - BMW.").
Proof.
  apply (delete_logs_forgets_jobs Scenario.world_300 ["IR00300 - BMW"]
           Scenario.revert_header _ ltac:(discriminate) eq_refl eq_refl eq_refl).
  now left.
Defined.

Lemma delete_logs_spares_other_jobs_witness :
  snd (revert_job (delete_logs Scenario.world_300 ["IR00777"]) "IR00300 - BMW")
  = snd (revert_job Scenario.world_300 "IR00300 - BMW")
  /\ fs (fst (revert_job (delete_logs Scenario.world_300 ["IR00777"]) "IR00300 - BMW"))
     = fs (fst (revert_job Scenario.world_300 "IR00300 - BMW")).
Proof.
  apply (delete_logs_spares_other_jobs Scenario.world_300 ["IR00777"]
           Scenario.revert_header _ ltac:(discriminate) eq_refl eq_refl eq_refl).
  intros [H | []]. discriminate H.
Defined.

(** ** Start-up *)

Section StartUp.

Lemma init_log_spec (l l' : LogFile) (h : Row) :
  init_log l h = Ok l' ->
  rows l' = Some (match rows l with Some rs => rs | None => [h] end)
  /\ (rows l <> None -> l' = l)
  /\ init_log l' h = Ok l'.
Proof.
  unfold init_log, csv_create. destruct (rows l) as [rs|] eqn:E.
  - intros [= <-]. rewrite E. repeat split.
  - destruct (can_write l); [| discriminate]. intros [= <-]. cbn [rows].
    repeat split. intros H. now contradiction H.
Qed.

End StartUp.

(** X17. When [ensure_directories_and_logs] returns, the log directory and the
    inbox are directories of the tree and no node was removed; each of the
    four logs it looks after exists, one that existed before with its
    rows untouched, one that did not with the header row alone; the
    revert history is not among them and is left as found. *)
Theorem ensure_directories_and_logs_keeps_logs (w w' : World) :
  ensure_directories_and_logs w = Returned tt w' ->
  Os.isdir (fs w') LOG_DIR = true
  /\ Os.isdir (fs w') UPLOAD_OOC = true
  /\ (forall p n, In (p, n) (nodes (fs w)) -> In (p, n) (nodes (fs w')))
  /\ rows (move_log w')
     = Some (match rows (move_log w) with Some rs => rs | None => [MOVE_LOG_HEADER] end)
  /\ rows (revert_log w')
     = Some (match rows (revert_log w) with Some rs => rs | None => [REVERT_LOG_HEADER] end)
  /\ rows (ooc_upload_log w')
     = Some (match rows (ooc_upload_log w) with
             | Some rs => rs
             | None => [OOC_UPLOAD_LOG_HEADER]
             end)
  /\ rows (loose_file_log w')
     = Some (match rows (loose_file_log w) with
             | Some rs => rs
             | None => [LOOSE_FILE_LOG_HEADER]
             end)
  /\ revert_history_log w' = revert_history_log w.
Proof.
  unfold ensure_directories_and_logs.
  destruct (Os.makedirs (fs w) LOG_DIR) as [fs1|e] eqn:M1; [| discriminate].
  world_simpl.
  destruct (Os.makedirs fs1 UPLOAD_OOC) as [fs2|e] eqn:M2; [| discriminate].
  world_simpl.
  destruct (init_log (move_log w) MOVE_LOG_HEADER) as [l3|e] eqn:I3; [| discriminate].
  world_simpl.
  destruct (init_log (revert_log w) REVERT_LOG_HEADER) as [l4|e] eqn:I4; [| discriminate].
  world_simpl.
  destruct (init_log (ooc_upload_log w) OOC_UPLOAD_LOG_HEADER) as [l5|e] eqn:I5;
    [| discriminate].
  world_simpl.
  destruct (init_log (loose_file_log w) LOOSE_FILE_LOG_HEADER) as [l6|e] eqn:I6;
    [| discriminate].
  intros [= <-]. world_simpl.
  destruct (makedirs_made _ _ _ M1) as (_ & K1 & _ & N1 & P1).
  destruct (makedirs_made _ _ _ M2) as (_ & K2 & _ & N2 & P2).
  destruct (P1 eq_refl) as [D1 _]. destruct (P2 eq_refl) as [D2 _].
  conj_split; try reflexivity.
  - now apply K2.
  - exact D2.
  - intros p n Hin. now apply N2, N1.
  - apply (init_log_spec _ _ _ I3).
  - apply (init_log_spec _ _ _ I4).
  - apply (init_log_spec _ _ _ I5).
  - apply (init_log_spec _ _ _ I6).
Qed.

Lemma ensure_directories_and_logs_keeps_logs_witness :
  exists w',
    ensure_directories_and_logs Scenario.world = Returned tt w'
    /\ rows (revert_log w') = rows (revert_log Scenario.world)
    /\ Os.isdir (fs w') LOG_DIR = true.
Proof.
  eexists. split; [reflexivity |].
  destruct (ensure_directories_and_logs_keeps_logs Scenario.world _ eq_refl)
    as (H1 & _ & _ & _ & H5 & _).
  split; [exact H5 | exact H1].
Defined.

(** X18. Start-up can be repeated: a second [ensure_directories_and_logs] on
    the world the first one returns returns that same world. *)
Theorem ensure_directories_and_logs_idempotent (w w' : World) :
  ensure_directories_and_logs w = Returned tt w' ->
  ensure_directories_and_logs w' = Returned tt w'.
Proof.
  unfold ensure_directories_and_logs at 1.
  destruct (Os.makedirs (fs w) LOG_DIR) as [fs1|e] eqn:M1; [| discriminate].
  world_simpl.
  destruct (Os.makedirs fs1 UPLOAD_OOC) as [fs2|e] eqn:M2; [| discriminate].
  world_simpl.
  destruct (init_log (move_log w) MOVE_LOG_HEADER) as [l3|e] eqn:I3; [| discriminate].
  world_simpl.
  destruct (init_log (revert_log w) REVERT_LOG_HEADER) as [l4|e] eqn:I4; [| discriminate].
  world_simpl.
  destruct (init_log (ooc_upload_log w) OOC_UPLOAD_LOG_HEADER) as [l5|e] eqn:I5;
    [| discriminate].
  world_simpl.
  destruct (init_log (loose_file_log w) LOOSE_FILE_LOG_HEADER) as [l6|e] eqn:I6;
    [| discriminate].
  intros [= <-].
  destruct (makedirs_made _ _ _ M1) as (_ & K1 & _ & N1 & P1).
  destruct (makedirs_made _ _ _ M2) as (_ & K2 & X2 & N2 & P2).
  destruct (P1 eq_refl) as [D1 H1]. destruct (P2 eq_refl) as [D2 H2].
  assert (H1' : (Os.is_root (Path.dirname LOG_DIR)
                 || Os.exists_ fs2 (Path.dirname LOG_DIR)) = true).
  { apply orb_true_iff in H1 as [H1 | H1]; apply orb_true_iff; [left | right]; auto. }
  unfold ensure_directories_and_logs. world_simpl.
  rewrite (makedirs_again fs2 LOG_DIR (K2 _ D1) H1'). world_simpl.
  rewrite (makedirs_again fs2 UPLOAD_OOC D2 H2). world_simpl.
  rewrite (proj2 (proj2 (init_log_spec _ _ _ I3))). world_simpl.
  rewrite (proj2 (proj2 (init_log_spec _ _ _ I4))). world_simpl.
  rewrite (proj2 (proj2 (init_log_spec _ _ _ I5))). world_simpl.
  rewrite (proj2 (proj2 (init_log_spec _ _ _ I6))). world_simpl.
  reflexivity.
Qed.

Lemma ensure_directories_and_logs_idempotent_witness :
  exists w',
    ensure_directories_and_logs Scenario.world = Returned tt w'
    /\ ensure_directories_and_logs w' = Returned tt w'.
Proof.
  eexists. split; [reflexivity |].
  apply (ensure_directories_and_logs_idempotent Scenario.world). reflexivity.
Defined.

(** ** The revert manager's table *)

(** X19. In the table of the revert manager the two filtered views never share
    a row and both are part of the unfiltered view: a row is shown as not
    reverted only if something is at its moved path and nothing at its
    original path, as already reverted only if something is at its
    original path. *)
Theorem load_rows_views (w : World) (search : string) (row : Row) :
  (In row (load_rows w search FilterNotReverted) ->
     In row (load_rows w search FilterAll)
     /\ Os.exists_ (fs w) (col 1 row) = false
     /\ Os.exists_ (fs w) (col 2 row) = true
     /\ ~ In row (load_rows w search FilterAlreadyReverted))
  /\ (In row (load_rows w search FilterAlreadyReverted) ->
        In row (load_rows w search FilterAll)
        /\ Os.exists_ (fs w) (col 1 row) = true
        /\ ~ In row (load_rows w search FilterNotReverted)).
Proof.
  unfold load_rows. rewrite !filter_In. unfold row_shown, check_status.
  destruct row as [|c0 rest]; [split; intros [_ H]; discriminate H |].
  destruct (negb _ && negb _); [split; intros [_ H]; discriminate H |].
  destruct (List.length (c0 :: rest) <? 3); [split; intros [_ H]; discriminate H |].
  destruct (Os.exists_ (fs w) (col 1 (c0 :: rest)));
    [| destruct (Os.exists_ (fs w) (col 2 (c0 :: rest)))];
    split; intros [Hin H]; try discriminate H;
    conj_split;
    first [ reflexivity | assumption | intros [_ H']; discriminate H' ].
Qed.

Lemma load_rows_views_witness :
  In (nth 3 (rows_of Scenario.ledger_300) [])
     (load_rows Scenario.world_300 "bmw" FilterAll)
  /\ ~ In (nth 3 (rows_of Scenario.ledger_300) [])
          (load_rows Scenario.world_300 "bmw" FilterAlreadyReverted).
Proof.
  destruct (proj1 (load_rows_views Scenario.world_300 "bmw"
                     (nth 3 (rows_of Scenario.ledger_300) [])))
    as (H1 & _ & _ & H4).
  - vm_compute. left. reflexivity.
  - split; [exact H1 | exact H4].
Defined.

(** ** Loose file organizer: one poll cycle *)

Section LooseCycle.

Lemma loose_file_touches_refl (w : World) : loose_file_touches w w.
Proof.
  unfold loose_file_touches. conj_split; try reflexivity; try lia.
  exists []. rewrite app_nil_r. conj_split; [reflexivity | constructor |].
  intros _. cbn. lia.
Qed.

Lemma loose_file_touches_trans (w1 w2 w3 : World) :
  loose_file_touches w1 w2 -> loose_file_touches w2 w3 -> loose_file_touches w1 w3.
Proof.
  unfold loose_file_touches.
  intros (A1 & A2 & A3 & A4 & A5 & A6 & A7 & A8 & A9 & A10 & add1 & A11 & A12 & A13)
         (B1 & B2 & B3 & B4 & B5 & B6 & B7 & B8 & B9 & B10 & add2 & B11 & B12 & B13).
  conj_split; try congruence; try lia.
  exists (add1 ++ add2)%list. conj_split.
  - now rewrite B11, A11, app_assoc.
  - apply Forall_app. now split.
  - intros Hw. rewrite length_app. specialize (A13 Hw).
    rewrite <- A7 in Hw. specialize (B13 Hw). lia.
Qed.

(** Logging a moved file or a failed move and counting it. *)
Lemma loose_file_report_touches (w : World) (x : FS) (k : Ending) (a b c d f : string) :
  k <> EndSkipped ->
  let w1 := log_loose_file (set_fs w x) a b c d f in
  loose_file_touches w (set_loose_file_stats w1 (ending_bump k (loose_file_stats w1)))
  /\ fs (set_loose_file_stats w1 (ending_bump k (loose_file_stats w1))) = x.
Proof.
  intros Hk w1. subst w1. unfold loose_file_touches, log_loose_file, csv_append.
  world_simpl.
  destruct (can_write (loose_file_log w)) eqn:E; destruct k; try contradiction;
    cbn [ending_bump]; world_simpl;
    (conj_split; try reflexivity; try assumption; try lia;
     first [ exists []; rewrite app_nil_r;
             conj_split; [reflexivity | constructor | discriminate]
           | eexists; conj_split;
             [ reflexivity
             | constructor; [reflexivity | constructor]
             | intros _; cbn; lia ] ]).
Qed.

Lemma loose_file_report_touches_here (w : World) (k : Ending) (a b c d f : string) :
  k <> EndSkipped ->
  let w1 := log_loose_file w a b c d f in
  loose_file_touches w (set_loose_file_stats w1 (ending_bump k (loose_file_stats w1)))
  /\ fs (set_loose_file_stats w1 (ending_bump k (loose_file_stats w1))) = fs w.
Proof.
  intros Hk. destruct w as [t l1 l2 l3 l4 l5 s1 s2 s3 n1 n2].
  exact (loose_file_report_touches (mkWorld t l1 l2 l3 l4 l5 s1 s2 s3 n1 n2) t k
           a b c d f Hk).
Qed.

Lemma join_has_prefix (a b : string) :
  a <> EmptyString -> exists f, Path.join a b = a ++ f.
Proof.
  intros Ha. unfold Path.join. destruct a as [|c a]; [contradiction |].
  destruct (Path.ends_with_sep (String c a)); now eexists.
Qed.

Lemma loose_file_body_inv (w : World) (company_folder item : string) :
  let w' := loose_file_body w company_folder item in
  loose_file_touches w w'
  /\ tree_kept_outside (Path.join BILLING_BASE EmptyString) (fs w) (fs w').
Proof.
  assert (Hrefl : loose_file_touches w w
                  /\ tree_kept_outside (Path.join BILLING_BASE EmptyString) (fs w) (fs w))
    by (split; [apply loose_file_touches_refl | apply tree_kept_outside_refl]).
  cbv zeta. unfold loose_file_body.
  destruct (Os.isdir _ _); [exact Hrefl |].
  destruct (negb _); [exact Hrefl |].
  destruct (extract_job_number item) as [job_number|]; [| exact Hrefl].
  destruct (find_matching_job_folder _ _ _) as [job_folder_path|]; [| exact Hrefl].
  destruct (unique_filename _ _) as [dest_path|] eqn:Hu; [| exact Hrefl].
  assert (Hfree : Os.exists_ (fs w) dest_path = false).
  { destruct (unique_filename_total (fs w) (Path.join job_folder_path item))
      as [r [Hr Hf]]. congruence. }
  destruct (Os.shutil_move _ _ _) as [fs'|e] eqn:Hm.
  - match goal with
    | |- context [log_loose_file (set_fs w fs') ?a ?b ?c ?d ?f] =>
        destruct (loose_file_report_touches w fs' EndMoved a b c d f) as [Ht Hf];
          [discriminate |]
    end.
    cbn [ending_bump] in Ht, Hf. split; [exact Ht |]. rewrite Hf.
    rewrite (join_prefix BILLING_BASE company_folder) in Hm by discriminate.
    destruct (join_has_prefix (Path.join BILLING_BASE EmptyString ++ company_folder) item)
      as [f Hj]; [discriminate |].
    rewrite Hj, append_assoc in Hm.
    eapply shutil_move_kept_outside; eassumption.
  - match goal with
    | |- context [log_loose_file w ?a ?b ?c ?d ?f] =>
        destruct (loose_file_report_touches_here w EndError a b c d f) as [Ht Hf];
          [discriminate |]
    end.
    cbn [ending_bump] in Ht, Hf. split; [exact Ht |]. rewrite Hf.
    apply tree_kept_outside_refl.
Qed.

Lemma loose_items_inv (company_folder : string) (items : list string) (w : World) :
  let w' := fold_left (fun w0 item => loose_file_body w0 company_folder item) items w in
  loose_file_touches w w'
  /\ tree_kept_outside (Path.join BILLING_BASE EmptyString) (fs w) (fs w').
Proof.
  cbv zeta. revert w. induction items as [|item rest IH]; intros w; cbn [fold_left].
  - split; [apply loose_file_touches_refl | apply tree_kept_outside_refl].
  - destruct (loose_file_body_inv w company_folder item) as [H1 H2].
    destruct (IH (loose_file_body w company_folder item)) as [H3 H4].
    split; [eapply loose_file_touches_trans | eapply tree_kept_outside_trans];
      eassumption.
Qed.

(** A listing of a company folder that raises ends the loop where it
    stands. *)
Lemma loose_file_loop_inv (companies : list string) (w : World) :
  match loose_file_loop w companies with
  | Next w' | Escape _ w' =>
      loose_file_touches w w'
      /\ tree_kept_outside (Path.join BILLING_BASE EmptyString) (fs w) (fs w')
  end.
Proof.
  revert w. induction companies as [|c rest IH]; intros w; cbn [loose_file_loop].
  - split; [apply loose_file_touches_refl | apply tree_kept_outside_refl].
  - unfold loose_company_body.
    destruct (Os.isdir (fs w) (Path.join BILLING_BASE c)); cbn [negb];
      [| exact (IH w)].
    destruct (Os.mem c skip_folders); [exact (IH w) |].
    destruct (Os.listdir (fs w) (Path.join BILLING_BASE c)) as [items|e].
    + destruct (loose_items_inv c items w) as [H1 H2].
      specialize (IH (fold_left (fun w0 item => loose_file_body w0 c item) items w)).
      destruct (loose_file_loop _ rest) as [w'|e w']; destruct IH as [H3 H4];
        (split; [eapply loose_file_touches_trans | eapply tree_kept_outside_trans];
         eassumption).
    + split; [apply loose_file_touches_refl | apply tree_kept_outside_refl].
Qed.

End LooseCycle.

(** X20. One poll cycle of the loose file organizer moves entries of the
    billing tree only, and onto free paths: every node whose path is not
    below the billing base is where it was, the tree has no fewer nodes
    than before, no lock changes; and of the logs and counters the
    cycle touches only its own. *)
Theorem loose_file_cycle_keeps_tree (w : World) :
  let w' := loose_file_cycle w in
  locked (fs w') = locked (fs w)
  /\ List.length (nodes (fs w)) <= List.length (nodes (fs w'))
  /\ (forall p n,
        In (p, n) (nodes (fs w)) ->
        Os.strip_prefix (Path.join BILLING_BASE EmptyString) p = None ->
        In (p, n) (nodes (fs w')))
  /\ move_log w' = move_log w
  /\ revert_log w' = revert_log w
  /\ revert_history_log w' = revert_history_log w
  /\ ooc_upload_log w' = ooc_upload_log w
  /\ ooc_upload_stats w' = ooc_upload_stats w
  /\ job_move_stats w' = job_move_stats w.
Proof.
  cbv zeta. unfold loose_file_cycle.
  destruct (Os.listdir (fs w) BILLING_BASE) as [companies|e].
  - pose proof (loose_file_loop_inv companies w) as H.
    destruct (loose_file_loop w companies) as [w'|e w'];
      destruct H as [(A1 & A2 & A3 & A4 & A5 & A6 & _) (K1 & K2 & K3)];
      world_simpl; conj_split; try assumption; lia.
  - world_simpl. conj_split; try reflexivity; auto.
Qed.

(** X21. With a writable log, the rows one cycle of the loose file organizer
    appends have six columns each and are as many as the files it counts
    as moved or as errors, but for at most one error: the one counted
    when an exception ends the cycle (a company folder that cannot be
    listed), which has no row.  The cycle never counts a file as skipped. *)
Theorem loose_file_cycle_rows_counted (w : World) :
  can_write (loose_file_log w) = true ->
  let w' := loose_file_cycle w in
  let counted :=
    (moved (loose_file_stats w') + errors (loose_file_stats w'))
    - (moved (loose_file_stats w) + errors (loose_file_stats w)) in
  skipped (loose_file_stats w') = skipped (loose_file_stats w)
  /\ exists added,
       rows_of (loose_file_log w') = (rows_of (loose_file_log w) ++ added)%list
       /\ Forall (fun r => List.length r = 6) added
       /\ List.length added <= counted <= List.length added + 1.
Proof.
  intros Hw. cbv zeta. unfold loose_file_cycle.
  destruct (Os.listdir (fs w) BILLING_BASE) as [companies|e].
  - pose proof (loose_file_loop_inv companies w) as H.
    destruct (loose_file_loop w companies) as [w'|e w'];
      destruct H
        as [(_ & _ & _ & _ & _ & _ & _ & A8 & A9 & A10 & added & A11 & A12 & A13) _];
      specialize (A13 Hw); world_simpl;
      (split; [exact A9 |]); exists added; (conj_split; [assumption | assumption | lia | lia]).
  - world_simpl. split; [reflexivity |]. exists []. rewrite app_nil_r.
    conj_split; [reflexivity | constructor | cbn; lia | cbn; lia].
Qed.

(** A cycle that moves one file, and one that a closed company folder
    ends: an error is counted and no row is written. *)
Lemma loose_file_cycle_rows_counted_witness :
  (exists added,
     rows_of (loose_file_log (loose_file_cycle Scenario.world))
     = (rows_of (loose_file_log Scenario.world) ++ added)%list
     /\ List.length added = 1)
  /\ rows_of (loose_file_log (loose_file_cycle Scenario.world_company_closed))
     = rows_of (loose_file_log Scenario.world_company_closed)
  /\ errors (loose_file_stats (loose_file_cycle Scenario.world_company_closed)) = 1.
Proof.
  split.
  - destruct (loose_file_cycle_rows_counted Scenario.world eq_refl)
      as (_ & added & H1 & _ & H3).
    exists added. split; [exact H1 |].
    assert (H4 : List.length (rows_of (loose_file_log (loose_file_cycle Scenario.world)))
                 = List.length (rows_of (loose_file_log Scenario.world) ++ added)%list)
      by (rewrite H1; reflexivity).
    rewrite length_app in H4. vm_compute in H4. injection H4 as H4.
    exact (eq_sym H4).
  - split; reflexivity.
Defined.

(** ** Batch revert *)

Lemma revert_job_ledger_untouched (w : World) (job_no : string) :
  revert_log (fst (revert_job w job_no)) = revert_log w.
Proof.
  unfold revert_job.
  destruct (rows (revert_log w)) as [rs|]; [| reflexivity].
  destruct (csv_read (revert_log w)) as [all_rows|e]; [| apply revert_handler_frame].
  destruct all_rows as [|header body]; [reflexivity |].
  destruct (last_match job_no body) as [last|]; [| reflexivity].
  destruct (negb (Os.exists_ (fs w) (col 2 last)));
    [apply (log_revert_history_frame w) |].
  destruct (negb (Os.exists_ (fs w) (Path.dirname (col 1 last))));
    [apply (log_revert_history_frame w) |].
  destruct (Os.shutil_move _ _ _) as [t|e]; [| apply revert_handler_frame].
  cbn [fst]. apply (log_revert_history_frame (set_fs w t)).
Qed.

Lemma do_revert_loop_tally (checked : list string) (w : World) (success : nat)
    (failures : list string) :
  match do_revert_loop w checked success failures with
  | (w', success', failures') =>
      success' + List.length failures'
      = success + List.length failures + List.length checked
      /\ revert_log w' = revert_log w
  end.
Proof.
  revert w success failures.
  induction checked as [|job_no rest IH]; intros w success failures;
    cbn [do_revert_loop List.length].
  - split; [lia | reflexivity].
  - pose proof (revert_job_ledger_untouched w job_no) as Hl.
    destruct (revert_job w job_no) as [w1 result]. cbn [fst] in Hl.
    destruct (contains "successfully" (lower result)).
    + specialize (IH w1 (success + 1) failures).
      destruct (do_revert_loop w1 rest (success + 1) failures) as [[w' s'] f'].
      destruct IH as [IH1 IH2]. split; [lia | congruence].
    + specialize (IH w1 success (failures ++ [(job_no ++ ": " ++ result)%string])%list).
      destruct (do_revert_loop w1 rest success _) as [[w' s'] f'].
      destruct IH as [IH1 IH2]. rewrite length_app in IH1. cbn [List.length] in IH1.
      split; [lia | congruence].
Qed.

(** X22. A batch revert tallies every checked job exactly once, as a success
    or as a failure line, and however many of the reverts go through it
    leaves the transaction log as it found it. *)
Theorem do_revert_tally (w : World) (checked : list string) :
  match do_revert w checked with
  | (w', success, failures) =>
      success + List.length failures = List.length checked
      /\ revert_log w' = revert_log w
  end.
Proof.
  unfold do_revert. pose proof (do_revert_loop_tally checked w 0 []) as H.
  destruct (do_revert_loop w checked 0 []) as [[w' s] f]. cbn [List.length] in H.
  destruct H as [H1 H2]. split; [lia | exact H2].
Qed.
